(** * MapDServer: service bootstrap and warm-up replay

    A shallow embedding of [MapDServer.cpp]: the cluster-role filters
    ([only_db_leaves], [only_string_leaves]), the serve-loop wrapper
    ([start_server]), the warm-up replay ([releaseWarmupSession],
    [run_warmup_queries]) and the control flow of [main].

    Effects are explicit.  Every routine returns, next to its result, the
    list of observable events it produced (handler calls, system calls,
    log lines, thread operations), so that ordering and counting
    properties can be stated on that list. *)

From Stdlib Require Import String Ascii List Bool Arith NArith ZArith Lia.
From Stdlib Require Import DecimalString DecimalN.
Import ListNotations.

Local Open Scope string_scope.
Local Open Scope list_scope.

Set Implicit Arguments.
Set Warnings "-notation-for-abbreviation".

(** ** Text primitives of the C++ standard library *)

Module Text.

(** The line feed, the delimiter of [std::getline]. *)
Definition LF : ascii := ascii_of_nat 10.

(** The double quote, written by code point. *)
Definition DQUOTE : ascii := ascii_of_nat 34.

(** The single quote. *)
Definition SQUOTE : ascii := ascii_of_nat 39.

(** [std::isspace] in the C locale: space and the codes 9 to 13
    (tab, line feed, vertical tab, form feed, carriage return). *)
Definition isspace (c : ascii) : bool :=
  let n := nat_of_ascii c in
  ((n =? 32) || ((9 <=? n) && (n <=? 13)))%nat.

(** [std::getline(is, line)] on the unread characters of a stream:
    [None] when no character could be extracted (the stream fails and the
    [while] loop ends), otherwise the line without its delimiter and
    the characters left in the stream. *)
Fixpoint getline_from (s : string) : string * string :=
  match s with
  | EmptyString => (EmptyString, EmptyString)
  | String c s' =>
      if Ascii.eqb c LF then (EmptyString, s')
      else let '(l, r) := getline_from s' in (String c l, r)
  end.

Definition getline (s : string) : option (string * string) :=
  match s with
  | EmptyString => None
  | _ => Some (getline_from s)
  end.

(** All the lines successive [getline] calls deliver until the stream
    fails. *)
Fixpoint file_lines (s : string) : list string :=
  match s with
  | EmptyString => []
  | String c s' =>
      if Ascii.eqb c LF then EmptyString :: file_lines s'
      else match file_lines s' with
           | [] => [String c EmptyString]
           | l :: ls => String c l :: ls
           end
  end.

(** Leading white space skipped by the sentry of a formatted input. *)
Fixpoint skipws (s : string) : string :=
  match s with
  | EmptyString => EmptyString
  | String c s' => if isspace c then skipws s' else s
  end.

(** The maximal run of non-space characters at the front, and the rest. *)
Fixpoint read_word (s : string) : string * string :=
  match s with
  | EmptyString => (EmptyString, EmptyString)
  | String c s' =>
      if isspace c then (EmptyString, s)
      else let '(w, r) := read_word s' in (String c w, r)
  end.

(** [is >> str] for a [std::string] target on the unread characters [s].
    The sentry skips white space; when it reaches the end of the input
    the extraction fails and the target keeps its old value ([None]);
    otherwise the target is erased and receives the next word. *)
Definition extract (s : string) : option (string * string) :=
  match skipws s with
  | EmptyString => None
  | t => Some (read_word t)
  end.

(** [is >> a >> b >> c] with targets holding [a0], [b0], [c0] before.
    After a failed extraction the stream is in a failed state and the
    later extractions leave their targets unchanged. *)
Definition extract3 (a0 b0 c0 : string) (s : string)
  : string * string * string :=
  match extract s with
  | None => (a0, b0, c0)
  | Some (a, r1) =>
      match extract r1 with
      | None => (a, b0, c0)
      | Some (b, r2) =>
          match extract r2 with
          | None => (a, b, c0)
          | Some (c, _) => (a, b, c)
          end
      end
  end.

(** [s.compare(0, n, lit) == 0] for a literal of length [n]: the
    substring of [s] starting at 0 of length at most [n] equals [lit]. *)
Definition compare_prefix_eq (lit s : string) : bool :=
  String.eqb (substring 0 (String.length lit) s) lit.

(** [boost::algorithm::trim_if(s, is_any_of(set))]: drop the characters
    of [set] from both ends. *)
Fixpoint mem_ascii (c : ascii) (set : list ascii) : bool :=
  match set with
  | [] => false
  | d :: set' => Ascii.eqb c d || mem_ascii c set'
  end.

Fixpoint trim_left (set : list ascii) (s : string) : string :=
  match s with
  | EmptyString => EmptyString
  | String c s' => if mem_ascii c set then trim_left set s' else s
  end.

Fixpoint trim_right (set : list ascii) (s : string) : string :=
  match s with
  | EmptyString => EmptyString
  | String c s' =>
      match trim_right set s' with
      | EmptyString => if mem_ascii c set then EmptyString
                       else String c EmptyString
      | t => String c t
      end
  end.

Definition trim_if (set : list ascii) (s : string) : string :=
  trim_right set (trim_left set s).

(** The two quote characters given to [is_any_of] throughout [main]. *)
Definition quote_chars : list ascii := [DQUOTE; SQUOTE].

(** [std::to_string] of a non-negative integer: decimal digits. *)
Definition to_string (n : N) : string :=
  NilEmpty.string_of_uint (N.to_uint n).

(** [operator<<] of a [boost::filesystem::path]: the path between double
    quotes, with an ampersand before every embedded double quote or
    ampersand. *)
Fixpoint escape_path (s : string) : string :=
  match s with
  | EmptyString => EmptyString
  | String c s' =>
      if Ascii.eqb c DQUOTE || Ascii.eqb c "&"%char
      then String "&"%char (String c (escape_path s'))
      else String c (escape_path s')
  end.

Definition quoted_path (s : string) : string :=
  String DQUOTE (escape_path s ++ String DQUOTE EmptyString).

(** [boost::filesystem::path(p) / name] for a relative [name]: a
    separator is added unless [p] is empty or already ends with one. *)
Fixpoint ends_with_slash (s : string) : bool :=
  match s with
  | EmptyString => false
  | String c EmptyString => Ascii.eqb c "/"%char
  | String _ s' => ends_with_slash s'
  end.

Definition path_append (p name : string) : string :=
  match p with
  | EmptyString => name
  | _ => if ends_with_slash p then p ++ name else p ++ "/" ++ name
  end.

End Text.

(** ** Cluster roles *)

Module Cluster.

(** Modelled from the spec: the header declaring [NodeRole] and
    [LeafHostInfo] is not among the sources.  The spec gives a role the
    three values Aggregator, DbLeaf and StringLeaf (the code names the
    last one [NodeRole::String]) and a descriptor a host, a port and a
    role. *)
Inductive NodeRole := Aggregator | DbLeaf | String_.

Definition NodeRole_eqb (a b : NodeRole) : bool :=
  match a, b with
  | Aggregator, Aggregator | DbLeaf, DbLeaf | String_, String_ => true
  | _, _ => false
  end.

Record LeafHostInfo := mkLeaf {
  getHost : string;
  getPort : Z;
  getRole : NodeRole
}.

(** [std::copy_if] with a [back_inserter]: the elements satisfying the
    predicate, in their order. *)
Definition copy_if {A} (p : A -> bool) (l : list A) : list A := filter p l.

Definition only_db_leaves (all_leaves : list LeafHostInfo)
  : list LeafHostInfo :=
  copy_if (fun leaf => NodeRole_eqb (getRole leaf) DbLeaf) all_leaves.

Definition only_string_leaves (all_leaves : list LeafHostInfo)
  : list LeafHostInfo :=
  copy_if (fun leaf => NodeRole_eqb (getRole leaf) String_) all_leaves.

(** The cluster block of [main]: with [cluster] and [string_servers] the
    truth values of [vm.count("cluster")] and [vm.count("string-servers")]
    and [all_nodes] the parsed configuration, the values left in
    [db_leaves], [string_leaves] and [g_cluster]; [None] when
    [CHECK_NE] fails and the process aborts.  [db0] and [str0] are the
    (empty) vectors as declared before the block. *)
Record Topology := mkTopology {
  db_leaves : list LeafHostInfo;
  string_leaves : list LeafHostInfo;
  g_cluster : bool
}.

Definition no_topology : Topology := mkTopology [] [] false.

Definition resolve (cluster string_servers : bool)
           (all_nodes : list LeafHostInfo) : option Topology :=
  if cluster || string_servers then
    if Bool.eqb cluster string_servers then None
    else
      let db := if cluster then only_db_leaves all_nodes else [] in
      (* the branch on string-servers is empty in the source *)
      let str := only_string_leaves all_nodes in
      Some (mkTopology db str true)
  else Some no_topology.

End Cluster.

(** ** Observable events *)

Definition TSessionId := string.

Inductive severity := INFO | WARNING | ERROR | FATAL.

Inductive endpoint := BufEndpoint | HttpEndpoint.

(** How a call into a collaborator ends. *)
Inductive status := Returns | Throws.

(** Arguments of the system calls [main] makes on the lock file. *)
Inductive open_flag := O_RDWR | O_CREAT.
Inductive lockf_cmd := F_ULOCK | F_LOCK | F_TLOCK | F_TEST.

Inductive event :=
(* calls on the handler, with how they ended *)
| EvConnect (super_user_rights : bool) (user passwd dbname : string)
            (st : status) (session_after : TSessionId)
| EvSqlExecute (session : TSessionId) (query : string) (st : status)
| EvDisconnect (session : TSessionId)        (* a disconnect that returned *)
| EvDisconnectThrew (session : TSessionId)   (* a disconnect that threw *)
(* the script file *)
| EvFileOpen (path : string)
| EvFileClose
(* log and console *)
| EvLog (sev : severity) (msg : string)
| EvCerr (msg : string)
| EvCout (msg : string)
(* start-up *)
| EvParseClusterConfig (file : string)
| EvSysOpen (path : string) (flags : list open_flag) (mode : N)
| EvSysLockf (path : string) (cmd : lockf_cmd) (len : Z)
| EvSysFtruncate (path : string) (len : Z)
| EvSysWrite (path : string) (data : string)
| EvSysClose (path : string)
| EvCreateDirectory (path : string)
| EvInitLogging
| EvRegisterSignalHandler
| EvNewHandler (db_leaves string_leaves : list Cluster.LeafHostInfo)
| EvThreadStart (e : endpoint).

(** ** The handler as seen by this file *)

(** The query engine behind [MapDHandler] is a collaborator whose source
    is elsewhere; it is a parameter.  [connect] receives the current value
    of [super_user_rights_] and of the session variable it writes to, and
    may throw; [sql_execute] and [disconnect] may throw as well. *)
Class Engine (E : Type) := {
  getInvalidSessionId : TSessionId;
  connect : E -> bool -> TSessionId -> string -> string -> string ->
            status * TSessionId * E;
  sql_execute : E -> TSessionId -> string -> bool -> string -> Z ->
                status * E;
  disconnect : E -> TSessionId -> status * E
}.

Record MapDHandler (E : Type) := mkHandler {
  super_user_rights_ : bool;
  engine : E
}.

(** ** Warm-up replay *)

Module Warmup.

(** A computation ends normally with a value or by a thrown exception. *)
Inductive outcome (A : Type) := Normal (a : A) | Raised.
Arguments Normal {A} a.
Arguments Raised {A}.

(** The screen text of a [c_str()]: the characters before the first NUL. *)
Fixpoint c_str (s : string) : string :=
  match s with
  | EmptyString => EmptyString
  | String c s' =>
      if Ascii.eqb c Ascii.zero then EmptyString else String c (c_str s')
  end.

Section WithEngine.

Context {E : Type} {Eng : Engine E}.

(** The handler behind the global [warmup_handler] together with the
    locals of [run_warmup_queries] that live across loop iterations. *)
Record WState := mkWState {
  handler : MapDHandler E;
  user_keyword : string;
  user_name : string;
  db_name : string;
  sessionId : TSessionId
}.

(** State, exception and event-list monad. *)
Definition M (A : Type) : Type := WState -> outcome A * WState * list event.

Definition ret {A} (a : A) : M A := fun s => (Normal a, s, []).

Definition bind {A B} (m : M A) (k : A -> M B) : M B :=
  fun s =>
    match m s with
    | (Normal a, s1, t1) =>
        let '(r, s2, t2) := k a s1 in (r, s2, t1 ++ t2)
    | (Raised, s1, t1) => (Raised, s1, t1)
    end.

Notation "m ;; k" := (bind m (fun _ => k))
  (at level 61, right associativity).

Definition emit (e : event) : M unit := fun s => (Normal tt, s, [e]).

Definition modify (f : WState -> WState) : M unit :=
  fun s => (Normal tt, f s, []).

(** A scope with a guard ends in one more way than a plain computation:
    an exception that leaves the clean-up action leaves a destructor,
    and [std::terminate] ends the process. *)
Inductive completion (A : Type) :=
| Completed (r : outcome A)
| Terminated.
Arguments Completed {A} r.
Arguments Terminated {A}.

Definition G (A : Type) : Type :=
  WState -> completion A * WState * list event.

(** [try { body } catch (...) { handler }]: the handler runs for an
    exception that reaches it; a terminated process reaches nothing. *)
Definition try_catch_all {A} (body : G A) (on_exn : M A) : G A :=
  fun s =>
    match body s with
    | (Completed (Normal a), s1, t1) => (Completed (Normal a), s1, t1)
    | (Completed Raised, s1, t1) =>
        let '(r, s2, t2) := on_exn s1 in (Completed r, s2, t1 ++ t2)
    | (Terminated, s1, t1) => (Terminated, s1, t1)
    end.

(** Modelled from the spec: [ScopeGuard] comes from a header that is
    not among the sources.  The spec calls it a scoped clean-up action
    that runs on any exit from the scope, normal or exceptional; the
    exception of the body, if any, continues after the action.  The
    action runs in the destructor of the guard: when it throws while
    the exception of the body is unwinding, [std::terminate] is called,
    and so it is for an exception that leaves a destructor not declared
    to throw, which is the language default. *)
Definition ScopeGuard {A} (at_exit : M unit) (body : M A) : G A :=
  fun s =>
    let '(r, s1, t1) := body s in
    let '(g, s2, t2) := at_exit s1 in
    match g with
    | Normal _ => (Completed r, s2, t1 ++ t2)
    | Raised => (Terminated, s2, t1 ++ t2)
    end.

Definition with_super_user_rights (b : bool) (s : WState) : WState :=
  mkWState (mkHandler b (engine (handler s)))
           (user_keyword s) (user_name s) (db_name s) (sessionId s).

Definition set_super_user_rights (b : bool) : M unit :=
  modify (with_super_user_rights b).

Definition set_engine (e : E) (s : WState) : WState :=
  mkWState (mkHandler (super_user_rights_ (handler s)) e)
           (user_keyword s) (user_name s) (db_name s) (sessionId s).

Definition set_sessionId (sid : TSessionId) (s : WState) : WState :=
  mkWState (handler s) (user_keyword s) (user_name s) (db_name s) sid.

(** [iss >> user_keyword >> user_name >> db_name] on the line. *)
Definition with_tokens (db_info : string) (s : WState) : WState :=
  let '(k, u, d) :=
    Text.extract3 (user_keyword s) (user_name s) (db_name s) db_info in
  mkWState (handler s) k u d (sessionId s).

Definition parse_header (db_info : string) : M unit :=
  modify (with_tokens db_info).

(** [warmup_handler->connect] on the session variable, the user name,
    an empty password and the database name. *)
Definition call_connect : M unit :=
  fun s =>
    let h := handler s in
    let '(st, sid, e) :=
      connect (engine h) (super_user_rights_ h) (sessionId s)
              (user_name s) EmptyString (db_name s) in
    let s' := set_sessionId sid (set_engine e s) in
    let ev := EvConnect (super_user_rights_ h) (user_name s) EmptyString
                        (db_name s) st sid in
    match st with
    | Returns => (Normal tt, s', [ev])
    | Throws => (Raised, s', [ev])
    end.

(** [warmup_handler->sql_execute] on the session and the line, with
    column format, an empty nonce and no row limit; the result is
    dropped. *)
Definition call_sql_execute (single_query : string) : M unit :=
  fun s =>
    let '(st, e) :=
      sql_execute (engine (handler s)) (sessionId s) single_query
                  true EmptyString (-1)%Z in
    let s' := set_engine e s in
    let ev := EvSqlExecute (sessionId s) single_query st in
    match st with
    | Returns => (Normal tt, s', [ev])
    | Throws => (Raised, s', [ev])
    end.

(** [warmup_handler->disconnect(sessionId)]: the locals are left as
    they are; the engine is whatever the call leaves behind. *)
Definition disconnected (s : WState) : WState :=
  set_engine (snd (disconnect (engine (handler s)) (sessionId s))) s.

Definition disconnect_status (s : WState) : status :=
  fst (disconnect (engine (handler s)) (sessionId s)).

Definition call_disconnect : M unit :=
  fun s =>
    match disconnect_status s with
    | Returns => (Normal tt, disconnected s, [EvDisconnect (sessionId s)])
    | Throws => (Raised, disconnected s, [EvDisconnectThrew (sessionId s)])
    end.

(** The two statements after the inner loop: stop the session and
    reset the session variable.  The reset is skipped when the
    disconnect throws. *)
Definition end_block : M unit :=
  call_disconnect ;;
  modify (set_sessionId getInvalidSessionId).

(** The state after the two statements of [end_block] when the
    disconnect returns. *)
Definition block_ended (s : WState) : WState :=
  set_sessionId getInvalidSessionId (disconnected s).

(** The statements of a list run one after the other, up to the first
    that throws. *)
Fixpoint exec_all (qs : list string) : M unit :=
  match qs with
  | [] => ret tt
  | q :: qs' => call_sql_execute q ;; exec_all qs'
  end.

Definition syntax_warning (query_file_path db_info : string) : string :=
  String Text.LF "Syntax error in the file: " ++ c_str query_file_path
  ++ " Missing expected keyword USER. Following line will be ignored: "
  ++ c_str db_info ++ String Text.LF EmptyString.

(** The outer [while (std::getline(query_file, db_info))] and the inner
    [while (std::getline(query_file, single_query))], on the lines the
    file still holds.  Both read from the same stream, so the line
    after a block terminator goes to the outer loop, and the end of
    the file ends both. *)
Fixpoint header_loop (query_file_path : string) (lines : list string)
  : M unit :=
  match lines with
  | [] => ret tt
  | db_info :: rest =>
      if (String.length db_info =? 0)%nat then
        header_loop query_file_path rest
      else
        parse_header db_info ;;
        fun s =>
          (if Text.compare_prefix_eq "USER" (user_keyword s) then
             set_super_user_rights true ;;
             call_connect ;;
             set_super_user_rights false ;;
             query_loop query_file_path rest
           else
             emit (EvLog WARNING (syntax_warning query_file_path db_info)) ;;
             header_loop query_file_path rest) s
  end
with query_loop (query_file_path : string) (lines : list string)
  : M unit :=
  match lines with
  | [] => end_block
  | single_query :: rest =>
      if (String.length single_query =? 0)%nat then
        query_loop query_file_path rest
      else if String.eqb single_query "}" then
        end_block ;; header_loop query_file_path rest
      else
        call_sql_execute single_query ;;
        query_loop query_file_path rest
  end.

Definition releaseWarmupSession : M unit :=
  emit EvFileClose ;;
  fun s =>
    (if negb (String.eqb (sessionId s) getInvalidSessionId) then
       call_disconnect
     else ret tt) s.

Definition incomplete_warning : string :=
  "Exception while executing warmup queries. "
  ++ "Warmup may not be fully completed. Will proceed nevertheless."
  ++ String Text.LF EmptyString.

(** The contents an [ifstream] opened on a path delivers: none when the
    file cannot be opened. *)
Definition stream_lines (fs : string -> option string) (path : string)
  : list string :=
  match fs path with
  | Some contents => Text.file_lines contents
  | None => []
  end.

(** The body of the [try] block, before the guard fires. *)
Definition warmup_body (fs : string -> option string)
           (query_file_path : string) : M unit :=
  emit (EvFileOpen query_file_path) ;;
  header_loop query_file_path (stream_lines fs query_file_path).

Definition initial_state (h : MapDHandler E) : WState :=
  mkWState h EmptyString EmptyString EmptyString getInvalidSessionId.

(** The routine returns to its caller ([Normal]) or does not: the
    one way out of the [try] that the catch-all does not take is the
    end of the process by [std::terminate], reported as [Raised], the
    same report as for an exception that would leave the routine. *)
Definition left_routine (c : completion unit) : outcome unit :=
  match c with
  | Completed r => r
  | Terminated => Raised
  end.

Definition run_warmup_queries (fs : string -> option string)
           (h : MapDHandler E) (base_path query_file_path : string)
  : outcome unit * MapDHandler E * list event :=
  if (String.length query_file_path =? 0)%nat then (Normal tt, h, [])
  else
    let '(c, s, t) :=
      try_catch_all
        (ScopeGuard releaseWarmupSession
                    (warmup_body fs query_file_path))
        (emit (EvLog WARNING incomplete_warning))
        (initial_state h) in
    (left_routine c, handler s,
     EvLog INFO ("Running DB warmup with queries from "
                 ++ query_file_path) :: t).

End WithEngine.

End Warmup.

(** ** Start-up: the control flow of [main] *)

Module Startup.

Import Text.

(** What [po::store] and [po::notify] leave behind: the presence of the
    flags that steer the control flow, and the option values used on
    the way.  [parse_error] holds [e.what()] when the option parser
    threw. *)
Record Options := mkOptions {
  parse_error : option string;
  count_cluster : bool;
  count_string_servers : bool;
  count_help : bool;
  count_help_advanced : bool;
  count_version : bool;
  base_path : string;
  cluster_file : string;
  db_query_file : string;
  db_convert_dir : string;
  enable_watchdog : bool;
  ha_group_id : string;
  ha_unique_server_id : string;
  ha_brokers : string;
  ha_shared_data : string;
  cuda_block_size : N;
  cuda_grid_size : N;
  calcite_max_mem : N
}.

(** The operating system and the collaborators [main] calls. *)
Record Env (E : Type) := mkEnv {
  getpid : N;
  fs_exists : string -> bool;
  ifstream_contents : string -> option string;
  open_succeeds : string -> bool;
  lock_holder : string -> option N;
  ftruncate_succeeds : string -> bool;
  write_succeeds : string -> bool;
  strerror_errno : string;
  parseClusterConfig : string -> list Cluster.LeafHostInfo;
  new_MapDHandler :
    list Cluster.LeafHostInfo -> list Cluster.LeafHostInfo ->
    MapDHandler E
}.

(** [lockf(fd, F_TLOCK, 0)]: the test-and-lock request does not wait; it
    fails when another process holds a lock on the file. *)
Definition lockf_tlock {E} (env : Env E) (path : string) : bool :=
  match lock_holder env path with
  | Some p => N.eqb p (getpid env)
  | None => true
  end.

Inductive main_result :=
| Exit (code : Z)        (* [return code] *)
| Abort                  (* a failed [CHECK] or [LOG(FATAL)] *)
| Terminate              (* an exception left [main] *)
| Joining.               (* blocked in [bufThread.join()] *)

(** Straight-line code with early exits and an event list. *)
Inductive flow (A : Type) := Continue (a : A) | Stop (r : main_result).
Arguments Continue {A} a.
Arguments Stop {A} r.

Definition Proc (A : Type) : Type := flow A * list event.

Definition pret {A} (a : A) : Proc A := (Continue a, []).

Definition pbind {A B} (m : Proc A) (k : A -> Proc B) : Proc B :=
  match m with
  | (Continue a, t1) => let '(r, t2) := k a in (r, t1 ++ t2)
  | (Stop r, t1) => (Stop r, t1)
  end.

Notation "x <- m ;; k" := (pbind m (fun x => k))
  (at level 61, m at next level, right associativity).
Notation "m ;; k" := (pbind m (fun _ => k))
  (at level 61, right associativity).

Definition pemit (e : event) : Proc unit := (Continue tt, [e]).
Definition pemits (t : list event) : Proc unit := (Continue tt, t).
Definition stop {A} (r : main_result) : Proc A := (Stop r, []).
Definition when (b : bool) (m : Proc unit) : Proc unit :=
  if b then m else pret tt.

Definition endl : string := String LF EmptyString.

Definition usage : string :=
  "Usage: mapd_server <catalog path> [<database name>] [--cpu|--gpu] [-p <port "
  ++ "number>] [--http-port <http port number>] [--flush-log] [--version|-v]"
  ++ endl ++ endl.

Definition bool_text (b : bool) : string := if b then "1" else "0".

Definition LOCK_FILE_NAME : string := "mapd_server_pid.lck".

(** The octal literal 0644. *)
Definition MODE_0644 : N := 6 * 64 + 4 * 8 + 4.

Section Main.

Context {E : Type} {Eng : Engine E}.

(** The macros [MAPD_SYSTEM_DB] and [MAPD_RELEASE] come from headers
    that are not among the sources; they are parameters. *)
Variable MAPD_SYSTEM_DB : string.
Variable MAPD_RELEASE : string.

Variable env : Env E.
Variable o : Options.

(** The [try] block on the options: parser errors, the cluster block,
    and the three informational flags.  The option tables printed after
    the usage line are cut down to their captions, and the choice of the
    device, which steers no control flow, is left out. *)
Definition options_block : Proc Cluster.Topology :=
  match parse_error o with
  | Some what =>
      pemit (EvCerr ("Usage Error: " ++ what ++ endl)) ;; stop (Exit 1)
  | None =>
      let cf := trim_if quote_chars (cluster_file o) in
      topo <-
        match Cluster.resolve (count_cluster o) (count_string_servers o)
                              (parseClusterConfig env cf) with
        | None => stop Abort
        | Some topo =>
            when (count_cluster o || count_string_servers o)
                 (pemit (EvParseClusterConfig cf)) ;;
            pret topo
        end ;;
      when (count_help o)
           (pemit (EvCout (usage ++ "Options" ++ endl)) ;; stop (Exit 0)) ;;
      when (count_help_advanced o)
           (pemit (EvCout (usage ++ "All options" ++ endl)) ;;
            stop (Exit 0)) ;;
      when (count_version o)
           (pemit (EvCout ("MapD Version: " ++ MAPD_RELEASE ++ endl)) ;;
            stop (Exit 0)) ;;
      pret topo
  end.

Definition query_file : string := trim_if quote_chars (db_query_file o).
Definition convert_dir : string := trim_if quote_chars (db_convert_dir o).
Definition data_dir : string := trim_if quote_chars (base_path o).

(** The existence checks, in their order; each failure returns 1. *)
Definition precondition_checks : Proc unit :=
  when ((0 <? String.length query_file)%nat
        && negb (fs_exists env query_file))
       (pemit (EvCerr ("File containing DB queries " ++ query_file
                       ++ " does not exist." ++ endl)) ;;
        stop (Exit 1)) ;;
  when ((0 <? String.length convert_dir)%nat
        && negb (fs_exists env convert_dir))
       (pemit (EvCerr ("Data conversion source directory " ++ convert_dir
                       ++ " does not exist." ++ endl)) ;;
        stop (Exit 1)) ;;
  when (negb (fs_exists env data_dir))
       (pemit (EvCerr ("Data directory " ++ data_dir
                       ++ " does not exist." ++ endl)) ;;
        stop (Exit 1)) ;;
  let system_db_file :=
    path_append (path_append data_dir "mapd_catalogs") "mapd" in
  when (negb (fs_exists env system_db_file))
       (pemit (EvCerr ("MapD system catalogs does not exist at "
                       ++ quoted_path system_db_file ++ ". Run initdb"
                       ++ endl)) ;;
        stop (Exit 1)) ;;
  let data_path := path_append data_dir "mapd_data" in
  when (negb (fs_exists env data_path))
       (pemit (EvCerr ("MapD data directory does not exist at "
                       ++ data_dir ++ ". Run initdb" ++ endl)) ;;
        stop (Exit 1)) ;;
  let db_file :=
    path_append (path_append data_dir "mapd_catalogs") MAPD_SYSTEM_DB in
  when (negb (fs_exists env db_file))
       (pemit (EvCerr ("MapD database " ++ MAPD_SYSTEM_DB
                       ++ " does not exist." ++ endl)) ;;
        stop (Exit 1)).

Definition lock_file : string := path_append data_dir LOCK_FILE_NAME.

(** The instance lock: open with [O_RDWR | O_CREAT], test-and-lock,
    truncate, write the process id. *)
Definition acquire_instance_lock : Proc unit :=
  let pid := to_string (getpid env) in
  pemit (EvSysOpen lock_file [O_RDWR; O_CREAT] MODE_0644) ;;
  when (negb (open_succeeds env lock_file))
       (pemit (EvCerr ("Failed to open PID file " ++ quoted_path lock_file
                       ++ ". " ++ strerror_errno env ++ "." ++ endl)) ;;
        stop (Exit 1)) ;;
  pemit (EvSysLockf lock_file F_TLOCK 0) ;;
  when (negb (lockf_tlock env lock_file))
       (pemit (EvCerr ("Another MapD Server is using data directory "
                       ++ quoted_path data_dir ++ "." ++ endl)) ;;
        pemit (EvSysClose lock_file) ;;
        stop (Exit 1)) ;;
  pemit (EvSysFtruncate lock_file 0) ;;
  when (negb (ftruncate_succeeds env lock_file))
       (pemit (EvCerr ("Failed to truncate PID file "
                       ++ quoted_path lock_file
                       ++ ". " ++ strerror_errno env ++ "." ++ endl)) ;;
        pemit (EvSysClose lock_file) ;;
        stop (Exit 1)) ;;
  pemit (EvSysWrite lock_file pid) ;;
  when (negb (write_succeeds env lock_file))
       (pemit (EvCerr ("Failed to write PID file " ++ quoted_path lock_file
                       ++ ". " ++ strerror_errno env ++ "." ++ endl)) ;;
        pemit (EvSysClose lock_file) ;;
        stop (Exit 1)).

(** Log set-up, the start-up banner and the high-availability checks. *)
Definition logging_and_ha : Proc unit :=
  pemit (EvCreateDirectory (path_append data_dir "mapd_log")) ;;
  pemit EvInitLogging ;;
  pemit (EvLog INFO ("MapD started with data directory at '"
                     ++ data_dir ++ "'")) ;;
  when (count_cluster o)
       (pemit (EvLog INFO
          ("Cluster file specified running as aggregator with config at '"
           ++ trim_if quote_chars (cluster_file o) ++ "'"))) ;;
  when (count_string_servers o)
       (pemit (EvLog INFO
          ("String servers file specified running as dbleaf with config at '"
           ++ trim_if quote_chars (cluster_file o) ++ "'"))) ;;
  pemit (EvLog INFO (" Watchdog is set to "
                     ++ bool_text (enable_watchdog o))) ;;
  when (negb (String.eqb (ha_group_id o) EmptyString))
       (pemit (EvLog INFO (" HA group id " ++ ha_group_id o)) ;;
        (if String.eqb (ha_unique_server_id o) EmptyString then
           pemit (EvLog ERROR
             "Starting server in HA mode --ha-unique-server-id must be set ") ;;
           stop (Exit 5)
         else pemit (EvLog INFO (" HA unique server id "
                                 ++ ha_unique_server_id o))) ;;
        (if String.eqb (ha_brokers o) EmptyString then
           pemit (EvLog ERROR
             "Starting server in HA mode --ha-brokers must be set ") ;;
           stop (Exit 6)
         else pemit (EvLog INFO (" HA brokers " ++ ha_brokers o))) ;;
        (if String.eqb (ha_shared_data o) EmptyString then
           pemit (EvLog ERROR
             "Starting server in HA mode --ha-shared-data must be set ") ;;
           stop (Exit 7)
         else pemit (EvLog INFO (" HA shared data is "
                                 ++ ha_unique_server_id o)))) ;;
  pemit (EvLog INFO (" cuda block size "
                     ++ to_string (cuda_block_size o))) ;;
  pemit (EvLog INFO (" cuda grid size  "
                     ++ to_string (cuda_grid_size o))) ;;
  pemit (EvLog INFO (" calcite JVM max memory  "
                     ++ to_string (calcite_max_mem o))).

(** The two endpoint threads are started, the warm-up runs on the main
    thread, and [main] then waits in the joins. *)
Definition serve (h : MapDHandler E) : Proc unit :=
  pemit (EvThreadStart BufEndpoint) ;;
  pemit (EvThreadStart HttpEndpoint) ;;
  let '(r, _, t) :=
    Warmup.run_warmup_queries (ifstream_contents env) h data_dir
                              query_file in
  pemits t ;;
  match r with
  | Warmup.Normal _ => stop Joining
  | Warmup.Raised => stop Terminate
  end.

Definition main_proc : Proc unit :=
  topo <- options_block ;;
  precondition_checks ;;
  acquire_instance_lock ;;
  logging_and_ha ;;
  pemit EvRegisterSignalHandler ;;
  let db := Cluster.db_leaves topo in
  let str := Cluster.string_leaves topo in
  pemit (EvNewHandler db str) ;;
  let h := new_MapDHandler env db str in
  if String.eqb (ha_group_id o) EmptyString then serve h
  else
    pemit (EvLog FATAL
      "No High Availabilty module avilable, please contact MapD support") ;;
    stop Abort.

Definition main : main_result * list event :=
  match main_proc with
  | (Continue _, t) => (Exit 0, t)
  | (Stop r, t) => (r, t)
  end.

End Main.

End Startup.

(** ** The endpoint threads and the join phase *)

Module Endpoints.

(** How [server.serve()] ends, if it ends: by returning, by throwing an
    exception derived from [std::exception] (the transport errors of the
    RPC library are such), or by throwing anything else. *)
Inductive serve_end :=
| ServeReturns
| ServeThrowsStd (what : string)
| ServeThrowsOther.

(** [start_server]: the serve loop inside [try], with a handler for
    [std::exception] only. *)
Definition start_server (o : serve_end) : Warmup.outcome unit * list event :=
  match o with
  | ServeReturns => (Warmup.Normal tt, [])
  | ServeThrowsStd what =>
      (Warmup.Normal tt,
       [EvLog ERROR ("Exception: " ++ what ++ String Text.LF EmptyString)])
  | ServeThrowsOther => (Warmup.Raised, [])
  end.

Inductive thread_state := Running | Finished.

(** Where the main thread is once both threads are started. *)
Inductive main_pc := InWarmup | JoinBuf | JoinHttp | Returned.

Record process := mkProcess {
  bufThread : thread_state;
  httpThread : thread_state;
  pc : main_pc;
  terminated : bool;          (* [std::terminate] was called *)
  log : list event
}.

Definition thread (p : process) (e : endpoint) : thread_state :=
  match e with
  | BufEndpoint => bufThread p
  | HttpEndpoint => httpThread p
  end.

Definition other (e : endpoint) : endpoint :=
  match e with
  | BufEndpoint => HttpEndpoint
  | HttpEndpoint => BufEndpoint
  end.

Definition finish (e : endpoint) (p : process) (dead : bool)
           (t : list event) : process :=
  match e with
  | BufEndpoint =>
      mkProcess Finished (httpThread p) (pc p) dead (log p ++ t)
  | HttpEndpoint =>
      mkProcess (bufThread p) Finished (pc p) dead (log p ++ t)
  end.

Definition set_pc (c : main_pc) (p : process) : process :=
  mkProcess (bufThread p) (httpThread p) c (terminated p) (log p).

(** What can happen next in the process. *)
Inductive action :=
| ServeEnds (e : endpoint) (o : serve_end)   (* the serve loop of [e] ends *)
| WarmupDone                                  (* [run_warmup_queries] returns *)
| JoinReturns.                                (* the pending [join] returns *)

(** One step; [None] when the action is not enabled.  A thread function
    that lets an exception escape ends the whole process; [join]
    returns only for a thread whose function has returned. *)
Definition step (a : action) (p : process) : option process :=
  if terminated p then None
  else
    match a with
    | ServeEnds e o =>
        match thread p e with
        | Finished => None
        | Running =>
            match start_server o with
            | (Warmup.Normal _, t) => Some (finish e p false t)
            | (Warmup.Raised, t) => Some (finish e p true t)
            end
        end
    | WarmupDone =>
        match pc p with
        | InWarmup => Some (set_pc JoinBuf p)
        | _ => None
        end
    | JoinReturns =>
        match pc p, bufThread p, httpThread p with
        | JoinBuf, Finished, _ => Some (set_pc JoinHttp p)
        | JoinHttp, _, Finished => Some (set_pc Returned p)
        | _, _, _ => None
        end
    end.

Fixpoint run (acts : list action) (p : process) : option process :=
  match acts with
  | [] => Some p
  | a :: acts' =>
      match step a p with
      | Some p' => run acts' p'
      | None => None
      end
  end.

(** The process right after [main] has started both threads. *)
Definition launched : process :=
  mkProcess Running Running InWarmup false [].

(** The main thread is past a join only for a thread whose function
    has returned. *)
Definition joined_ok (p : process) : Prop :=
  (pc p = JoinHttp -> bufThread p = Finished) /\
  (pc p = Returned -> bufThread p = Finished /\ httpThread p = Finished).

(** The serve loop ends by returning or by an exception that
    [start_server] catches. *)
Definition contained (a : action) : Prop :=
  match a with
  | ServeEnds _ ServeThrowsOther => False
  | _ => True
  end.

End Endpoints.


(** ** Vocabulary of the properties *)

Module Obs.

Definition is_file_close (e : event) : bool :=
  match e with EvFileClose => true | _ => false end.

Definition is_connect (e : event) : bool :=
  match e with EvConnect _ _ _ _ _ _ => true | _ => false end.

Definition is_sql_execute (e : event) : bool :=
  match e with EvSqlExecute _ _ _ => true | _ => false end.

Definition is_disconnect (e : event) : bool :=
  match e with
  | EvDisconnect _ | EvDisconnectThrew _ => true
  | _ => false
  end.

Definition is_disconnect_threw (e : event) : bool :=
  match e with EvDisconnectThrew _ => true | _ => false end.

(** The side condition on the handler under which the clean-up of the
    warm-up is itself free of exceptions. *)
Definition disconnect_returns (E : Type) {Eng : Engine E} : Prop :=
  forall (e : E) (sid : TSessionId), fst (disconnect e sid) = Returns.
Arguments disconnect_returns E {Eng}.

Definition is_handler_call (e : event) : bool :=
  is_connect e || is_sql_execute e || is_disconnect e.

Definition is_warning (e : event) : bool :=
  match e with EvLog WARNING _ => true | _ => false end.

Definition is_thread_start (e : event) : bool :=
  match e with EvThreadStart _ => true | _ => false end.

(** Events of the warm-up replay proper. *)
Definition is_warmup (e : event) : bool :=
  match e with
  | EvFileOpen _ | EvFileClose => true
  | _ => is_handler_call e
  end.

(** The launch of an endpoint thread or an action of the warm-up. *)
Definition is_launch_or_warmup (e : event) : bool :=
  is_thread_start e || is_warmup e.

(** Set-up of the log and lines of the start-up banner. *)
Definition is_banner (e : event) : bool :=
  match e with
  | EvCreateDirectory _ | EvInitLogging | EvLog INFO _ => true
  | _ => false
  end.

Definition count (p : event -> bool) (t : list event) : nat :=
  length (filter p t).

(** The session a session variable stands for: none when it holds the
    sentinel. *)
Definition live_session (invalid sid : TSessionId) : option TSessionId :=
  if String.eqb sid invalid then None else Some sid.

(** Session book-keeping along a trace.  [live] is the session that is
    active, if any.  A connect while a session is active, or a disconnect
    of a session that is neither the active one nor the sentinel, is a
    violation ([None]). *)
Fixpoint track (invalid : TSessionId) (live : option TSessionId)
         (t : list event) : option (option TSessionId) :=
  match t with
  | [] => Some live
  | EvConnect _ _ _ _ _ sid :: t' =>
      match live with
      | Some _ => None
      | None =>
          track invalid (live_session invalid sid) t'
      end
  | EvDisconnect sid :: t' =>
      match live with
      | Some s => if String.eqb s sid then track invalid None t' else None
      | None => if String.eqb sid invalid then track invalid None t' else None
      end
  | _ :: t' => track invalid live t'
  end.

(** Every session that became active was disconnected, once, before the
    next connect and before the end of the trace. *)
Definition sessions_balanced (invalid : TSessionId) (t : list event) : bool :=
  match track invalid None t with
  | Some None => true
  | _ => false
  end.

(** The first three words of a line, when it has that many. *)
Definition tokens3 (line : string) : option (string * string * string) :=
  match Text.extract line with
  | Some (a, r1) =>
      match Text.extract r1 with
      | Some (b, r2) =>
          match Text.extract r2 with
          | Some (c, _) => Some (a, b, c)
          | None => None
          end
      | None => None
      end
  | None => None
  end.

(** A block of a warm-up script: its header line and its statement
    lines; [block_lines] adds the closing brace line. *)
Record block := mkBlock {
  header : string;
  statements : list string
}.

Definition block_user (b : block) : string :=
  match tokens3 (header b) with Some (_, u, _) => u | None => EmptyString end.

Definition block_db (b : block) : string :=
  match tokens3 (header b) with Some (_, _, d) => d | None => EmptyString end.

Definition statement_ok (q : string) : bool :=
  negb (String.eqb q EmptyString) && negb (String.eqb q "}").

Definition well_formed (b : block) : bool :=
  match tokens3 (header b) with
  | Some (k, _, _) => String.eqb k "USER"
  | None => false
  end && forallb statement_ok (statements b).

Definition block_lines (b : block) : list string :=
  header b :: statements b ++ ["}"].

Definition script_lines (bs : list block) : list string :=
  flat_map block_lines bs.

(** The events of one complete connect/disconnect cycle on session
    [sid], and of a list of them. *)
Definition cycle (b : block) (sid : TSessionId) : list event :=
  EvConnect true (block_user b) EmptyString (block_db b) Returns sid
  :: map (fun q => EvSqlExecute sid q Returns) (statements b)
  ++ [EvDisconnect sid].

Definition cycles (bs : list block) (sids : list TSessionId) : list event :=
  flat_map (fun x => cycle (fst x) (snd x)) (combine bs sids).

(** The events of a cycle cut short: by a throwing connect ([None]) or by
    the throwing statement number [j] ([Some j]). *)
Definition broken_cycle (b : block) (sid : TSessionId)
           (failed : option nat) : list event :=
  match failed with
  | None =>
      [EvConnect true (block_user b) EmptyString (block_db b) Throws sid]
  | Some j =>
      EvConnect true (block_user b) EmptyString (block_db b) Returns sid
      :: map (fun q => EvSqlExecute sid q Returns) (firstn j (statements b))
      ++ [EvSqlExecute sid (nth j (statements b) EmptyString) Throws]
  end.

Definition failed_in_range (b : block) (failed : option nat) : Prop :=
  match failed with
  | None => True
  | Some j => j < length (statements b)
  end.

(** What the guard does on session [sid] when its disconnect
    returns. *)
Definition cleanup (invalid sid : TSessionId) : list event :=
  if String.eqb sid invalid then [EvFileClose]
  else [EvFileClose; EvDisconnect sid].







End Obs.

(** ** The execution algorithm on blocks *)

Module BlockReplay.

Import Warmup Obs.

Section WithEngine.

Context {E : Type} {Eng : Engine E}.

(** The algorithm of the specification for one well-formed block: read
    the header, open the session with elevated rights, run the
    statements in order, disconnect.  A throwing call ends it. *)
Definition replay_block (b : block) : M (E := E) unit :=
  bind (parse_header (header b)) (fun _ =>
  bind (set_super_user_rights true) (fun _ =>
  bind call_connect (fun _ =>
  bind (set_super_user_rights false) (fun _ =>
  bind (exec_all (statements b)) (fun _ =>
  end_block))))).

(** ... and for the blocks of a script, in file order. *)
Fixpoint replay_blocks (bs : list block) : M (E := E) unit :=
  match bs with
  | [] => ret tt
  | b :: bs' => bind (replay_block b) (fun _ => replay_blocks bs')
  end.

End WithEngine.


End BlockReplay.

(** ** A small engine and environment to run the model on *)

Module Fixture.

Definition nl : string := String Text.LF EmptyString.

(** An engine that counts the sessions it has handed out.  The user
    [nobody] is unknown to it and statements starting with [FAIL] fail;
    both make the call throw, as a catalog miss or a failing statement
    does in the handler. *)
#[export] Instance CountingEngine : Engine nat := {|
  getInvalidSessionId := EmptyString;
  connect e su sid user passwd dbname :=
    if String.eqb user "nobody" then (Throws, sid, e)
    else (Returns, ("s" ++ Text.to_string (N.of_nat (S e)))%string, S e);
  sql_execute e sid q _ _ _ :=
    if Text.compare_prefix_eq "FAIL" q then (Throws, e) else (Returns, e);
  disconnect e sid := (Returns, e)
|}.

(** The same engine, except that it refuses every disconnect, as the
    handler does for a session it does not find. *)
Inductive forgetful := Forgetful (handed_out : nat).

#[export] Instance ForgetfulEngine : Engine forgetful := {|
  getInvalidSessionId := EmptyString;
  connect e su sid user passwd dbname :=
    let 'Forgetful n := e in
    if String.eqb user "nobody" then (Throws, sid, e)
    else (Returns, ("s" ++ Text.to_string (N.of_nat (S n)))%string,
          Forgetful (S n));
  sql_execute e sid q _ _ _ :=
    if Text.compare_prefix_eq "FAIL" q then (Throws, e) else (Returns, e);
  disconnect e sid := (Throws, e)
|}.

Definition handler0 : MapDHandler nat := mkHandler false 0.

Definition script_path : string := "warmup.sql".

(** A file system holding one script. *)
Definition one_file (contents : string) (path : string) : option string :=
  if String.eqb path script_path then Some contents else None.

Definition replay (contents : string) :=
  Warmup.run_warmup_queries (one_file contents) handler0 "data" script_path.

Definition trace_of (contents : string) : list event :=
  snd (replay contents).

(** The same replay on the engine that refuses disconnects. *)
Definition handler1 : MapDHandler forgetful := mkHandler false (Forgetful 0).

Definition replay_forgetful (contents : string) :=
  Warmup.run_warmup_queries (one_file contents) handler1 "data" script_path.

(** A script of one block whose statement succeeds, and one whose
    statement fails. *)
Definition one_block_script : string :=
  "USER a db" ++ nl ++ "SELECT 1;" ++ nl ++ "}" ++ nl.


(** A script of two well-formed blocks whose first statement fails. *)
Definition two_blocks : list Obs.block :=
  [Obs.mkBlock "USER a db" ["FAIL 1;"];
   Obs.mkBlock "USER b db" ["SELECT 2;"]].

Definition two_blocks_script : string :=
  "USER a db" ++ nl ++ "FAIL 1;" ++ nl ++ "}" ++ nl ++
  "USER b db" ++ nl ++ "SELECT 2;" ++ nl ++ "}" ++ nl.

(** The same with a statement that succeeds, the last block ended by
    the end of the file. *)
Definition good_blocks : list Obs.block :=
  [Obs.mkBlock "USER a db" ["SELECT 1;"];
   Obs.mkBlock "USER b db" ["SELECT 2;"]].

Definition good_blocks_script : string :=
  "USER a db" ++ nl ++ "SELECT 1;" ++ nl ++ "}" ++ nl ++
  "USER b db" ++ nl ++ "SELECT 2;" ++ nl.


(** A script with a line of blanks in header position after a block. *)
Definition blank_header_script : string :=
  "USER a db" ++ nl ++ "SELECT 1;" ++ nl ++ "}" ++ nl ++
  "  " ++ nl ++ "SELECT 2;" ++ nl ++ "}" ++ nl.

(** A script naming a user the engine does not know. *)
Definition unknown_user_script : string := "USER nobody db" ++ nl.

Definition leafA := Cluster.mkLeaf "a" 1 Cluster.Aggregator.
Definition leafD := Cluster.mkLeaf "d" 2 Cluster.DbLeaf.
Definition leafS := Cluster.mkLeaf "s" 3 Cluster.String_.

Definition env (script : string) (holder : option N) : Startup.Env nat :=
  Startup.mkEnv 4711 (fun _ => true) (one_file script) (fun _ => true)
                (fun _ => holder) (fun _ => true) (fun _ => true)
                "Permission denied"
                (fun _ => [leafA; leafD; leafS])
                (fun _ _ => handler0).

Definition options (cluster : bool) : Startup.Options :=
  Startup.mkOptions None cluster false false false false
                    "data" "cluster.conf" script_path EmptyString true
                    EmptyString EmptyString EmptyString EmptyString
                    1024 1024 1024.

Definition start (script : string) (holder : option N) (cluster : bool) :=
  Startup.main "mapd" "3.0" (env script holder) (options cluster).



End Fixture.

(** ** Conversions from the wire format *)

Module Thrift.

(** The 64-bit [size_t] of the platforms the server is built for. *)
Definition SIZE_T_MODULUS : Z := 2 ^ 64.

(** [static_cast<size_t>(x)] for a signed 64-bit [x]: the value modulo
    two to the 64. *)
Definition static_cast_size_t (x : Z) : Z := x mod SIZE_T_MODULUS.

(** The range of a signed 64-bit integer, the type of the counts on the
    wire. *)
Definition is_int64 (x : Z) : Prop := (- 2 ^ 63 <= x < 2 ^ 63)%Z.

(** The enumerators the [switch] names, and any other value the field
    may hold. *)
Inductive TExpressionRangeType :=
| INVALID | INTEGER | FLOAT | DOUBLE | Unlisted (n : Z).

Record PhysicalInput := mkPhysicalInput {
  pi_col_id : Z;
  pi_table_id : Z
}.

Record TableGeneration := mkTableGeneration {
  tuple_count : Z;
  start_rowid : Z
}.

Record TTableGeneration := mkTTableGeneration {
  tg_table_id : Z;
  tg_tuple_count : Z;
  tg_start_rowid : Z
}.

Record TDictionaryGeneration := mkTDictionaryGeneration {
  dict_id : Z;
  entry_count : Z
}.

Section WithFloat.

(** The floating-point values are carried, never computed with: the
    bounds on the wire are [double]; [makeFloatRange] takes [float]
    bounds, so the call converts them, which [narrow] stands for. *)
Variable Double Float : Type.
Variable narrow : Double -> Float.

(** The fields of a column range the conversion reads. *)
Record TColumnRange := mkTColumnRange {
  type : TExpressionRangeType;
  col_id : Z;
  table_id : Z;
  int_min : Z;
  int_max : Z;
  bucket : Z;
  has_nulls : bool;
  fp_min : Double;
  fp_max : Double
}.

(** The four factory calls of [ExpressionRange], with their arguments. *)
Inductive ExpressionRange :=
| makeIntRange (min max bucket : Z) (has_nulls : bool)
| makeFloatRange (min max : Float) (has_nulls : bool)
| makeDoubleRange (min max : Double) (has_nulls : bool)
| makeInvalidRange.

(** The body of the [switch]: the range built for one element, [None]
    in the [default] branch, where [CHECK(false)] aborts. *)
Definition range_from_thrift (r : TColumnRange) : option ExpressionRange :=
  match type r with
  | INTEGER =>
      Some (makeIntRange (int_min r) (int_max r) (bucket r) (has_nulls r))
  | FLOAT =>
      Some (makeFloatRange (narrow (fp_min r)) (narrow (fp_max r))
                           (has_nulls r))
  | DOUBLE => Some (makeDoubleRange (fp_min r) (fp_max r) (has_nulls r))
  | INVALID => Some makeInvalidRange
  | Unlisted _ => None
  end.

(** [column_ranges_from_thrift]: the [setColRange] calls made on the
    fresh [AggregatedColRange], in order; [None] when the process aborts
    on the way. *)
Fixpoint column_ranges_from_thrift (thrift_column_ranges : list TColumnRange)
  : option (list (PhysicalInput * ExpressionRange)) :=
  match thrift_column_ranges with
  | [] => Some []
  | r :: rest =>
      match range_from_thrift r with
      | None => None
      | Some er =>
          match column_ranges_from_thrift rest with
          | None => None
          | Some calls =>
              Some ((mkPhysicalInput (col_id r) (table_id r), er) :: calls)
          end
      end
  end.

End WithFloat.

(** [string_dictionary_generations_from_thrift]: the [setGeneration]
    calls made on the fresh container, in order. *)
Definition string_dictionary_generations_from_thrift
           (gens : list TDictionaryGeneration) : list (Z * Z) :=
  map (fun g => (dict_id g, entry_count g)) gens.

(** [table_generations_from_thrift]: the [setGeneration] calls made on
    the fresh container, in order, each with the two counts cast to
    [size_t]. *)
Definition table_generations_from_thrift
           (gens : list TTableGeneration) : list (Z * TableGeneration) :=
  map (fun g =>
         (tg_table_id g,
          mkTableGeneration (static_cast_size_t (tg_tuple_count g))
                            (static_cast_size_t (tg_start_rowid g))))
      gens.

End Thrift.

(** ** Further vocabulary *)

Module Checks.

(** The reader that undoes [Text.quoted_path]: the text between the
    opening double quote and the first double quote that is not
    escaped, with the escaping ampersands dropped, and the characters
    after it.  [None] when the text does not start with a quoted
    path. *)
Fixpoint read_until_quote (s : string) : option (string * string) :=
  match s with
  | EmptyString => None
  | String c s' =>
      if Ascii.eqb c Text.DQUOTE then Some (EmptyString, s')
      else if Ascii.eqb c "&"%char then
        match s' with
        | EmptyString => None
        | String d s'' =>
            match read_until_quote s'' with
            | Some (w, r) => Some (String d w, r)
            | None => None
            end
        end
      else
        match read_until_quote s' with
        | Some (w, r) => Some (String c w, r)
        | None => None
        end
  end.

Definition read_quoted (s : string) : option (string * string) :=
  match s with
  | EmptyString => None
  | String c s' =>
      if Ascii.eqb c Text.DQUOTE then read_until_quote s' else None
  end.

(** What [main] comes to once the threads are started: the joins when
    the warm-up returns. *)
Definition after_warmup (r : Warmup.outcome unit) : Startup.main_result :=
  match r with
  | Warmup.Normal _ => Startup.Joining
  | Warmup.Raised => Startup.Terminate
  end.

Import Obs.

(** The shape of a header line: words, which are not empty and hold no
    white space; gaps, which are not empty and hold white space only;
    and the text after the last word, which is empty or starts with
    white space. *)
Fixpoint no_space (w : string) : bool :=
  match w with
  | EmptyString => true
  | String c w' => negb (Text.isspace c) && no_space w'
  end.

Fixpoint all_space (w : string) : bool :=
  match w with
  | EmptyString => true
  | String c w' => Text.isspace c && all_space w'
  end.

Definition is_word (w : string) : bool :=
  negb (String.eqb w EmptyString) && no_space w.

Definition is_gap (g : string) : bool :=
  negb (String.eqb g EmptyString) && all_space g.

Definition is_trailer (x : string) : bool :=
  match x with
  | EmptyString => true
  | String c _ => Text.isspace c
  end.

(** A handler call that ended by an exception. *)
Definition is_throw (e : event) : bool :=
  match e with
  | EvConnect _ _ _ _ Throws _ | EvSqlExecute _ _ Throws
  | EvDisconnectThrew _ => true
  | _ => false
  end.

(** After a call that threw, no connect and no statement follows. *)
Fixpoint quiet_after_throw (t : list event) : bool :=
  match t with
  | [] => true
  | e :: t' =>
      if is_throw e
      then forallb (fun x => negb (is_connect x || is_sql_execute x)) t'
      else quiet_after_throw t'
  end.

(** How the last connect of a trace ended, if there was one. *)
Fixpoint last_connect_status (t : list event) : option status :=
  match t with
  | [] => None
  | e :: t' =>
      match last_connect_status t' with
      | Some st => Some st
      | None =>
          match e with
          | EvConnect _ _ _ _ st _ => Some st
          | _ => None
          end
      end
  end.

(** The value of [super_user_rights_] after a trace, from its value
    before: unchanged without a connect, cleared by a last connect that
    returned, left set by a last connect that threw. *)
Definition flag_after (before : bool) (t : list event) : bool :=
  match last_connect_status t with
  | None => before
  | Some Returns => false
  | Some Throws => true
  end.

(** A connect made with elevated rights and an empty password; true of
    every event that is no connect. *)
Definition elevated_without_password (e : event) : bool :=
  match e with
  | EvConnect su _ passwd _ _ _ => su && String.eqb passwd EmptyString
  | _ => true
  end.

(** Every statement runs on the session the last connect delivered, that
    connect returned, and no disconnect came in between.  [cur] is that
    session, if any. *)
Fixpoint in_session (cur : option TSessionId) (t : list event) : bool :=
  match t with
  | [] => true
  | EvConnect _ _ _ _ Returns sid :: t' => in_session (Some sid) t'
  | EvConnect _ _ _ _ Throws _ :: t' => in_session None t'
  | EvDisconnect _ :: t' => in_session None t'
  | EvSqlExecute sid _ _ :: t' =>
      match cur with
      | Some s => String.eqb s sid && in_session cur t'
      | None => false
      end
  | _ :: t' => in_session cur t'
  end.

(** A system call on the lock file. *)
Definition is_lock_syscall (e : event) : bool :=
  match e with
  | EvSysOpen _ _ _ | EvSysLockf _ _ _ | EvSysFtruncate _ _
  | EvSysWrite _ _ | EvSysClose _ => true
  | _ => false
  end.

Definition is_sys_close (e : event) : bool :=
  match e with EvSysClose _ => true | _ => false end.

(** A line holds no line feed. *)
Fixpoint no_line_feed (l : string) : bool :=
  match l with
  | EmptyString => true
  | String c l' => negb (Ascii.eqb c Text.LF) && no_line_feed l'
  end.

(** The text of a file written line by line, each line followed by a
    line feed. *)
Fixpoint unlines (ls : list string) : string :=
  match ls with
  | [] => EmptyString
  | l :: ls' => (l ++ String Text.LF (unlines ls'))%string
  end.

(** The number of endpoint threads that have finished. *)
Definition finished_threads (p : Endpoints.process) : nat :=
  (match Endpoints.bufThread p with
   | Endpoints.Finished => 1 | Endpoints.Running => 0 end)
  + (match Endpoints.httpThread p with
     | Endpoints.Finished => 1 | Endpoints.Running => 0 end).

(** The actions that bring a live process to the end of [main]: the
    serve loops still running return, the warm-up ends, the joins
    return. *)
Definition shutdown_schedule (p : Endpoints.process)
  : list Endpoints.action :=
  (match Endpoints.bufThread p with
   | Endpoints.Running =>
       [Endpoints.ServeEnds BufEndpoint Endpoints.ServeReturns]
   | Endpoints.Finished => []
   end)
  ++ (match Endpoints.httpThread p with
      | Endpoints.Running =>
          [Endpoints.ServeEnds HttpEndpoint Endpoints.ServeReturns]
      | Endpoints.Finished => []
      end)
  ++ (match Endpoints.pc p with
      | Endpoints.InWarmup =>
          [Endpoints.WarmupDone; Endpoints.JoinReturns;
           Endpoints.JoinReturns]
      | Endpoints.JoinBuf => [Endpoints.JoinReturns; Endpoints.JoinReturns]
      | Endpoints.JoinHttp => [Endpoints.JoinReturns]
      | Endpoints.Returned => []
      end).

(** The exit codes [main] returns. *)
Definition is_exit_code (r : Startup.main_result) : bool :=
  match r with
  | Startup.Exit c =>
      (c =? 0)%Z || (c =? 1)%Z || (c =? 5)%Z || (c =? 6)%Z || (c =? 7)%Z
  | _ => false
  end.

End Checks.

(** ** More options to start with *)

Module MoreFixtures.

Import Fixture.

(** A high-availability group without a unique server id. *)
Definition ha_options : Startup.Options :=
  Startup.mkOptions None false false false false false
                    "data" "cluster.conf" script_path EmptyString true
                    "group" EmptyString "brokers" "shared"
                    1024 1024 1024.

(** The version flag together with the string-servers flag. *)
Definition version_options : Startup.Options :=
  Startup.mkOptions None false true false false true
                    "data" "cluster.conf" script_path EmptyString true
                    EmptyString EmptyString EmptyString EmptyString
                    1024 1024 1024.

(** No query list. *)
Definition plain_options : Startup.Options :=
  Startup.mkOptions None false false false false false
                    "data" "cluster.conf" EmptyString EmptyString true
                    EmptyString EmptyString EmptyString EmptyString
                    1024 1024 1024.

Definition plain_env : Startup.Env nat := env EmptyString None.

End MoreFixtures.

(** * Properties *)

Unset Implicit Arguments.

(** ** Text *)

Module TextFacts.

Import Text.

Example file_lines_ex :
  file_lines
    ("a" ++ String LF (String LF ("b" ++ String LF EmptyString)))%string
  = ["a"; EmptyString; "b"].
Proof. reflexivity. Qed.

Example extract3_ex :
  extract3 "k" "u" "d" "USER  a db extra" = ("USER", "a", "db").
Proof. reflexivity. Qed.

(** A line of blanks extracts nothing: the three targets keep the words
    of the header before. *)
Example extract3_stale :
  extract3 "USER" "a" "db" "   " = ("USER", "a", "db").
Proof. reflexivity. Qed.

Example to_string_ex : to_string 4711 = "4711".
Proof. reflexivity. Qed.

Example to_string_zero : to_string 0 = "0".
Proof. reflexivity. Qed.

Example trim_if_ex :
  trim_if quote_chars (String DQUOTE ("da'ta" ++ String SQUOTE EmptyString))
  = "da'ta".
Proof. reflexivity. Qed.

Example quoted_path_ex :
  quoted_path "a&b" = String DQUOTE ("a&&b" ++ String DQUOTE EmptyString).
Proof. reflexivity. Qed.

Example path_append_ex :
  path_append "data/" "mapd_log" = "data/mapd_log" /\
  path_append "data" "mapd_log" = "data/mapd_log".
Proof. split; reflexivity. Qed.

(** [file_lines] is the iteration of [getline]. *)
Lemma file_lines_getline (s : string) :
  match getline s with
  | None => file_lines s = []
  | Some (l, r) => file_lines s = l :: file_lines r
  end.
Proof.
  destruct s as [|c s]; [reflexivity|].
  unfold getline. revert c.
  induction s as [|d s IH]; intros c.
  - simpl. destruct (Ascii.eqb c LF); reflexivity.
  - specialize (IH d).
    cbn [getline_from file_lines] in *.
    destruct (Ascii.eqb c LF); [reflexivity|].
    destruct (Ascii.eqb d LF).
    + reflexivity.
    + destruct (getline_from s) as [l r]. rewrite IH. reflexivity.
Qed.

Lemma skipws_app (s x : string) c s' :
  skipws s = String c s' -> skipws (s ++ x)%string = String c (s' ++ x)%string.
Proof.
  induction s as [|a s IH]; simpl; [discriminate|].
  destruct (isspace a); [exact IH|].
  intros H; inversion H; reflexivity.
Qed.

Lemma read_word_app (s extra : string) (w : ascii) :
  isspace w = true ->
  read_word (s ++ String w extra)%string =
  (fst (read_word s), (snd (read_word s) ++ String w extra)%string).
Proof.
  intros Hw. induction s as [|a s IH]; simpl.
  - rewrite Hw. reflexivity.
  - destruct (isspace a); [reflexivity|].
    rewrite IH. destruct (read_word s); reflexivity.
Qed.

Lemma extract_app (s extra : string) (w : ascii) t r :
  isspace w = true ->
  extract s = Some (t, r) ->
  extract (s ++ String w extra)%string
  = Some (t, (r ++ String w extra)%string).
Proof.
  intros Hw. unfold extract.
  destruct (skipws s) as [|c s'] eqn:Hs; [discriminate|].
  rewrite (skipws_app _ _ _ _ Hs).
  intros H.
  assert (Hr : read_word (String c s') = (t, r))
    by (injection H as H'; exact H').
  change (String c (s' ++ String w extra)%string)
    with (String c s' ++ String w extra)%string.
  rewrite read_word_app by assumption.
  rewrite Hr. reflexivity.
Qed.

Lemma tokens3_app (line extra : string) (w : ascii) k u d :
  isspace w = true ->
  Obs.tokens3 line = Some (k, u, d) ->
  Obs.tokens3 (line ++ String w extra)%string = Some (k, u, d).
Proof.
  intros Hw. unfold Obs.tokens3.
  destruct (extract line) as [[a r1]|] eqn:H1; [|discriminate].
  destruct (extract r1) as [[b r2]|] eqn:H2; [|discriminate].
  destruct (extract r2) as [[c r3]|] eqn:H3; [|discriminate].
  intros H; inversion H; subst; clear H.
  rewrite (extract_app _ extra _ _ _ Hw H1), (extract_app _ extra _ _ _ Hw H2),
    (extract_app _ extra _ _ _ Hw H3).
  reflexivity.
Qed.

Lemma tokens3_extract3 (line : string) k u d a0 b0 c0 :
  Obs.tokens3 line = Some (k, u, d) ->
  extract3 a0 b0 c0 line = (k, u, d).
Proof.
  unfold Obs.tokens3, extract3.
  destruct (extract line) as [[a r1]|]; [|discriminate].
  destruct (extract r1) as [[b r2]|]; [|discriminate].
  destruct (extract r2) as [[c r3]|]; [|discriminate].
  intros H; inversion H; reflexivity.
Qed.

Lemma skipws_all_space (a x : string) :
  Checks.all_space a = true -> skipws (a ++ x) = skipws x.
Proof.
  induction a as [|c a IH]; cbn [append Checks.all_space skipws];
    [reflexivity|].
  intros H. apply andb_prop in H as [Hc Ha]. rewrite Hc. exact (IH Ha).
Qed.

Lemma read_word_word (w x : string) :
  Checks.no_space w = true -> Checks.is_trailer x = true ->
  read_word (w ++ x) = (w, x).
Proof.
  intros Hw Hx. induction w as [|c w IH].
  - cbn [append]. destruct x as [|d x]; [reflexivity|].
    cbn [Checks.is_trailer] in Hx. cbn [read_word]. rewrite Hx.
    reflexivity.
  - cbn [Checks.no_space] in Hw. apply andb_prop in Hw as [Hc Hw].
    apply negb_true_iff in Hc. cbn [append read_word].
    rewrite Hc, (IH Hw). reflexivity.
Qed.

(** A word after white space is what the extraction delivers. *)
Lemma extract_word (a w x : string) :
  Checks.all_space a = true -> Checks.is_word w = true ->
  Checks.is_trailer x = true ->
  extract (a ++ w ++ x) = Some (w, x).
Proof.
  intros Ha Hw Hx. unfold extract. rewrite (skipws_all_space _ _ Ha).
  unfold Checks.is_word in Hw. apply andb_prop in Hw as [Hne Hw].
  destruct w as [|c w]; [discriminate Hne|].
  pose proof (read_word_word _ _ Hw Hx) as Hr.
  cbn [Checks.no_space] in Hw. apply andb_prop in Hw as [Hc _].
  apply negb_true_iff in Hc.
  cbn [append skipws]. rewrite Hc. cbn [append] in Hr. rewrite Hr.
  reflexivity.
Qed.

Lemma gap_is_trailer (g x : string) :
  Checks.is_gap g = true -> Checks.is_trailer (g ++ x) = true.
Proof.
  unfold Checks.is_gap. intros H. apply andb_prop in H as [Hne Hg].
  destruct g as [|c g]; [discriminate Hne|].
  cbn [Checks.all_space] in Hg. apply andb_prop in Hg as [Hc _].
  exact Hc.
Qed.

Lemma gap_all_space (g : string) :
  Checks.is_gap g = true -> Checks.all_space g = true.
Proof.
  unfold Checks.is_gap. intros H. apply andb_prop in H as [_ Hg].
  exact Hg.
Qed.

Lemma append_empty_r (a : string) : (a ++ EmptyString)%string = a.
Proof. induction a as [|c a IH]; cbn; [reflexivity|]. rewrite IH. reflexivity. Qed.

(** The three words of a line made of three words, and of the same
    line with more text after the third. *)
Lemma tokens3_header (lead k g1 u g2 d extra : string) :
  Checks.all_space lead = true ->
  Checks.is_word k = true -> Checks.is_gap g1 = true ->
  Checks.is_word u = true -> Checks.is_gap g2 = true ->
  Checks.is_word d = true -> Checks.is_trailer extra = true ->
  Obs.tokens3 (lead ++ k ++ g1 ++ u ++ g2 ++ d ++ extra)
  = Some (k, u, d).
Proof.
  intros Hl Hk H1 Hu H2 Hd Hx. unfold Obs.tokens3.
  rewrite (extract_word lead k _ Hl Hk (gap_is_trailer g1 _ H1)).
  rewrite (extract_word g1 u _ (gap_all_space _ H1) Hu
             (gap_is_trailer g2 _ H2)).
  rewrite (extract_word g2 d _ (gap_all_space _ H2) Hd Hx).
  reflexivity.
Qed.

Lemma extract_nonempty (line : string) t r :
  extract line = Some (t, r) -> (String.length line =? 0)%nat = false.
Proof. destruct line; [discriminate|reflexivity]. Qed.

Lemma tokens3_nonempty (line : string) x :
  Obs.tokens3 line = Some x -> (String.length line =? 0)%nat = false.
Proof.
  unfold Obs.tokens3.
  destruct (extract line) as [[a r1]|] eqn:H; [|discriminate].
  intros _. exact (extract_nonempty _ _ _ H).
Qed.

End TextFacts.

(** ** Warm-up replay *)

Module WarmupFacts.

Import Warmup Obs BlockReplay.

Section WithEngine.

Context {E : Type} {Eng : Engine E}.

Local Notation WState := (@WState E).
Local Notation invalid := (@getInvalidSessionId E Eng).

(** *** One iteration of each loop *)

Lemma header_loop_unfold p lines :
  header_loop p lines =
  match lines with
  | [] => ret tt
  | db_info :: rest =>
      if (String.length db_info =? 0)%nat then header_loop p rest
      else
        bind (parse_header db_info) (fun _ s =>
          (if Text.compare_prefix_eq "USER" (user_keyword s) then
             bind (set_super_user_rights true) (fun _ =>
             bind call_connect (fun _ =>
             bind (set_super_user_rights false) (fun _ =>
             query_loop p rest)))
           else
             bind (emit (EvLog WARNING (syntax_warning p db_info)))
                  (fun _ => header_loop p rest)) s)
  end.
Proof. destruct lines; reflexivity. Qed.

Lemma query_loop_unfold p lines :
  query_loop p lines =
  match lines with
  | [] => end_block
  | single_query :: rest =>
      if (String.length single_query =? 0)%nat then query_loop p rest
      else if String.eqb single_query "}" then
        bind end_block (fun _ => header_loop p rest)
      else
        bind (call_sql_execute single_query)
             (fun _ => query_loop p rest)
  end.
Proof. destruct lines; reflexivity. Qed.

Lemma header_loop_nil p (s : WState) :
  header_loop p [] s = (Normal tt, s, []).
Proof. reflexivity. Qed.

Lemma header_loop_blank p l rest (s : WState) :
  (String.length l =? 0)%nat = true ->
  header_loop p (l :: rest) s = header_loop p rest s.
Proof. intros H. rewrite header_loop_unfold, H. reflexivity. Qed.

Lemma header_loop_bad p l rest (s : WState) :
  (String.length l =? 0)%nat = false ->
  Text.compare_prefix_eq "USER" (user_keyword (with_tokens l s)) = false ->
  header_loop p (l :: rest) s =
  let '(r, s', t) := header_loop p rest (with_tokens l s) in
  (r, s', EvLog WARNING (syntax_warning p l) :: t).
Proof.
  intros H1 H2. rewrite header_loop_unfold, H1.
  unfold bind at 1. unfold parse_header, modify.
  rewrite H2. unfold bind, emit.
  destruct (header_loop p rest (with_tokens l s)) as [[r s'] t].
  reflexivity.
Qed.

Lemma header_loop_user p l rest (s : WState) :
  (String.length l =? 0)%nat = false ->
  Text.compare_prefix_eq "USER" (user_keyword (with_tokens l s)) = true ->
  header_loop p (l :: rest) s =
  match call_connect (with_super_user_rights true (with_tokens l s)) with
  | (Normal _, s2, t1) =>
      let '(r, s', t) :=
        query_loop p rest (with_super_user_rights false s2) in
      (r, s', t1 ++ t)
  | (Raised, s2, t1) => (Raised, s2, t1)
  end.
Proof.
  intros H1 H2. rewrite header_loop_unfold, H1.
  unfold bind at 1. unfold parse_header, modify.
  rewrite H2. unfold bind, set_super_user_rights, modify.
  destruct (call_connect (with_super_user_rights true (with_tokens l s)))
    as [[[[]|] s2] t1]; [|reflexivity].
  destruct (query_loop p rest (with_super_user_rights false s2))
    as [[r s'] t].
  reflexivity.
Qed.

Lemma end_block_eq (s : WState) :
  end_block s =
  match disconnect_status s with
  | Returns => (Normal tt, block_ended s, [EvDisconnect (sessionId s)])
  | Throws => (Raised, disconnected s, [EvDisconnectThrew (sessionId s)])
  end.
Proof.
  unfold end_block, bind, call_disconnect, modify.
  destruct (disconnect_status s); reflexivity.
Qed.

Lemma query_loop_nil p (s : WState) :
  query_loop p [] s =
  match disconnect_status s with
  | Returns => (Normal tt, block_ended s, [EvDisconnect (sessionId s)])
  | Throws => (Raised, disconnected s, [EvDisconnectThrew (sessionId s)])
  end.
Proof. rewrite query_loop_unfold. apply end_block_eq. Qed.

Lemma disconnect_status_returns (s : WState) :
  disconnect_returns E -> disconnect_status s = Returns.
Proof. intros Hd. apply Hd. Qed.

Lemma query_loop_blank p q rest (s : WState) :
  (String.length q =? 0)%nat = true ->
  query_loop p (q :: rest) s = query_loop p rest s.
Proof. intros H. rewrite query_loop_unfold, H. reflexivity. Qed.

Lemma query_loop_brace p q rest (s : WState) :
  (String.length q =? 0)%nat = false ->
  String.eqb q "}" = true ->
  query_loop p (q :: rest) s =
  match disconnect_status s with
  | Returns =>
      let '(r, s', t) := header_loop p rest (block_ended s) in
      (r, s', EvDisconnect (sessionId s) :: t)
  | Throws => (Raised, disconnected s, [EvDisconnectThrew (sessionId s)])
  end.
Proof.
  intros H1 H2. rewrite query_loop_unfold, H1, H2.
  unfold bind. rewrite end_block_eq.
  destruct (disconnect_status s); [|reflexivity].
  destruct (header_loop p rest (block_ended s)) as [[r s'] t].
  reflexivity.
Qed.

Lemma query_loop_statement p q rest (s : WState) :
  (String.length q =? 0)%nat = false ->
  String.eqb q "}" = false ->
  query_loop p (q :: rest) s =
  match call_sql_execute q s with
  | (Normal _, s1, t1) =>
      let '(r, s', t) := query_loop p rest s1 in (r, s', t1 ++ t)
  | (Raised, s1, t1) => (Raised, s1, t1)
  end.
Proof.
  intros H1 H2. rewrite query_loop_unfold, H1, H2. reflexivity.
Qed.

(** The two handler calls that may throw leave one event each. *)
Lemma call_connect_spec (s : WState) :
  exists st sid e,
    connect (engine (handler s)) (super_user_rights_ (handler s))
            (sessionId s) (user_name s) EmptyString (db_name s)
    = (st, sid, e) /\
    call_connect s =
    (match st with Returns => Normal tt | Throws => Raised end,
     set_sessionId sid (set_engine e s),
     [EvConnect (super_user_rights_ (handler s)) (user_name s)
                EmptyString (db_name s) st sid]).
Proof.
  unfold call_connect.
  destruct (connect _ _ _ _ _ _) as [[st sid] e].
  exists st, sid, e. split; [reflexivity|]. destruct st; reflexivity.
Qed.

Lemma call_sql_execute_spec q (s : WState) :
  exists st e,
    call_sql_execute q s =
    (match st with Returns => Normal tt | Throws => Raised end,
     set_engine e s,
     [EvSqlExecute (sessionId s) q st]).
Proof.
  unfold call_sql_execute.
  destruct (sql_execute _ _ _ _ _ _) as [st e].
  exists st, e. destruct st; reflexivity.
Qed.

(** *** Locals and session variable *)

Lemma with_tokens_sessionId l (s : WState) :
  sessionId (with_tokens l s) = sessionId s.
Proof.
  unfold with_tokens.
  destruct (Text.extract3 _ _ _ _) as [[k u] d]. reflexivity.
Qed.

Lemma with_tokens_handler l (s : WState) :
  handler (with_tokens l s) = handler s.
Proof.
  unfold with_tokens.
  destruct (Text.extract3 _ _ _ _) as [[k u] d]. reflexivity.
Qed.

(** *** Session book-keeping *)

Lemma track_app inv t1 : forall live t2,
  track inv live (t1 ++ t2) =
  match track inv live t1 with
  | Some live' => track inv live' t2
  | None => None
  end.
Proof.
  induction t1 as [|e t1 IH]; intros live t2; [reflexivity|].
  destruct e; cbn [app track]; try apply IH.
  - destruct live; [reflexivity|apply IH].
  - destruct live as [s0|].
    + destruct (String.eqb s0 session); [apply IH|reflexivity].
    + destruct (String.eqb session inv); [apply IH|reflexivity].
Qed.

Lemma live_session_invalid : live_session invalid invalid = None.
Proof. unfold live_session. rewrite String.eqb_refl. reflexivity. Qed.

Lemma track_disconnect sid :
  track invalid (live_session invalid sid) [EvDisconnect sid] = Some None.
Proof.
  unfold live_session. destruct (String.eqb sid invalid) eqn:H; cbn.
  - rewrite H. reflexivity.
  - rewrite String.eqb_refl. reflexivity.
Qed.

(** Along both loops the session variable and the trace agree on
    which session is active, and a loop that ends normally leaves the
    sentinel in the variable. *)
Lemma loops_track p lines :
  (forall s : WState,
      sessionId s = invalid ->
      let '(r, s', t) := header_loop p lines s in
      track invalid None t = Some (live_session invalid (sessionId s'))
      /\ (r = Normal tt -> sessionId s' = invalid))
  /\
  (forall s : WState,
      let '(r, s', t) := query_loop p lines s in
      track invalid (live_session invalid (sessionId s)) t
      = Some (live_session invalid (sessionId s'))
      /\ (r = Normal tt -> sessionId s' = invalid)).
Proof.
  induction lines as [|l rest [IHh IHq]]; split; intros s.
  - intros Hs. rewrite header_loop_nil. cbn.
    rewrite Hs, live_session_invalid. auto.
  - rewrite query_loop_nil. destruct (disconnect_status s).
    + rewrite track_disconnect.
      cbn. rewrite live_session_invalid. auto.
    + cbn. split; [reflexivity|discriminate].
  - intros Hs.
    destruct (String.length l =? 0)%nat eqn:Hl.
    { rewrite header_loop_blank by assumption. apply IHh, Hs. }
    destruct (Text.compare_prefix_eq "USER"
                (user_keyword (with_tokens l s))) eqn:Hk.
    + rewrite header_loop_user by assumption.
      destruct (call_connect_spec
                  (with_super_user_rights true (with_tokens l s)))
        as (st & sid & e & _ & Hc).
      rewrite Hc. cbn [sessionId with_super_user_rights].
      destruct st.
      * specialize (IHq (with_super_user_rights false
                           (set_sessionId sid
                              (set_engine e
                                 (with_super_user_rights true
                                    (with_tokens l s)))))).
        destruct (query_loop p rest _) as [[r s'] t].
        cbn [app track]. exact IHq.
      * cbn. split; [reflexivity|discriminate].
    + rewrite header_loop_bad by assumption.
      specialize (IHh (with_tokens l s)).
      rewrite with_tokens_sessionId in IHh. specialize (IHh Hs).
      destruct (header_loop p rest _) as [[r s'] t].
      cbn [track]. exact IHh.
  - destruct (String.length l =? 0)%nat eqn:Hl.
    { rewrite query_loop_blank by assumption. apply IHq. }
    destruct (String.eqb l "}") eqn:Hb.
    + rewrite query_loop_brace by assumption.
      destruct (disconnect_status s);
        [|cbn; split; [reflexivity|discriminate]].
      specialize (IHh (block_ended s) eq_refl).
      destruct (header_loop p rest _) as [[r s'] t].
      change (EvDisconnect (sessionId s) :: t)
        with ([EvDisconnect (sessionId s)] ++ t).
      rewrite track_app, track_disconnect. exact IHh.
    + rewrite query_loop_statement by assumption.
      destruct (call_sql_execute_spec l s) as (st & e & Hc).
      rewrite Hc. destruct st.
      * specialize (IHq (set_engine e s)).
        destruct (query_loop p rest _) as [[r s'] t].
        cbn [app track]. exact IHq.
      * cbn. split; [reflexivity|discriminate].
Qed.

(** Both loops emit handler calls and syntax warnings only. *)
Lemma loops_events p lines :
  (forall s : WState,
      Forall (fun e => is_handler_call e = true \/ is_warning e = true)
             (snd (header_loop p lines s)))
  /\
  (forall s : WState,
      Forall (fun e => is_handler_call e = true \/ is_warning e = true)
             (snd (query_loop p lines s))).
Proof.
  induction lines as [|l rest [IHh IHq]]; split; intros s.
  - constructor.
  - rewrite query_loop_nil.
    destruct (disconnect_status s); repeat constructor.
  - destruct (String.length l =? 0)%nat eqn:Hl.
    { rewrite header_loop_blank by assumption. apply IHh. }
    destruct (Text.compare_prefix_eq "USER"
                (user_keyword (with_tokens l s))) eqn:Hk.
    + rewrite header_loop_user by assumption.
      destruct (call_connect_spec
                  (with_super_user_rights true (with_tokens l s)))
        as (st & sid & e & _ & Hc).
      rewrite Hc.
      destruct st.
      * match goal with
        | |- context [query_loop p rest ?x] =>
            specialize (IHq x); destruct (query_loop p rest x)
              as [[r s'] t]
        end.
        cbn in *. constructor; [left; reflexivity|exact IHq].
      * repeat constructor.
    + rewrite header_loop_bad by assumption.
      specialize (IHh (with_tokens l s)).
      destruct (header_loop p rest _) as [[r s'] t].
      cbn in *. constructor; [right; reflexivity|exact IHh].
  - destruct (String.length l =? 0)%nat eqn:Hl.
    { rewrite query_loop_blank by assumption. apply IHq. }
    destruct (String.eqb l "}") eqn:Hb.
    + rewrite query_loop_brace by assumption.
      destruct (disconnect_status s); [|repeat constructor].
      specialize (IHh (block_ended s)).
      destruct (header_loop p rest _) as [[r s'] t].
      cbn in *. constructor; [left; reflexivity|exact IHh].
    + rewrite query_loop_statement by assumption.
      destruct (call_sql_execute_spec l s) as (st & e & Hc).
      rewrite Hc. destruct st.
      * specialize (IHq (set_engine e s)).
        destruct (query_loop p rest _) as [[r s'] t].
        cbn in *. constructor; [left; reflexivity|exact IHq].
      * repeat constructor.
Qed.

(** *** The replay routine as a whole *)

Lemma releaseWarmupSession_eq (s : WState) :
  releaseWarmupSession s =
  if String.eqb (sessionId s) invalid then (Normal tt, s, [EvFileClose])
  else
    match disconnect_status s with
    | Returns =>
        (Normal tt, disconnected s, [EvFileClose; EvDisconnect (sessionId s)])
    | Throws =>
        (Raised, disconnected s,
         [EvFileClose; EvDisconnectThrew (sessionId s)])
    end.
Proof.
  unfold releaseWarmupSession, bind, emit, call_disconnect, ret.
  destruct (String.eqb (sessionId s) invalid); cbn; [reflexivity|].
  destruct (disconnect_status s); reflexivity.
Qed.

Lemma releaseWarmupSession_returns (s : WState) :
  disconnect_returns E ->
  releaseWarmupSession s =
  (Normal tt,
   if String.eqb (sessionId s) invalid then s else disconnected s,
   cleanup invalid (sessionId s)).
Proof.
  intros Hd. rewrite releaseWarmupSession_eq. unfold cleanup.
  rewrite (disconnect_status_returns _ Hd).
  destruct (String.eqb (sessionId s) invalid); reflexivity.
Qed.

(** The guard closes the file once, whatever its disconnect does. *)
Lemma releaseWarmupSession_closes_once (s : WState) :
  count is_file_close (snd (releaseWarmupSession s)) = 1.
Proof.
  rewrite releaseWarmupSession_eq.
  destruct (String.eqb (sessionId s) invalid); [reflexivity|].
  destruct (disconnect_status s); reflexivity.
Qed.

Lemma run_warmup_queries_eq fs (h : MapDHandler E) base_path p :
  (String.length p =? 0)%nat = false ->
  run_warmup_queries fs h base_path p =
  let '(rb, sb, tb) := warmup_body fs p (initial_state h) in
  let '(g, sg, tg) := releaseWarmupSession sb in
  match g with
  | Normal _ =>
      (Normal tt, handler sg,
       EvLog INFO ("Running DB warmup with queries from " ++ p)
       :: tb ++ tg
       ++ match rb with
          | Normal _ => []
          | Raised => [EvLog WARNING incomplete_warning]
          end)
  | Raised =>
      (Raised, handler sg,
       EvLog INFO ("Running DB warmup with queries from " ++ p)
       :: tb ++ tg)
  end.
Proof.
  intros Hp. unfold run_warmup_queries. rewrite Hp.
  unfold try_catch_all, ScopeGuard.
  destruct (warmup_body fs p (initial_state h)) as [[rb sb] tb].
  destruct (releaseWarmupSession sb) as [[g sg] tg].
  destruct g as [[]|]; [|reflexivity].
  destruct rb as [[]|]; cbn.
  - rewrite app_nil_r. reflexivity.
  - rewrite <- app_assoc. reflexivity.
Qed.

(** When no disconnect throws the routine always returns. *)
Lemma run_warmup_queries_returns fs (h : MapDHandler E) base_path p :
  disconnect_returns E ->
  (String.length p =? 0)%nat = false ->
  run_warmup_queries fs h base_path p =
  let '(rb, sb, tb) := warmup_body fs p (initial_state h) in
  (Normal tt,
   handler (if String.eqb (sessionId sb) invalid then sb
            else disconnected sb),
   EvLog INFO ("Running DB warmup with queries from " ++ p)
   :: tb ++ cleanup invalid (sessionId sb)
   ++ match rb with
      | Normal _ => []
      | Raised => [EvLog WARNING incomplete_warning]
      end).
Proof.
  intros Hd Hp. rewrite (run_warmup_queries_eq fs h base_path _ Hp).
  destruct (warmup_body fs p (initial_state h)) as [[rb sb] tb].
  rewrite (releaseWarmupSession_returns _ Hd). reflexivity.
Qed.

(** A loop that ends normally leaves the sentinel in the session
    variable, whatever the handler does. *)
Lemma loops_normal_invalid p lines :
  (forall s : WState,
      sessionId s = invalid ->
      let '(r, s', t) := header_loop p lines s in
      r = Normal tt -> sessionId s' = invalid)
  /\
  (forall s : WState,
      let '(r, s', t) := query_loop p lines s in
      r = Normal tt -> sessionId s' = invalid).
Proof.
  induction lines as [|l rest [IHh IHq]]; split; intros s.
  - intros Hs. rewrite header_loop_nil. auto.
  - rewrite query_loop_nil.
    destruct (disconnect_status s); [reflexivity|discriminate].
  - intros Hs.
    destruct (String.length l =? 0)%nat eqn:Hl.
    { rewrite header_loop_blank by assumption. apply IHh, Hs. }
    destruct (Text.compare_prefix_eq "USER"
                (user_keyword (with_tokens l s))) eqn:Hk.
    + rewrite header_loop_user by assumption.
      destruct (call_connect_spec
                  (with_super_user_rights true (with_tokens l s)))
        as (st & sid & e & _ & Hc).
      rewrite Hc. destruct st; [|discriminate].
      match goal with
      | |- context [query_loop p rest ?x] =>
          specialize (IHq x); destruct (query_loop p rest x)
            as [[r s'] t]
      end.
      exact IHq.
    + rewrite header_loop_bad by assumption.
      specialize (IHh (with_tokens l s)).
      rewrite with_tokens_sessionId in IHh. specialize (IHh Hs).
      destruct (header_loop p rest _) as [[r s'] t]. exact IHh.
  - destruct (String.length l =? 0)%nat eqn:Hl.
    { rewrite query_loop_blank by assumption. apply IHq. }
    destruct (String.eqb l "}") eqn:Hb.
    + rewrite query_loop_brace by assumption.
      destruct (disconnect_status s); [|discriminate].
      specialize (IHh (block_ended s) eq_refl).
      destruct (header_loop p rest _) as [[r s'] t]. exact IHh.
    + rewrite query_loop_statement by assumption.
      destruct (call_sql_execute_spec l s) as (st & e & Hc).
      rewrite Hc. destruct st; [|discriminate].
      specialize (IHq (set_engine e s)).
      destruct (query_loop p rest _) as [[r s'] t]. exact IHq.
Qed.

Lemma warmup_body_eq fs p (s : WState) :
  warmup_body fs p s =
  let '(r, s', t) := header_loop p (stream_lines fs p) s in
  (r, s', EvFileOpen p :: t).
Proof.
  unfold warmup_body, bind, emit.
  destruct (header_loop p (stream_lines fs p) s) as [[r s'] t].
  reflexivity.
Qed.

Lemma count_app f (t1 t2 : list event) :
  count f (t1 ++ t2) = count f t1 + count f t2.
Proof. unfold count. rewrite filter_app, length_app. reflexivity. Qed.

Lemma count_none f (t : list event) :
  Forall (fun e => f e = false) t -> count f t = 0.
Proof.
  unfold count. induction 1 as [|e t He _ IH]; cbn; [reflexivity|].
  rewrite He. exact IH.
Qed.

Lemma loop_events_not f :
  (forall e, is_handler_call e = true \/ is_warning e = true ->
             f e = false) ->
  forall p lines (s : WState),
    count f (snd (header_loop p lines s)) = 0.
Proof.
  intros Hf p lines s. apply count_none.
  eapply Forall_impl; [|apply (proj1 (loops_events p lines))].
  exact Hf.
Qed.

Lemma not_file_close e :
  is_handler_call e = true \/ is_warning e = true ->
  is_file_close e = false.
Proof. destruct e; cbn; intros [H|H]; try discriminate; reflexivity. Qed.

Lemma cleanup_closes_once sid :
  count is_file_close (cleanup invalid sid) = 1.
Proof. unfold cleanup. destruct (String.eqb sid invalid); reflexivity. Qed.

Lemma track_cleanup sid :
  track invalid (live_session invalid sid) (cleanup invalid sid)
  = Some None.
Proof.
  unfold cleanup, live_session.
  destruct (String.eqb sid invalid); cbn; [reflexivity|].
  rewrite String.eqb_refl. reflexivity.
Qed.

Lemma nonempty_length (p : string) :
  p <> EmptyString -> (String.length p =? 0)%nat = false.
Proof. destruct p; [congruence|reflexivity]. Qed.


(** The two ways the routine ends: it returns, after the guard and,
    when the body raised, the warning; or the disconnect of the guard
    throws while the exception of the body unwinds. *)
Lemma run_warmup_queries_cases fs (h : MapDHandler E) base_path p :
  (String.length p =? 0)%nat = false ->
  let '(rb, sb, tb) := warmup_body fs p (initial_state h) in
  let run := run_warmup_queries fs h base_path p in
  (fst (fst run) = Normal tt /\
   exists tg,
     (tg = [EvFileClose] \/
      tg = [EvFileClose; EvDisconnect (sessionId sb)]) /\
     snd run
     = EvLog INFO ("Running DB warmup with queries from " ++ p)
       :: tb ++ tg
       ++ match rb with
          | Normal _ => []
          | Raised => [EvLog WARNING incomplete_warning]
          end)
  \/
  (fst (fst run) = Raised /\ rb = Raised /\
   snd run
   = EvLog INFO ("Running DB warmup with queries from " ++ p)
     :: tb ++ [EvFileClose; EvDisconnectThrew (sessionId sb)]).
Proof.
  intros Hp. rewrite (run_warmup_queries_eq fs h base_path _ Hp).
  rewrite warmup_body_eq.
  pose proof (proj1 (loops_normal_invalid p (stream_lines fs p))
                    (initial_state h) eq_refl) as Hn.
  destruct (header_loop p (stream_lines fs p) (initial_state h))
    as [[rb sb] tb].
  rewrite releaseWarmupSession_eq.
  destruct (String.eqb (sessionId sb) invalid) eqn:Hs.
  - left. split; [reflexivity|]. exists [EvFileClose].
    split; [left; reflexivity|reflexivity].
  - destruct (disconnect_status sb).
    + left. split; [reflexivity|].
      exists [EvFileClose; EvDisconnect (sessionId sb)].
      split; [right; reflexivity|reflexivity].
    + right. split; [reflexivity|]. split; [|reflexivity].
      destruct rb as [[]|]; [|reflexivity].
      rewrite (Hn eq_refl), String.eqb_refl in Hs. discriminate Hs.
Qed.

Lemma track_log inv live sev msg t :
  track inv live (EvLog sev msg :: t) = track inv live t.
Proof. reflexivity. Qed.

(** C1. On every run of the replay on a script path that is not empty
    the script file is closed exactly once, by the guard, after the
    body (the loop ran to the end of the file, possibly skipping
    malformed headers, or a handler call threw).  Whenever the routine
    returns, every session that became active has been disconnected,
    by exactly one disconnect that returned, before the next connect
    and before the end; the routine fails to return only when the
    disconnect of the guard throws, and the session is then left
    active.  When the handler's disconnect does not throw, the routine
    returns, the guard disconnects the session the variable holds
    unless it is the sentinel, and the engine is left as that
    disconnect leaves it.  So does the disconnect at the end of a
    block, which is followed by the reset of the session variable to
    the sentinel. *)
Theorem cleanup_on_every_exit
        fs (h : MapDHandler E) (base_path query_file_path : string) :
  query_file_path <> EmptyString ->
  let '(rb, sb, tb) :=
    warmup_body fs query_file_path (initial_state h) in
  let run := run_warmup_queries fs h base_path query_file_path in
  count is_file_close tb = 0
  /\ count is_file_close (snd run) = 1
  /\ (sessions_balanced invalid (snd run) = true
      <-> fst (fst run) = Normal tt)
  /\ (disconnect_returns E ->
      fst (fst run) = Normal tt
      /\ snd run
         = EvLog INFO ("Running DB warmup with queries from "
                       ++ query_file_path)
           :: tb ++ cleanup invalid (sessionId sb)
           ++ match rb with
              | Normal _ => []
              | Raised => [EvLog WARNING incomplete_warning]
              end
      /\ sessions_balanced invalid (snd run) = true
      /\ engine (snd (fst run))
         = if String.eqb (sessionId sb) invalid then engine (handler sb)
           else snd (disconnect (engine (handler sb)) (sessionId sb)))
  /\ (forall s : WState,
         fst (disconnect (engine (handler s)) (sessionId s)) = Returns ->
         end_block s
         = (Normal tt,
            mkWState (mkHandler
                        (super_user_rights_ (handler s))
                        (snd (disconnect (engine (handler s))
                                         (sessionId s))))
                     (user_keyword s) (user_name s) (db_name s) invalid,
            [EvDisconnect (sessionId s)])).
Proof.
  intros Hp. apply nonempty_length in Hp.
  pose proof (run_warmup_queries_eq fs h base_path _ Hp) as Hrun.
  pose proof (fun Hd => run_warmup_queries_returns
                          fs h base_path query_file_path Hd Hp) as Hret.
  rewrite warmup_body_eq in *.
  pose proof (loop_events_not is_file_close not_file_close
                query_file_path (stream_lines fs query_file_path)
                (initial_state h)) as Hc.
  pose proof (proj1 (loops_track query_file_path
                       (stream_lines fs query_file_path))
                    (initial_state h) eq_refl) as Ht.
  destruct (header_loop query_file_path
              (stream_lines fs query_file_path) (initial_state h))
    as [[rb sb] tb].
  cbn [snd] in *. destruct Ht as [Ht _].
  assert (Hbal : sessions_balanced invalid
                   (snd (run_warmup_queries fs h base_path
                           query_file_path)) = true
                 <-> fst (fst (run_warmup_queries fs h base_path
                                 query_file_path)) = Normal tt).
  { rewrite Hrun, releaseWarmupSession_eq. unfold sessions_balanced.
    destruct (String.eqb (sessionId sb) invalid) eqn:Hs;
      [|destruct (disconnect_status sb)];
      cbn [fst snd app]; rewrite track_log; cbn [track];
      rewrite track_app, Ht; unfold live_session; rewrite Hs;
      cbn [app track]; rewrite ?String.eqb_refl;
      try (destruct rb; cbn [app track]);
      split; intros H; try reflexivity; discriminate H. }
  split; [exact Hc|]. split; [|split; [exact Hbal|split]].
  3:{ intros s Hs. rewrite end_block_eq. unfold disconnect_status.
      rewrite Hs. reflexivity. }
  - rewrite Hrun.
    pose proof (releaseWarmupSession_closes_once sb) as Hg.
    destruct (releaseWarmupSession sb) as [[g sg] tg]. cbn [snd] in Hg.
    destruct g as [[]|]; cbn [snd].
    + change (count is_file_close
                ([EvLog INFO ("Running DB warmup with queries from "
                              ++ query_file_path);
                  EvFileOpen query_file_path]
                 ++ tb ++ tg
                 ++ match rb with
                    | Normal _ => []
                    | Raised => [EvLog WARNING incomplete_warning]
                    end) = 1).
      rewrite !count_app, Hc, Hg. destruct rb; reflexivity.
    + change (count is_file_close
                ([EvLog INFO ("Running DB warmup with queries from "
                              ++ query_file_path);
                  EvFileOpen query_file_path]
                 ++ tb ++ tg) = 1).
      rewrite !count_app, Hc, Hg. reflexivity.
  - intros Hd.
    assert (Hn : fst (fst (run_warmup_queries fs h base_path
                             query_file_path)) = Normal tt)
      by (rewrite (Hret Hd); reflexivity).
    split; [exact Hn|]. split; [rewrite (Hret Hd); reflexivity|].
    split; [apply Hbal, Hn|].
    rewrite (Hret Hd). cbn [fst snd].
    destruct (String.eqb (sessionId sb) invalid); reflexivity.
Qed.

(** *** Header lines *)

Lemma with_tokens_tokens3 l (s : WState) k u d :
  tokens3 l = Some (k, u, d) ->
  with_tokens l s = mkWState (handler s) k u d (sessionId s).
Proof.
  intros H. unfold with_tokens.
  rewrite (TextFacts.tokens3_extract3 _ _ _ _ _ _ _ H). reflexivity.
Qed.

Lemma with_tokens_keyword l (s : WState) tok r :
  Text.extract l = Some (tok, r) ->
  user_keyword (with_tokens l s) = tok.
Proof.
  intros H. unfold with_tokens, Text.extract3. rewrite H.
  destruct (Text.extract r) as [[b r2]|]; [|reflexivity].
  destruct (Text.extract r2) as [[c r3]|]; reflexivity.
Qed.

(** C10. A header line is white space, a first word (the keyword),
    white space, a second word (the user name), white space, a third
    word (the database name), and possibly more text after white
    space.  Reading it leaves exactly these three words in the three
    locals, with or without the further text.  When the keyword is
    accepted, the call that follows is the connect of that user to that
    database, and the replay from there is the same with and without
    the further text; in every case the outcome, the final state and
    the handler calls are the same, so the same session is opened and
    the same statements are run. *)
Theorem header_extra_text_ignored
        p (lead k g1 u g2 d extra : string) rest (s : WState) :
  Checks.all_space lead = true ->
  Checks.is_word k = true -> Checks.is_gap g1 = true ->
  Checks.is_word u = true -> Checks.is_gap g2 = true ->
  Checks.is_word d = true -> Checks.is_trailer extra = true ->
  let line := (lead ++ k ++ g1 ++ u ++ g2 ++ d)%string in
  let longer := (lead ++ k ++ g1 ++ u ++ g2 ++ d ++ extra)%string in
  with_tokens line s = mkWState (handler s) k u d (sessionId s) /\
  with_tokens longer s = mkWState (handler s) k u d (sessionId s) /\
  (Text.compare_prefix_eq "USER" k = true ->
   (exists st sid,
       hd_error (snd (header_loop p (longer :: rest) s))
       = Some (EvConnect true u EmptyString d st sid)) /\
   header_loop p (longer :: rest) s = header_loop p (line :: rest) s) /\
  (let '(r1, s1, t1) := header_loop p (line :: rest) s in
   let '(r2, s2, t2) := header_loop p (longer :: rest) s in
   r1 = r2 /\ s1 = s2 /\
   filter is_handler_call t1 = filter is_handler_call t2).
Proof.
  intros Hl Hk H1 Hu H2 Hd Hx line longer.
  assert (Ht' : tokens3 longer = Some (k, u, d))
    by (apply TextFacts.tokens3_header; assumption).
  assert (Ht : tokens3 line = Some (k, u, d)).
  { pose proof (TextFacts.tokens3_header lead k g1 u g2 d EmptyString
                  Hl Hk H1 Hu H2 Hd eq_refl) as H.
    rewrite TextFacts.append_empty_r in H. exact H. }
  pose proof (with_tokens_tokens3 _ s _ _ _ Ht) as Hs.
  pose proof (with_tokens_tokens3 _ s _ _ _ Ht') as Hs'.
  pose proof (TextFacts.tokens3_nonempty _ _ Ht) as Hn.
  pose proof (TextFacts.tokens3_nonempty _ _ Ht') as Hn'.
  split; [exact Hs|]. split; [exact Hs'|].
  destruct (Text.compare_prefix_eq "USER" k) eqn:Hacc.
  - rewrite (header_loop_user p line) by (rewrite ?Hs; assumption).
    rewrite (header_loop_user p longer) by (rewrite ?Hs'; assumption).
    rewrite Hs, Hs'.
    match goal with
    | |- context [call_connect ?x] =>
        destruct (call_connect_spec x) as (st & sid & e & _ & Hc)
    end.
    rewrite Hc.
    cbn [handler super_user_rights_ user_name db_name
           with_super_user_rights].
    split.
    + intros _. split; [|reflexivity]. exists st, sid.
      destruct st; [|reflexivity].
      destruct (query_loop p rest _) as [[r s'] t]. reflexivity.
    + destruct st; [|auto].
      destruct (query_loop p rest _) as [[r s'] t]. auto.
  - split; [discriminate|].
    rewrite (header_loop_bad p line) by (rewrite ?Hs; assumption).
    rewrite (header_loop_bad p longer) by (rewrite ?Hs'; assumption).
    rewrite Hs, Hs'.
    destruct (header_loop p rest _) as [[r s'] t].
    repeat split.
Qed.

(** *** Laws of the monad, pointwise *)

Lemma bind_ret_l {A B} (a : A) (k : A -> M B) (s : WState) :
  bind (ret a) k s = k a s.
Proof.
  unfold bind, ret. destruct (k a s) as [[r s2] t2]. reflexivity.
Qed.

Lemma bind_ret_r (m : M unit) (s : WState) :
  bind m (fun _ => ret tt) s = m s.
Proof.
  unfold bind, ret. destruct (m s) as [[[[]|] s1] t1]; [|reflexivity].
  rewrite app_nil_r. reflexivity.
Qed.

Lemma bind_modify {B} f (k : unit -> M B) (s : WState) :
  bind (modify f) k s = k tt (f s).
Proof.
  unfold bind, modify. destruct (k tt (f s)) as [[r s2] t2]. reflexivity.
Qed.

Lemma bind_assoc {A B C} (m : M A) (k : A -> M B) (k' : B -> M C)
      (s : WState) :
  bind (bind m k) k' s = bind m (fun a => bind (k a) k') s.
Proof.
  unfold bind. destruct (m s) as [[[a|] s1] t1]; [|reflexivity].
  destruct (k a s1) as [[[b|] s2] t2]; [|reflexivity].
  destruct (k' b s2) as [[r s3] t3]. rewrite app_assoc. reflexivity.
Qed.

Lemma bind_ext {A B} (m : M A) (k1 k2 : A -> M B) (s : WState) :
  (forall a s', k1 a s' = k2 a s') -> bind m k1 s = bind m k2 s.
Proof.
  intros H. unfold bind. destruct (m s) as [[[a|] s1] t1]; [|reflexivity].
  rewrite H. reflexivity.
Qed.

(** *** The loops on well-formed blocks *)

Lemma statement_ok_inv q :
  statement_ok q = true ->
  (String.length q =? 0)%nat = false /\ String.eqb q "}" = false.
Proof.
  unfold statement_ok. intros H. apply andb_prop in H as [H1 H2].
  apply negb_true_iff in H1, H2. split; [|exact H2].
  destruct q; [discriminate|reflexivity].
Qed.

Lemma query_loop_statements p stmts : forall rest (s : WState),
  forallb statement_ok stmts = true ->
  query_loop p (stmts ++ "}"%string :: rest) s =
  bind (exec_all stmts)
       (fun _ => bind end_block (fun _ => header_loop p rest)) s.
Proof.
  induction stmts as [|q stmts IH]; intros rest s Hok.
  - cbn [app exec_all]. rewrite bind_ret_l, query_loop_unfold.
    reflexivity.
  - cbn [forallb] in Hok. apply andb_prop in Hok as [Hq Hok].
    apply statement_ok_inv in Hq as [Hq1 Hq2].
    cbn [app exec_all]. rewrite query_loop_unfold, Hq1, Hq2.
    rewrite bind_assoc. apply bind_ext. intros _ s'.
    apply IH, Hok.
Qed.

Lemma query_loop_statements_eof p stmts : forall (s : WState),
  forallb statement_ok stmts = true ->
  query_loop p stmts s = bind (exec_all stmts) (fun _ => end_block) s.
Proof.
  induction stmts as [|q stmts IH]; intros s Hok.
  - cbn [exec_all]. rewrite bind_ret_l. reflexivity.
  - cbn [forallb] in Hok. apply andb_prop in Hok as [Hq Hok].
    apply statement_ok_inv in Hq as [Hq1 Hq2].
    cbn [exec_all]. rewrite query_loop_unfold, Hq1, Hq2.
    rewrite bind_assoc. apply bind_ext. intros _ s'.
    apply IH, Hok.
Qed.

Lemma well_formed_inv b :
  well_formed b = true ->
  tokens3 (header b) = Some ("USER"%string, block_user b, block_db b)
  /\ forallb statement_ok (statements b) = true.
Proof.
  unfold well_formed, block_user, block_db. intros H.
  apply andb_prop in H as [H1 H2]. split; [|exact H2].
  destruct (tokens3 (header b)) as [[[k u] d]|]; [|discriminate].
  apply String.eqb_eq in H1. subst. reflexivity.
Qed.

Lemma header_loop_header p hdr lines (s : WState) u d :
  tokens3 hdr = Some ("USER"%string, u, d) ->
  header_loop p (hdr :: lines) s =
  bind (parse_header hdr) (fun _ =>
  bind (set_super_user_rights true) (fun _ =>
  bind call_connect (fun _ =>
  bind (set_super_user_rights false) (fun _ =>
  query_loop p lines)))) s.
Proof.
  intros Ht. rewrite header_loop_unfold.
  rewrite (TextFacts.tokens3_nonempty _ _ Ht).
  unfold parse_header. rewrite !bind_modify.
  rewrite (with_tokens_tokens3 _ _ _ _ _ Ht). reflexivity.
Qed.

Lemma header_loop_block p b rest (s : WState) :
  well_formed b = true ->
  header_loop p (block_lines b ++ rest) s =
  bind (replay_block b) (fun _ => header_loop p rest) s.
Proof.
  intros Hb. apply well_formed_inv in Hb as [Ht Hok].
  unfold block_lines, replay_block.
  cbn [app]. rewrite <- app_assoc. cbn [app].
  rewrite (header_loop_header _ _ _ _ _ _ Ht).
  rewrite !bind_assoc. apply bind_ext. intros _ s1.
  rewrite !bind_assoc. apply bind_ext. intros _ s2.
  rewrite !bind_assoc. apply bind_ext. intros _ s3.
  rewrite !bind_assoc. apply bind_ext. intros _ s4.
  rewrite bind_assoc. apply query_loop_statements, Hok.
Qed.

Lemma header_loop_block_eof p b (s : WState) :
  well_formed b = true ->
  header_loop p (header b :: statements b) s = replay_block b s.
Proof.
  intros Hb. apply well_formed_inv in Hb as [Ht Hok].
  unfold replay_block.
  rewrite (header_loop_header _ _ _ _ _ _ Ht).
  apply bind_ext. intros _ s1.
  apply bind_ext. intros _ s2.
  apply bind_ext. intros _ s3.
  apply bind_ext. intros _ s4.
  apply query_loop_statements_eof, Hok.
Qed.

Lemma header_loop_blocks p bs : forall rest (s : WState),
  forallb well_formed bs = true ->
  header_loop p (script_lines bs ++ rest) s =
  bind (replay_blocks bs) (fun _ => header_loop p rest) s.
Proof.
  induction bs as [|b bs IH]; intros rest s Hwf.
  - unfold script_lines. cbn [flat_map app replay_blocks].
    rewrite bind_ret_l. reflexivity.
  - cbn [forallb] in Hwf. apply andb_prop in Hwf as [Hb Hwf].
    unfold script_lines. cbn [flat_map replay_blocks].
    rewrite <- app_assoc, (header_loop_block _ _ _ _ Hb).
    rewrite bind_assoc. apply bind_ext. intros _ s'.
    apply IH, Hwf.
Qed.

Lemma block_lines_last b :
  block_lines b = (header b :: statements b) ++ ["}"%string].
Proof. reflexivity. Qed.

Lemma script_lines_nonempty b bs : script_lines (b :: bs) <> [].
Proof. discriminate. Qed.

Lemma header_loop_blocks_eof p bs : forall (s : WState),
  forallb well_formed bs = true ->
  header_loop p (removelast (script_lines bs)) s = replay_blocks bs s.
Proof.
  induction bs as [|b bs IH]; intros s Hwf; [reflexivity|].
  cbn [forallb] in Hwf. apply andb_prop in Hwf as [Hb Hwf].
  unfold script_lines. cbn [flat_map replay_blocks].
  fold (script_lines bs).
  destruct bs as [|b' bs'].
  - cbn [script_lines flat_map replay_blocks].
    rewrite app_nil_r, block_lines_last, removelast_last.
    rewrite bind_ret_r. apply header_loop_block_eof, Hb.
  - rewrite removelast_app by apply script_lines_nonempty.
    rewrite (header_loop_block _ _ _ _ Hb).
    apply bind_ext. intros _ s'. apply IH, Hwf.
Qed.

(** *** What the block algorithm leaves in the event list *)

Lemma exec_all_spec stmts : forall s : WState,
  let '(r, s', t) := exec_all stmts s in
  sessionId s' = sessionId s /\
  match r with
  | Normal _ =>
      t = map (fun q => EvSqlExecute (sessionId s) q Returns) stmts
  | Raised =>
      exists j, j < length stmts /\
        t = map (fun q => EvSqlExecute (sessionId s) q Returns)
                (firstn j stmts)
            ++ [EvSqlExecute (sessionId s) (nth j stmts EmptyString)
                             Throws]
  end.
Proof.
  induction stmts as [|q stmts IH]; intros s.
  - cbn. auto.
  - cbn [exec_all]. unfold bind.
    destruct (call_sql_execute_spec q s) as (st & e & Hc).
    rewrite Hc. destruct st.
    + specialize (IH (set_engine e s)).
      destruct (exec_all stmts (set_engine e s)) as [[r s'] t].
      cbn [sessionId set_engine] in IH. destruct IH as [Hs Hr].
      split; [exact Hs|]. destruct r.
      * subst. reflexivity.
      * destruct Hr as (j & Hj & Ht). exists (S j).
        split; [cbn; lia|]. subst. reflexivity.
    + split; [reflexivity|]. exists 0.
      split; [cbn; lia|reflexivity].
Qed.

Lemma replay_block_spec b (s : WState) :
  disconnect_returns E ->
  well_formed b = true ->
  let '(r, s', t) := replay_block b s in
  match r with
  | Normal _ => exists sid, t = cycle b sid
  | Raised =>
      exists failed,
        failed_in_range b failed /\
        t = broken_cycle b (sessionId s') failed
  end.
Proof.
  intros Hd Hb. apply well_formed_inv in Hb as [Ht _].
  unfold replay_block, parse_header, set_super_user_rights.
  rewrite !bind_modify, (with_tokens_tokens3 _ _ _ _ _ Ht).
  unfold bind at 1.
  match goal with
  | |- context [call_connect ?x] =>
      destruct (call_connect_spec x) as (st & sid & e & _ & Hc)
  end.
  rewrite Hc. cbn [handler super_user_rights_ user_name db_name
                     with_super_user_rights].
  destruct st.
  - rewrite bind_modify. unfold bind at 1.
    match goal with
    | |- context [exec_all (statements b) ?x] =>
        pose proof (exec_all_spec (statements b) x) as Hx;
        destruct (exec_all (statements b) x) as [[r s1] t1]
    end.
    cbn [sessionId with_super_user_rights set_sessionId set_engine]
      in Hx.
    destruct Hx as [Hs Hr]. destruct r as [[]|].
    + rewrite end_block_eq, (disconnect_status_returns _ Hd).
      exists sid. subst t1. rewrite Hs. reflexivity.
    + destruct Hr as (j & Hj & Hr). exists (Some j).
      split; [exact Hj|]. subst t1. rewrite Hs. reflexivity.
  - exists None. split; [exact I|reflexivity].
Qed.

Lemma replay_blocks_spec bs : forall s : WState,
  disconnect_returns E ->
  forallb well_formed bs = true ->
  let '(r, s', t) := replay_blocks bs s in
  match r with
  | Normal _ =>
      exists sids, length sids = length bs /\ t = cycles bs sids
  | Raised =>
      exists pre b post sids failed,
        bs = pre ++ b :: post /\ length sids = length pre /\
        failed_in_range b failed /\
        t = cycles pre sids ++ broken_cycle b (sessionId s') failed
  end.
Proof.
  induction bs as [|b bs IH]; intros s Hd Hwf.
  - cbn. exists []. auto.
  - cbn [forallb] in Hwf. apply andb_prop in Hwf as [Hb Hwf].
    cbn [replay_blocks]. unfold bind.
    pose proof (replay_block_spec b s Hd Hb) as Hs.
    destruct (replay_block b s) as [[[[]|] s1] t1].
    + destruct Hs as [sid Hs]. specialize (IH s1 Hd Hwf).
      destruct (replay_blocks bs s1) as [[[[]|] s2] t2].
      * destruct IH as (sids & Hl & IH). exists (sid :: sids).
        split; [cbn; congruence|]. subst. reflexivity.
      * destruct IH as (pre & b' & post & sids & failed
                        & Hbs & Hl & Hf & IH).
        exists (b :: pre), b', post, (sid :: sids), failed.
        repeat split; [subst; reflexivity|cbn; congruence|exact Hf|].
        subst t1 t2. unfold cycles. cbn [combine flat_map fst snd].
        rewrite <- app_assoc. reflexivity.
    + destruct Hs as (failed & Hf & Hs).
      exists [], b, bs, [], failed. repeat split; assumption.
Qed.

Lemma cleanup_invalid : cleanup invalid invalid = [EvFileClose].
Proof. unfold cleanup. rewrite String.eqb_refl. reflexivity. Qed.

Lemma header_loop_script p bs lines (s : WState) :
  forallb well_formed bs = true ->
  lines = script_lines bs \/ lines = removelast (script_lines bs) ->
  header_loop p lines s = replay_blocks bs s.
Proof.
  intros Hwf [->| ->].
  - rewrite <- (app_nil_r (script_lines bs)).
    rewrite header_loop_blocks by assumption.
    apply bind_ret_r.
  - apply header_loop_blocks_eof, Hwf.
Qed.

(** C3, as the code has it, for a handler whose disconnect does not
    throw.  On a script of well-formed blocks, each closed by a brace
    line (the last one possibly by the end of the file): when no
    connect and no statement throws, the replay is the list of the
    complete cycles of all the blocks, in file order, each with its
    statements in file order, and the file is closed after them; when
    a connect or a statement throws, the blocks before it had their
    complete cycles, the block it belongs to is cut short there, the
    guard closes the file and disconnects that block's session (unless
    the variable holds the sentinel), the warning is logged, and no
    later block runs.  In both cases the routine returns. *)
Theorem replay_of_well_formed_blocks
        fs (h : MapDHandler E) (base_path query_file_path : string)
        (blocks : list block) :
  disconnect_returns E ->
  query_file_path <> EmptyString ->
  forallb well_formed blocks = true ->
  stream_lines fs query_file_path = script_lines blocks \/
  stream_lines fs query_file_path = removelast (script_lines blocks) ->
  let '(rb, sb, tb) :=
    warmup_body fs query_file_path (initial_state h) in
  let t := snd (run_warmup_queries fs h base_path query_file_path) in
  fst (fst (run_warmup_queries fs h base_path query_file_path))
  = Normal tt /\
  match rb with
  | Normal _ =>
      exists sids,
        length sids = length blocks /\
        t = EvLog INFO ("Running DB warmup with queries from "
                        ++ query_file_path)
            :: EvFileOpen query_file_path
            :: cycles blocks sids ++ [EvFileClose]
  | Raised =>
      exists pre b post sids failed,
        blocks = pre ++ b :: post /\ length sids = length pre /\
        failed_in_range b failed /\
        t = EvLog INFO ("Running DB warmup with queries from "
                        ++ query_file_path)
            :: EvFileOpen query_file_path
            :: cycles pre sids
            ++ broken_cycle b (sessionId sb) failed
            ++ cleanup invalid (sessionId sb)
            ++ [EvLog WARNING incomplete_warning]
  end.
Proof.
  intros Hd Hp Hwf Hlines. apply nonempty_length in Hp.
  rewrite (run_warmup_queries_returns fs h base_path _ Hd Hp).
  rewrite warmup_body_eq.
  pose proof (proj1 (loops_track query_file_path
                       (stream_lines fs query_file_path))
                    (initial_state h) eq_refl) as Ht.
  rewrite (header_loop_script _ _ _ _ Hwf Hlines) in *.
  pose proof (replay_blocks_spec blocks (initial_state h) Hd Hwf) as Hs.
  destruct (replay_blocks blocks (initial_state h))
    as [[[[]|] sb] tb]; cbn [fst snd sessionId];
    (split; [reflexivity|]).
  - destruct Ht as [_ Ht]. rewrite (Ht eq_refl), cleanup_invalid.
    destruct Hs as (sids & Hl & ->). exists sids.
    split; [exact Hl|]. cbn [app]. reflexivity.
  - destruct Hs as (pre & b & post & sids & failed & Hb & Hl & Hf & ->).
    exists pre, b, post, sids, failed.
    repeat split; try assumption.
    cbn [app]. rewrite <- !app_assoc. reflexivity.
Qed.

(** *** Malformed headers *)



End WithEngine.

End WarmupFacts.

(** ** Warm-up replay on the counting engine *)

Module WarmupRuns.

Import Warmup Obs BlockReplay Fixture.

Example two_blocks_lines :
  Text.file_lines two_blocks_script = script_lines two_blocks.
Proof. reflexivity. Qed.

Example two_blocks_run :
  trace_of two_blocks_script =
  [EvLog INFO "Running DB warmup with queries from warmup.sql";
   EvFileOpen "warmup.sql";
   EvConnect true "a" EmptyString "db" Returns "s1";
   EvSqlExecute "s1" "FAIL 1;" Throws;
   EvFileClose;
   EvDisconnect "s1";
   EvLog WARNING incomplete_warning].
Proof. reflexivity. Qed.

(** C1, counterexample.  The engine refuses every disconnect.  The
    block runs to its closing brace; the disconnect after the inner
    loop throws, so the session variable is not reset, and the guard
    calls disconnect on the same session once more.  The session that
    was active is the object of two calls and is never disconnected. *)
Lemma refused_disconnect_is_repeated :
  replay_forgetful one_block_script =
  (Raised, mkHandler false (Forgetful 1),
   [EvLog INFO "Running DB warmup with queries from warmup.sql";
    EvFileOpen "warmup.sql";
    EvConnect true "a" EmptyString "db" Returns "s1";
    EvSqlExecute "s1" "SELECT 1;" Returns;
    EvDisconnectThrew "s1";
    EvFileClose;
    EvDisconnectThrew "s1"])
  /\ count is_disconnect (snd (replay_forgetful one_block_script)) = 2
  /\ ~ In (EvDisconnect "s1") (snd (replay_forgetful one_block_script))
  /\ sessions_balanced EmptyString
       (snd (replay_forgetful one_block_script)) = false.
Proof.
  repeat split; try reflexivity.
  cbn. intros H.
  repeat (destruct H as [H|H]; [discriminate H|]). exact H.
Qed.

(** C3, counterexample.  The script has two well-formed blocks; the
    statement of the first one fails.  The replay makes one connect and
    one disconnect, not two, and the statement of the second block is
    never run. *)
Lemma failed_statement_stops_replay :
  forallb well_formed two_blocks = true /\
  Text.file_lines two_blocks_script = script_lines two_blocks /\
  length two_blocks = 2 /\
  count is_connect (trace_of two_blocks_script) = 1 /\
  count is_disconnect (trace_of two_blocks_script) = 1 /\
  ~ In (EvSqlExecute "s2" "SELECT 2;" Returns) (trace_of two_blocks_script).
Proof.
  repeat split; try reflexivity.
  rewrite two_blocks_run. cbn. intros H.
  repeat (destruct H as [H|H]; [discriminate H|]). exact H.
Qed.


(** C9, the failing run.  The connect of the unknown user throws between
    the two assignments to [super_user_rights_]; the replay returns
    normally and the handler it leaves behind is still elevated. *)
Theorem elevation_survives_failed_connect :
  replay unknown_user_script =
  (Normal tt, mkHandler true 0,
   [EvLog INFO "Running DB warmup with queries from warmup.sql";
    EvFileOpen "warmup.sql";
    EvConnect true "nobody" EmptyString "db" Throws EmptyString;
    EvFileClose;
    EvLog WARNING incomplete_warning])
  /\ super_user_rights_ handler0 = false
  /\ super_user_rights_ (snd (fst (replay unknown_user_script))) = true.
Proof. repeat split; reflexivity. Qed.

(** A line of blanks in header position is not empty and holds no word:
    the three locals keep the words of the header before, and the line is
    taken as that header once more. *)
Example blank_header_reuses_words :
  trace_of blank_header_script =
  [EvLog INFO "Running DB warmup with queries from warmup.sql";
   EvFileOpen "warmup.sql";
   EvConnect true "a" EmptyString "db" Returns "s1";
   EvSqlExecute "s1" "SELECT 1;" Returns;
   EvDisconnect "s1";
   EvConnect true "a" EmptyString "db" Returns "s2";
   EvSqlExecute "s2" "SELECT 2;" Returns;
   EvDisconnect "s2";
   EvFileClose].
Proof. reflexivity. Qed.

(** The theorems above, applied to runs of the counting engine. *)

Lemma counting_engine_disconnect_returns : disconnect_returns nat.
Proof. intros e sid. reflexivity. Qed.

Lemma cleanup_on_every_exit_witness :
  count is_file_close (trace_of two_blocks_script) = 1 /\
  sessions_balanced EmptyString (trace_of two_blocks_script) = true /\
  engine (snd (fst (replay two_blocks_script))) = 1.
Proof.
  pose proof (WarmupFacts.cleanup_on_every_exit
                (one_file two_blocks_script) handler0 "data" script_path)
    as H.
  cbv beta in H.
  destruct (warmup_body (one_file two_blocks_script) script_path
                        (initial_state handler0)) as [[rb sb] tb] eqn:Hb.
  destruct H as (_ & H1 & _ & H2 & _); [discriminate|].
  destruct (H2 counting_engine_disconnect_returns) as (_ & _ & H3 & H4).
  split; [exact H1|]. split; [exact H3|].
  unfold replay. rewrite H4.
  injection Hb as _ <- _. reflexivity.
Defined.

Lemma replay_of_well_formed_blocks_witness :
  fst (fst (replay good_blocks_script)) = Normal tt /\
  exists sids,
    length sids = 2 /\
    trace_of good_blocks_script =
    EvLog INFO "Running DB warmup with queries from warmup.sql"
    :: EvFileOpen "warmup.sql"
    :: cycles good_blocks sids ++ [EvFileClose].
Proof.
  exact (WarmupFacts.replay_of_well_formed_blocks
           (one_file good_blocks_script) handler0 "data" script_path
           good_blocks
           counting_engine_disconnect_returns
           (fun H => match H with eq_refl => I end)
           eq_refl (or_intror eq_refl)).
Defined.


Lemma header_extra_text_ignored_witness :
  with_tokens "USER a db  and more" (initial_state handler0)
  = mkWState handler0 "USER" "a" "db" EmptyString
  /\ header_loop script_path
       ["USER a db  and more"%string; "SELECT 1;"%string]
       (initial_state handler0)
     = header_loop script_path ["USER a db"%string; "SELECT 1;"%string]
                   (initial_state handler0).
Proof.
  pose proof (WarmupFacts.header_extra_text_ignored
                script_path EmptyString "USER" " " "a" " " "db"
                "  and more" ["SELECT 1;"%string] (initial_state handler0)
                eq_refl eq_refl eq_refl eq_refl eq_refl eq_refl eq_refl)
    as (_ & H1 & H2 & _).
  split; [exact H1|exact (proj2 (H2 eq_refl))].
Defined.

End WarmupRuns.

(** ** Cluster roles *)

Module ClusterFacts.

Import Cluster.

Lemma NodeRole_eqb_eq a b : NodeRole_eqb a b = true <-> a = b.
Proof. destruct a, b; cbn; split; congruence. Qed.

Lemma in_only_db_leaves d l :
  In d (only_db_leaves l) <-> In d l /\ getRole d = DbLeaf.
Proof.
  unfold only_db_leaves, copy_if. rewrite filter_In, NodeRole_eqb_eq.
  reflexivity.
Qed.

Lemma in_only_string_leaves d l :
  In d (only_string_leaves l) <-> In d l /\ getRole d = String_.
Proof.
  unfold only_string_leaves, copy_if. rewrite filter_In, NodeRole_eqb_eq.
  reflexivity.
Qed.

(** C7. With at least one of the two cluster flags present, the cluster
    block succeeds when exactly one is present, and whenever it
    succeeds: no descriptor is in both sequences; a descriptor of the
    configuration with role DbLeaf is in [db_leaves] exactly when the
    cluster flag is set; every descriptor of the configuration with the
    string role is in [string_leaves]; a descriptor with any other role
    is in neither; and both sequences come from the configuration. *)
Theorem cluster_partition
        (cluster string_servers : bool) (all_nodes : list LeafHostInfo) :
  cluster || string_servers = true ->
  (cluster <> string_servers ->
   exists topo, resolve cluster string_servers all_nodes = Some topo) /\
  (forall topo,
      resolve cluster string_servers all_nodes = Some topo ->
      g_cluster topo = true /\
      (forall d, In d (db_leaves topo) -> ~ In d (string_leaves topo)) /\
      (forall d, In d all_nodes -> getRole d = DbLeaf ->
                 (In d (db_leaves topo) <-> cluster = true)) /\
      (forall d, In d all_nodes -> getRole d = String_ ->
                 In d (string_leaves topo)) /\
      (forall d, getRole d <> DbLeaf -> getRole d <> String_ ->
                 ~ In d (db_leaves topo) /\ ~ In d (string_leaves topo)) /\
      incl (db_leaves topo) all_nodes /\
      incl (string_leaves topo) all_nodes).
Proof.
  intros Hflag. unfold resolve. rewrite Hflag. split.
  - intros Hne. destruct cluster, string_servers; cbn;
      try congruence; eexists; reflexivity.
  - intros topo Hres.
    destruct (Bool.eqb cluster string_servers); [discriminate|].
    injection Hres as <-. cbn [db_leaves string_leaves g_cluster].
    assert (Hdb : forall d,
               In d (if cluster then only_db_leaves all_nodes else []) ->
               In d all_nodes /\ getRole d = DbLeaf /\ cluster = true).
    { intros d. destruct cluster; [|intros []].
      rewrite in_only_db_leaves. tauto. }
    split; [reflexivity|].
    split.
    { intros d H1 H2. apply Hdb in H1 as (_ & H1 & _).
      apply in_only_string_leaves in H2 as [_ H2]. congruence. }
    split.
    { intros d Hin Hrole. split.
      - intros H1. apply Hdb in H1. tauto.
      - intros ->. apply in_only_db_leaves. tauto. }
    split.
    { intros d Hin Hrole. apply in_only_string_leaves. tauto. }
    split.
    { intros d Hd Hs. split.
      - intros H1. apply Hdb in H1. tauto.
      - intros H1. apply in_only_string_leaves in H1. tauto. }
    split.
    { intros d H1. apply Hdb in H1. tauto. }
    intros d H1. apply in_only_string_leaves in H1. tauto.
Qed.

Lemma cluster_partition_witness :
  resolve true false [Fixture.leafA; Fixture.leafD; Fixture.leafS]
  = Some (mkTopology [Fixture.leafD] [Fixture.leafS] true) /\
  (In Fixture.leafD [Fixture.leafD] <-> true = true).
Proof.
  pose proof (cluster_partition true false
                [Fixture.leafA; Fixture.leafD; Fixture.leafS] eq_refl)
    as [_ H].
  split; [reflexivity|].
  apply (H (mkTopology [Fixture.leafD] [Fixture.leafS] true) eq_refl).
  - right; left; reflexivity.
  - reflexivity.
Defined.

End ClusterFacts.

(** ** Endpoint threads *)

Module EndpointFacts.

Import Endpoints.

Lemma step_joined_ok a p p' :
  step a p = Some p' -> joined_ok p -> joined_ok p'.
Proof.
  unfold step, joined_ok. destruct (terminated p); [discriminate|].
  destruct a as [e o| |].
  - destruct (thread p e) eqn:He; [|discriminate].
    destruct (start_server o) as [[[]|] t]; intros H; injection H as <-;
      destruct e; cbn in *; intros [H1 H2];
      (split; [intros Hpc|intros Hpc; split]); try reflexivity;
      try (apply H1, Hpc); try (apply H2, Hpc).
  - destruct (pc p) eqn:Hpc; try discriminate.
    intros H; injection H as <-. cbn. split; discriminate.
  - destruct (pc p) eqn:Hpc; try discriminate.
    + destruct (bufThread p) eqn:Hb; [discriminate|].
      intros H; injection H as <-. cbn. intros _.
      split; [intros _; exact Hb|discriminate].
    + destruct (httpThread p) eqn:Hh; [discriminate|].
      intros H; injection H as <-. cbn. intros [H1 _].
      split; [discriminate|]. intros _. split; [apply H1; reflexivity|exact Hh].
Qed.

Lemma run_joined_ok acts : forall p p',
  run acts p = Some p' -> joined_ok p -> joined_ok p'.
Proof.
  induction acts as [|a acts IH]; intros p p'; cbn.
  - intros H; injection H as <-. auto.
  - destruct (step a p) as [p1|] eqn:Hs; [|discriminate].
    intros Hr Hp. eapply IH; [exact Hr|].
    eapply step_joined_ok; eassumption.
Qed.

Lemma run_not_terminated acts : forall p p',
  run acts p = Some p' -> Forall contained acts ->
  terminated p = false -> terminated p' = false.
Proof.
  induction acts as [|a acts IH]; intros p p'; cbn.
  - intros H; injection H as <-. auto.
  - destruct (step a p) as [p1|] eqn:Hs; [|discriminate].
    intros Hr Hall Hp. inversion Hall as [|? ? Ha Hall']; subst.
    apply (IH p1 p' Hr Hall').
    unfold step in Hs. rewrite Hp in Hs.
    destruct a as [e o| |].
    + destruct (thread p e); [|discriminate].
      destruct o; cbn in Hs, Ha; try contradiction;
        injection Hs as <-; destruct e; reflexivity.
    + destruct (pc p); try discriminate. injection Hs as <-. exact Hp.
    + destruct (pc p), (bufThread p), (httpThread p); try discriminate;
        injection Hs as <-; exact Hp.
Qed.

Lemma launched_joined_ok : joined_ok launched.
Proof. split; discriminate. Qed.

(** C5. In any state the process can reach after the launch, with the
    process alive and the serve loop of endpoint [e] running: when that
    loop throws an exception derived from [std::exception],
    [start_server] catches it and logs it as an error; the thread of
    [e] finishes; the other thread is as it was; the process is not
    terminated; the main thread stays where it was, which is not past
    the joins; and whatever happens afterwards, the main thread is past
    the joins only when both threads have finished. *)
Theorem endpoint_failure_is_contained
        (acts : list action) (p : process) (e : endpoint) (what : string) :
  run acts launched = Some p ->
  terminated p = false ->
  thread p e = Running ->
  exists p',
    step (ServeEnds e (ServeThrowsStd what)) p = Some p' /\
    thread p' e = Finished /\
    thread p' (other e) = thread p (other e) /\
    terminated p' = false /\
    pc p' = pc p /\
    pc p' <> Returned /\
    log p' = log p ++ [EvLog ERROR ("Exception: " ++ what
                                    ++ String Text.LF EmptyString)] /\
    forall acts' q,
      run acts' p' = Some q -> pc q = Returned ->
      bufThread q = Finished /\ httpThread q = Finished.
Proof.
  intros Hrun Halive Hthread.
  pose proof (run_joined_ok acts launched p Hrun launched_joined_ok) as Hj.
  exists (finish e p false
            [EvLog ERROR ("Exception: " ++ what
                          ++ String Text.LF EmptyString)]).
  assert (Hstep : step (ServeEnds e (ServeThrowsStd what)) p
                  = Some (finish e p false
                            [EvLog ERROR ("Exception: " ++ what
                               ++ String Text.LF EmptyString)])).
  { unfold step. rewrite Halive, Hthread. reflexivity. }
  split; [exact Hstep|].
  split; [destruct e; reflexivity|].
  split; [destruct e; reflexivity|].
  split; [destruct e; reflexivity|].
  split; [destruct e; reflexivity|].
  split.
  { destruct Hj as [_ Hj]. intros Hpc.
    assert (Hp : pc p = Returned) by (destruct e; exact Hpc).
    destruct (Hj Hp) as [Hb Hh].
    destruct e; cbn in Hthread; congruence. }
  split; [destruct e; reflexivity|].
  intros acts' q Hq Hpc.
  pose proof (step_joined_ok _ _ _ Hstep Hj) as Hj'.
  apply (run_joined_ok acts' _ q Hq Hj'). exact Hpc.
Qed.

Lemma endpoint_failure_is_contained_witness :
  exists p',
    step (ServeEnds BufEndpoint (ServeThrowsStd "TTransportException"))
         (set_pc JoinBuf launched) = Some p' /\
    httpThread p' = Running /\ terminated p' = false /\ pc p' = JoinBuf.
Proof.
  destruct (endpoint_failure_is_contained
              [WarmupDone] (set_pc JoinBuf launched) BufEndpoint
              "TTransportException" eq_refl eq_refl eq_refl)
    as (p' & H1 & _ & H2 & H3 & H4 & _).
  exists p'. repeat split; assumption.
Defined.

End EndpointFacts.

(** ** Start-up *)

Module StartupFacts.

Import Text Startup Obs.

(** Closes a goal claiming that an event list without thread starts
    contains one. *)
Ltac no_thread_start Hno Hban :=
  let Hin := fresh "Hin" in
  cbn [fst snd]; intros Hin; exfalso;
  rewrite ?in_app_iff in Hin; cbn [In] in Hin;
  repeat match goal with
         | H : _ \/ _ |- _ => destruct H as [H|H]
         | H : In _ (if ?b then _ else _) |- _ => destruct b; cbn [In] in H
         | H : _ = EvThreadStart _ |- _ => discriminate H
         | H : False |- _ => exact H
         | H : In _ ?t, F : Forall _ ?t |- _ =>
             first [exact (Hno _ F H) | exact (Hban _ F H)]
         end.

Section Main.

Context {E : Type} {Eng : Engine E}.
Variable MAPD_SYSTEM_DB MAPD_RELEASE : string.
Variable env : Env E.
Variable o : Options.

Local Notation cf := (trim_if quote_chars (cluster_file o)).
Local Notation any_cluster_flag :=
  (count_cluster o || count_string_servers o).

(** *** The blocks of [main], one by one *)

Lemma options_block_cases :
  match options_block MAPD_RELEASE env o with
  | (Continue topo, t) =>
      Cluster.resolve (count_cluster o) (count_string_servers o)
                      (parseClusterConfig env cf) = Some topo /\
      t = (if any_cluster_flag then [EvParseClusterConfig cf] else [])
  | (Stop r, t) =>
      r <> Joining /\ Forall (fun e => is_launch_or_warmup e = false) t
  end.
Proof.
  unfold options_block.
  destruct (parse_error o) as [what|].
  { cbn. split; [discriminate|repeat constructor]. }
  destruct (Cluster.resolve _ _ _) as [topo|].
  2:{ cbn. split; [discriminate|constructor]. }
  destruct (count_help o), (count_help_advanced o), (count_version o),
    any_cluster_flag; cbn;
    try (split; [discriminate|repeat constructor]);
    split; reflexivity.
Qed.

Lemma options_block_not_terminate r t :
  options_block MAPD_RELEASE env o = (Stop r, t) -> r <> Terminate.
Proof.
  unfold options_block.
  destruct (parse_error o) as [what|].
  { cbn. intros H. injection H as <- _. discriminate. }
  destruct (Cluster.resolve _ _ _) as [topo|].
  2:{ cbn. intros H. injection H as <- _. discriminate. }
  destruct (count_help o), (count_help_advanced o), (count_version o),
    any_cluster_flag; cbn; intros H;
    try discriminate H; injection H as <- _; discriminate.
Qed.

Lemma precondition_checks_cases :
  precondition_checks MAPD_SYSTEM_DB env o = (Continue tt, []) \/
  exists msg,
    precondition_checks MAPD_SYSTEM_DB env o = (Stop (Exit 1), [EvCerr msg]).
Proof.
  unfold precondition_checks.
  repeat match goal with
         | |- context [when ?b _] =>
             destruct b; cbn [when pbind pemit stop pret app];
             [right; eexists; reflexivity|]
         end.
  left. reflexivity.
Qed.

Local Notation lf := (lock_file o).

Local Notation lock_events :=
  [EvSysOpen lf [O_RDWR; O_CREAT] MODE_0644;
   EvSysLockf lf F_TLOCK 0;
   EvSysFtruncate lf 0;
   EvSysWrite lf (to_string (getpid env))].

Local Notation contention_events :=
  [EvSysOpen lf [O_RDWR; O_CREAT] MODE_0644;
   EvSysLockf lf F_TLOCK 0;
   EvCerr ("Another MapD Server is using data directory "
           ++ quoted_path (data_dir o) ++ "." ++ endl);
   EvSysClose lf].

Lemma acquire_instance_lock_cases :
  match acquire_instance_lock env o with
  | (Continue _, t) =>
      open_succeeds env lf = true /\ lockf_tlock env lf = true /\
      ftruncate_succeeds env lf = true /\ write_succeeds env lf = true /\
      t = lock_events
  | (Stop r, t) =>
      r = Exit 1 /\
      Forall (fun e => is_launch_or_warmup e = false) t /\
      (open_succeeds env lf = true -> lockf_tlock env lf = false ->
       t = contention_events)
  end.
Proof.
  unfold acquire_instance_lock.
  destruct (open_succeeds env lf), (lockf_tlock env lf),
    (ftruncate_succeeds env lf), (write_succeeds env lf);
    cbn [negb when pbind pemit stop pret app];
    repeat split; try discriminate; try reflexivity;
    repeat constructor.
Qed.

Lemma logging_and_ha_cases :
  match logging_and_ha o with
  | (Continue _, t) => Forall (fun e => is_banner e = true) t
  | (Stop r, t) =>
      r <> Joining /\ Forall (fun e => is_launch_or_warmup e = false) t
  end.
Proof.
  unfold logging_and_ha.
  destruct (count_cluster o), (count_string_servers o),
    (String.eqb (ha_group_id o) EmptyString),
    (String.eqb (ha_unique_server_id o) EmptyString),
    (String.eqb (ha_brokers o) EmptyString),
    (String.eqb (ha_shared_data o) EmptyString);
    cbn [negb when pbind pemit stop pret app];
    try (split; [discriminate|]); repeat constructor.
Qed.

Lemma logging_and_ha_not_terminate r t :
  logging_and_ha o = (Stop r, t) -> r <> Terminate.
Proof.
  unfold logging_and_ha.
  destruct (count_cluster o), (count_string_servers o),
    (String.eqb (ha_group_id o) EmptyString),
    (String.eqb (ha_unique_server_id o) EmptyString),
    (String.eqb (ha_brokers o) EmptyString),
    (String.eqb (ha_shared_data o) EmptyString);
    cbn [negb when pbind pemit stop pret app]; intros H;
    try discriminate H; injection H as <- _; discriminate.
Qed.


Lemma serve_eq (h : MapDHandler E) :
  serve env o h =
  (Stop (Checks.after_warmup
           (fst (fst (Warmup.run_warmup_queries (ifstream_contents env) h
                        (data_dir o) (query_file o))))),
   EvThreadStart BufEndpoint :: EvThreadStart HttpEndpoint
   :: snd (Warmup.run_warmup_queries (ifstream_contents env) h
             (data_dir o) (query_file o))).
Proof.
  unfold serve.
  destruct (Warmup.run_warmup_queries _ _ _ _) as [[r h'] t].
  destruct r; cbn; rewrite app_nil_r; reflexivity.
Qed.

(** *** [main] as a whole *)

Local Notation the_main := (main MAPD_SYSTEM_DB MAPD_RELEASE env o).

(** Every run of [main] that starts the threads went through the same
    steps, and ends as the warm-up does. *)
Lemma main_serving :
  fst the_main = Joining \/ fst the_main = Terminate ->
  exists topo banner,
    Cluster.resolve (count_cluster o) (count_string_servers o)
                    (parseClusterConfig env cf) = Some topo /\
    Forall (fun e => is_banner e = true) banner /\
    snd the_main =
    (if any_cluster_flag then [EvParseClusterConfig cf] else [])
    ++ lock_events
    ++ banner
    ++ [EvRegisterSignalHandler;
        EvNewHandler (Cluster.db_leaves topo)
                     (Cluster.string_leaves topo);
        EvThreadStart BufEndpoint;
        EvThreadStart HttpEndpoint]
    ++ snd (Warmup.run_warmup_queries
              (ifstream_contents env)
              (new_MapDHandler env (Cluster.db_leaves topo)
                               (Cluster.string_leaves topo))
              (data_dir o) (query_file o)) /\
    fst the_main =
    Checks.after_warmup
      (fst (fst (Warmup.run_warmup_queries
                   (ifstream_contents env)
                   (new_MapDHandler env (Cluster.db_leaves topo)
                                    (Cluster.string_leaves topo))
                   (data_dir o) (query_file o)))).
Proof.
  unfold main, main_proc.
  pose proof options_block_cases as H1.
  pose proof options_block_not_terminate as H1'.
  destruct (options_block MAPD_RELEASE env o) as [[topo|r] t1];
    cbn [pbind].
  2:{ cbn. destruct H1 as [H1 _]. specialize (H1' _ _ eq_refl).
      intros [->| ->]; tauto. }
  clear H1'. destruct H1 as [Hres ->].
  destruct precondition_checks_cases as [-> | [msg ->]];
    cbn [pbind]; [|cbn; intros [?|?]; discriminate].
  pose proof acquire_instance_lock_cases as H3.
  destruct (acquire_instance_lock env o) as [[[]|r] t3];
    cbn [pbind];
    [|cbn; destruct H3 as [-> _]; intros [?|?]; discriminate].
  destruct H3 as (_ & _ & _ & _ & ->).
  pose proof logging_and_ha_cases as H4.
  pose proof logging_and_ha_not_terminate as H4'.
  destruct (logging_and_ha o) as [[[]|r] t4];
    cbn [pbind].
  2:{ cbn. destruct H4 as [H4 _]. specialize (H4' _ _ eq_refl).
      intros [->| ->]; tauto. }
  clear H4'. cbn [pemit pbind].
  destruct (String.eqb (ha_group_id o) EmptyString).
  - rewrite serve_eq. cbn [fst snd app]. intros _.
    exists topo, t4. split; [exact Hres|]. split; [exact H4|].
    split; reflexivity.
  - cbn. intros [?|?]; discriminate.
Qed.

(** Every run of [main] that reaches the join phase went through the
    same steps. *)
Lemma main_joining :
  fst the_main = Joining ->
  exists topo banner,
    Cluster.resolve (count_cluster o) (count_string_servers o)
                    (parseClusterConfig env cf) = Some topo /\
    Forall (fun e => is_banner e = true) banner /\
    snd the_main =
    (if any_cluster_flag then [EvParseClusterConfig cf] else [])
    ++ lock_events
    ++ banner
    ++ [EvRegisterSignalHandler;
        EvNewHandler (Cluster.db_leaves topo)
                     (Cluster.string_leaves topo);
        EvThreadStart BufEndpoint;
        EvThreadStart HttpEndpoint]
    ++ snd (Warmup.run_warmup_queries
              (ifstream_contents env)
              (new_MapDHandler env (Cluster.db_leaves topo)
                               (Cluster.string_leaves topo))
              (data_dir o) (query_file o)).
Proof.
  intros Hj.
  destruct (main_serving (or_introl Hj)) as (topo & banner & H1 & H2 & H3 & _).
  exists topo, banner. auto.
Qed.

(** A run of [main] that starts an endpoint thread goes on to the
    warm-up: it reaches the join phase unless the warm-up ends the
    process. *)
Lemma main_launch_joins e :
  In (EvThreadStart e) (snd the_main) ->
  fst the_main = Joining \/ fst the_main = Terminate.
Proof.
  unfold main, main_proc.
  assert (Hno : forall t,
             Forall (fun x => is_launch_or_warmup x = false) t ->
             ~ In (EvThreadStart e) t).
  { intros t Ht Hin. rewrite Forall_forall in Ht.
    specialize (Ht _ Hin). discriminate Ht. }
  assert (Hban : forall t,
             Forall (fun x => is_banner x = true) t ->
             ~ In (EvThreadStart e) t).
  { intros t Ht Hin. rewrite Forall_forall in Ht.
    specialize (Ht _ Hin). discriminate Ht. }
  pose proof options_block_cases as H1.
  destruct (options_block MAPD_RELEASE env o) as [[topo|r] t1];
    cbn [pbind]; [|destruct H1 as [_ H1]; no_thread_start Hno Hban].
  destruct H1 as [Hres ->].
  destruct precondition_checks_cases as [-> | [msg ->]];
    cbn [pbind]; [|no_thread_start Hno Hban].
  pose proof acquire_instance_lock_cases as H3.
  destruct (acquire_instance_lock env o) as [[[]|r] t3];
    cbn [pbind];
    [|destruct H3 as (_ & H3 & _); no_thread_start Hno Hban].
  destruct H3 as (_ & _ & _ & _ & ->).
  pose proof logging_and_ha_cases as H4.
  destruct (logging_and_ha o) as [[[]|r] t4];
    cbn [pbind]; [|destruct H4 as [_ H4]; no_thread_start Hno Hban].
  cbn [pemit pbind].
  destruct (String.eqb (ha_group_id o) EmptyString).
  - rewrite serve_eq. cbn [fst]. intros _.
    destruct (fst (fst (Warmup.run_warmup_queries _ _ _ _)));
      [left|right]; reflexivity.
  - cbn [stop pbind pemit]. no_thread_start Hno Hban.
Qed.

Lemma lockf_tlock_contended holder :
  lock_holder env lf = Some holder -> holder <> getpid env ->
  lockf_tlock env lf = false.
Proof.
  intros Hh Hne. unfold lockf_tlock. rewrite Hh.
  apply N.eqb_neq, Hne.
Qed.

Lemma acquire_instance_lock_ok :
  open_succeeds env lf = true -> lockf_tlock env lf = true ->
  ftruncate_succeeds env lf = true -> write_succeeds env lf = true ->
  acquire_instance_lock env o = (Continue tt, lock_events).
Proof.
  intros H1 H2 H3 H4. unfold acquire_instance_lock.
  rewrite H1, H2, H3, H4. reflexivity.
Qed.


Lemma string_app_assoc (a b c : string) :
  ((a ++ b) ++ c = a ++ b ++ c)%string.
Proof. induction a as [|x a IH]; cbn; [reflexivity|]. rewrite IH. reflexivity. Qed.

(** Reading a quoted path back gives the path. *)
Lemma read_until_quote_escape (p rest : string) :
  Checks.read_until_quote (escape_path p ++ String DQUOTE rest)
  = Some (p, rest).
Proof.
  induction p as [|c p IH]; [reflexivity|].
  cbn [escape_path].
  destruct (Ascii.eqb c DQUOTE) eqn:Hq.
  - cbn [orb append Checks.read_until_quote].
    change (Ascii.eqb "&" DQUOTE) with false.
    cbn [Checks.read_until_quote]. rewrite Ascii.eqb_refl, IH. reflexivity.
  - destruct (Ascii.eqb c "&") eqn:Ha.
    + cbn [orb append Checks.read_until_quote].
      change (Ascii.eqb "&" DQUOTE) with false.
      rewrite Ascii.eqb_refl, IH. reflexivity.
    + cbn [orb append Checks.read_until_quote].
      rewrite Hq, Ha, IH. reflexivity.
Qed.

Lemma read_quoted_path (p rest : string) :
  Checks.read_quoted (quoted_path p ++ rest) = Some (p, rest).
Proof.
  unfold quoted_path. cbn [append Checks.read_quoted].
  rewrite Ascii.eqb_refl, string_app_assoc. cbn [append].
  apply read_until_quote_escape.
Qed.

Lemma to_string_reads_back (n : N) :
  option_map N.of_uint (NilEmpty.uint_of_string (to_string n)) = Some n.
Proof.
  unfold to_string. rewrite NilEmpty.usu. cbn [option_map].
  rewrite DecimalN.Unsigned.of_to. reflexivity.
Qed.

(** C6. The lock file is the file [mapd_server_pid.lck] in the data
    directory: its path is the data directory, a separator unless
    there is one already, and that name.  When the four calls succeed, the acquisition is: open
    with [O_RDWR | O_CREAT], test-and-lock without waiting, truncate to
    length 0, write a text that reads back, as a decimal number, as the
    process id.  When the file opens but another process holds the
    lock, [main] returns 1; what it did is what the option block did,
    then the open, the failed lock request, a message on the error
    stream and the close of the descriptor; the message is a fixed
    text followed by the data directory between double quotes, a full
    stop and the end of the line; no endpoint thread was started and no
    warm-up action happened. *)
Theorem instance_guard_contract :
  lf = path_append (data_dir o) "mapd_server_pid.lck"
  /\ (exists sep,
        (sep = EmptyString \/ sep = "/"%string) /\
        lf = (data_dir o ++ sep ++ "mapd_server_pid.lck")%string)
  /\ (open_succeeds env lf = true -> lockf_tlock env lf = true ->
      ftruncate_succeeds env lf = true -> write_succeeds env lf = true ->
      exists pid_text,
        acquire_instance_lock env o =
        (Continue tt,
         [EvSysOpen lf [O_RDWR; O_CREAT] MODE_0644;
          EvSysLockf lf F_TLOCK 0;
          EvSysFtruncate lf 0;
          EvSysWrite lf pid_text])
        /\ option_map N.of_uint (NilEmpty.uint_of_string pid_text)
           = Some (getpid env))
  /\ (forall topo t1 holder,
         options_block MAPD_RELEASE env o = (Continue topo, t1) ->
         fst (precondition_checks MAPD_SYSTEM_DB env o) = Continue tt ->
         open_succeeds env lf = true ->
         lock_holder env lf = Some holder ->
         holder <> getpid env ->
         exists named,
           the_main =
           (Exit 1,
            t1 ++
            [EvSysOpen lf [O_RDWR; O_CREAT] MODE_0644;
             EvSysLockf lf F_TLOCK 0;
             EvCerr ("Another MapD Server is using data directory "
                     ++ named);
             EvSysClose lf])
           /\ Checks.read_quoted named
              = Some (data_dir o, String "." (String LF EmptyString))
           /\ count is_launch_or_warmup (snd the_main) = 0).
Proof.
  split; [reflexivity|]. split.
  { unfold lock_file, path_append.
    destruct (data_dir o) as [|c dd] eqn:Hdd.
    - exists EmptyString. split; [left|]; reflexivity.
    - destruct (ends_with_slash (String c dd)).
      + exists EmptyString. split; [left|]; reflexivity.
      + exists "/"%string. split; [right|]; reflexivity. }
  split.
  { intros H1 H2 H3 H4. exists (to_string (getpid env)).
    split; [apply acquire_instance_lock_ok; assumption|].
    apply to_string_reads_back. }
  intros topo t1 holder Hopt Hpre Hopen Hholder Hne.
  pose proof (lockf_tlock_contended holder Hholder Hne) as Hlock.
  assert (Hmain : the_main = (Exit 1, t1 ++ contention_events)).
  { unfold main, main_proc. rewrite Hopt. cbn [pbind].
    destruct precondition_checks_cases as [Hc | [msg Hc]];
      rewrite Hc in *; [|discriminate Hpre].
    cbn [pbind].
    pose proof acquire_instance_lock_cases as H3.
    destruct (acquire_instance_lock env o) as [[[]|r] t3].
    - destruct H3 as (_ & H3 & _). congruence.
    - destruct H3 as (-> & _ & H3). rewrite (H3 Hopen Hlock).
      reflexivity. }
  exists (quoted_path (data_dir o) ++ "." ++ endl)%string.
  split; [exact Hmain|]. split; [apply read_quoted_path|].
  rewrite Hmain. cbn [snd].
  pose proof options_block_cases as H1. rewrite Hopt in H1.
  destruct H1 as [_ ->]. destruct any_cluster_flag; reflexivity.
Qed.

(** *** The order of the steps *)







End Main.

(** *** Concrete runs *)

Import Fixture.

Example start_without_cluster_flag :
  Fixture.start Fixture.good_blocks_script None false =
  (Joining,
   [EvSysOpen "data/mapd_server_pid.lck" [O_RDWR; O_CREAT] MODE_0644;
    EvSysLockf "data/mapd_server_pid.lck" F_TLOCK 0;
    EvSysFtruncate "data/mapd_server_pid.lck" 0;
    EvSysWrite "data/mapd_server_pid.lck" "4711";
    EvCreateDirectory "data/mapd_log";
    EvInitLogging;
    EvLog INFO "MapD started with data directory at 'data'";
    EvLog INFO " Watchdog is set to 1";
    EvLog INFO " cuda block size 1024";
    EvLog INFO " cuda grid size  1024";
    EvLog INFO " calcite JVM max memory  1024";
    EvRegisterSignalHandler;
    EvNewHandler [] [];
    EvThreadStart BufEndpoint;
    EvThreadStart HttpEndpoint;
    EvLog INFO "Running DB warmup with queries from warmup.sql";
    EvFileOpen "warmup.sql";
    EvConnect true "a" EmptyString "db" Returns "s1";
    EvSqlExecute "s1" "SELECT 1;" Returns;
    EvDisconnect "s1";
    EvConnect true "b" EmptyString "db" Returns "s2";
    EvSqlExecute "s2" "SELECT 2;" Returns;
    EvDisconnect "s2";
    EvFileClose]).
Proof. reflexivity. Qed.



Lemma instance_guard_contract_witness :
  (exists named,
      Fixture.start Fixture.good_blocks_script (Some 5%N) false =
      (Exit 1,
       [EvSysOpen "data/mapd_server_pid.lck" [O_RDWR; O_CREAT] MODE_0644;
        EvSysLockf "data/mapd_server_pid.lck" F_TLOCK 0;
        EvCerr ("Another MapD Server is using data directory " ++ named);
        EvSysClose "data/mapd_server_pid.lck"])
      /\ Checks.read_quoted named
         = Some ("data"%string, String "." (String LF EmptyString)))
  /\ (exists pid_text,
        acquire_instance_lock
          (Fixture.env Fixture.good_blocks_script None)
          (Fixture.options false) =
        (Continue tt,
         [EvSysOpen "data/mapd_server_pid.lck" [O_RDWR; O_CREAT] MODE_0644;
          EvSysLockf "data/mapd_server_pid.lck" F_TLOCK 0;
          EvSysFtruncate "data/mapd_server_pid.lck" 0;
          EvSysWrite "data/mapd_server_pid.lck" pid_text])
        /\ option_map N.of_uint (NilEmpty.uint_of_string pid_text)
           = Some 4711%N).
Proof.
  split.
  - destruct (proj2 (proj2 (proj2 (instance_guard_contract
                  "mapd" "3.0"
                  (Fixture.env Fixture.good_blocks_script (Some 5%N))
                  (Fixture.options false))))
                Cluster.no_topology [] 5%N
                eq_refl eq_refl eq_refl eq_refl
                ltac:(discriminate)) as (named & H1 & H2 & _).
    exists named. split; [exact H1|exact H2].
  - exact (proj1 (proj2 (proj2 (instance_guard_contract
                  "mapd" "3.0"
                  (Fixture.env Fixture.good_blocks_script None)
                  (Fixture.options false))))
                eq_refl eq_refl eq_refl eq_refl).
Defined.


End StartupFacts.

(** ** More on the warm-up replay *)

Module WarmupMore.

Import Warmup Obs Checks WarmupFacts.

Section WithEngine.

Context {E : Type} {Eng : Engine E}.

Local Notation WState := (@WState E).
Local Notation invalid := (@getInvalidSessionId E Eng).

(** *** A property of every event of the loops *)

Lemma loops_forall (P : event -> Prop) p :
  (forall u d st sid, P (EvConnect true u EmptyString d st sid)) ->
  (forall sid q st, P (EvSqlExecute sid q st)) ->
  (forall sid, P (EvDisconnect sid)) ->
  (forall sid, P (EvDisconnectThrew sid)) ->
  (forall l, P (EvLog WARNING (syntax_warning p l))) ->
  forall lines,
    (forall s : WState, Forall P (snd (header_loop p lines s))) /\
    (forall s : WState, Forall P (snd (query_loop p lines s))).
Proof.
  intros Hc Hq Hd Hd' Hw.
  induction lines as [|l rest [IHh IHq]]; split; intros s.
  - constructor.
  - rewrite query_loop_nil.
    destruct (disconnect_status s); repeat constructor;
      [apply Hd|apply Hd'].
  - destruct (String.length l =? 0)%nat eqn:Hl.
    { rewrite header_loop_blank by assumption. apply IHh. }
    destruct (Text.compare_prefix_eq "USER"
                (user_keyword (with_tokens l s))) eqn:Hk.
    + rewrite header_loop_user by assumption.
      destruct (call_connect_spec
                  (with_super_user_rights true (with_tokens l s)))
        as (st & sid & e & _ & Hcc).
      rewrite Hcc. cbn [handler super_user_rights_ with_super_user_rights].
      destruct st.
      * match goal with
        | |- context [query_loop p rest ?x] =>
            specialize (IHq x); destruct (query_loop p rest x)
              as [[r s'] t]
        end.
        cbn in *. constructor; [apply Hc|exact IHq].
      * repeat constructor. apply Hc.
    + rewrite header_loop_bad by assumption.
      specialize (IHh (with_tokens l s)).
      destruct (header_loop p rest _) as [[r s'] t].
      cbn in *. constructor; [apply Hw|exact IHh].
  - destruct (String.length l =? 0)%nat eqn:Hl.
    { rewrite query_loop_blank by assumption. apply IHq. }
    destruct (String.eqb l "}") eqn:Hb.
    + rewrite query_loop_brace by assumption.
      destruct (disconnect_status s);
        [|repeat constructor; apply Hd'].
      specialize (IHh (block_ended s)).
      destruct (header_loop p rest _) as [[r s'] t].
      cbn in *. constructor; [apply Hd|exact IHh].
    + rewrite query_loop_statement by assumption.
      destruct (call_sql_execute_spec l s) as (st & e & Hcc).
      rewrite Hcc. destruct st.
      * specialize (IHq (set_engine e s)).
        destruct (query_loop p rest _) as [[r s'] t].
        cbn in *. constructor; [apply Hq|exact IHq].
      * repeat constructor. apply Hq.
Qed.

(** The same for a whole run of the replay routine. *)
Lemma run_forall (P : event -> Prop) fs (h : MapDHandler E) base_path p :
  (forall u d st sid, P (EvConnect true u EmptyString d st sid)) ->
  (forall sid q st, P (EvSqlExecute sid q st)) ->
  (forall sid, P (EvDisconnect sid)) ->
  (forall sid, P (EvDisconnectThrew sid)) ->
  (forall l, P (EvLog WARNING (syntax_warning p l))) ->
  P (EvLog INFO ("Running DB warmup with queries from " ++ p)) ->
  P (EvFileOpen p) ->
  P EvFileClose ->
  P (EvLog WARNING incomplete_warning) ->
  Forall P (snd (run_warmup_queries fs h base_path p)).
Proof.
  intros Hc Hq Hd Hd' Hw Hi Ho Hcl Hinc.
  destruct (String.length p =? 0)%nat eqn:Hp.
  { unfold run_warmup_queries. rewrite Hp. constructor. }
  rewrite (run_warmup_queries_eq fs h base_path p Hp), warmup_body_eq.
  pose proof (proj1 (loops_forall P p Hc Hq Hd Hd' Hw (stream_lines fs p))
                    (initial_state h)) as Hl.
  destruct (header_loop p (stream_lines fs p) (initial_state h))
    as [[rb sb] tb].
  rewrite releaseWarmupSession_eq.
  destruct (String.eqb (sessionId sb) invalid);
    [|destruct (disconnect_status sb)];
    cbn [snd] in *;
    (constructor; [exact Hi|]); (constructor; [exact Ho|]);
    (apply Forall_app; split; [exact Hl|]);
    try (apply Forall_app; split);
    try (destruct rb); repeat constructor; auto.
Qed.

(** X1. Every connect of a warm-up run, whatever the script and the
    engine, is made while [super_user_rights_] is set and presents the
    empty password. *)
Theorem warmup_connects_elevated
        fs (h : MapDHandler E) (base_path p : string) :
  forallb elevated_without_password
          (snd (run_warmup_queries fs h base_path p)) = true.
Proof.
  apply forallb_forall. apply Forall_forall.
  apply run_forall; intros; reflexivity.
Qed.

(** *** The elevation flag after the run *)

Lemma last_connect_status_app t1 t2 :
  last_connect_status (t1 ++ t2) =
  match last_connect_status t2 with
  | Some st => Some st
  | None => last_connect_status t1
  end.
Proof.
  induction t1 as [|e t1 IH]; cbn [app last_connect_status].
  - destruct (last_connect_status t2); reflexivity.
  - rewrite IH. destruct (last_connect_status t2); reflexivity.
Qed.

Lemma last_connect_status_none t :
  Forall (fun e => is_connect e = false) t -> last_connect_status t = None.
Proof.
  induction 1 as [|e t He _ IH]; cbn; [reflexivity|].
  rewrite IH. destruct e; try reflexivity. discriminate He.
Qed.

Lemma flag_after_cons_other e t before :
  is_connect e = false -> flag_after before (e :: t) = flag_after before t.
Proof.
  intros He. unfold flag_after. cbn [last_connect_status].
  destruct (last_connect_status t); [reflexivity|].
  destruct e; try reflexivity. discriminate He.
Qed.

Lemma flag_after_connect su u pw d st sid t before :
  flag_after before (EvConnect su u pw d st sid :: t) =
  flag_after (match st with Returns => false | Throws => true end) t.
Proof.
  unfold flag_after. cbn [last_connect_status].
  destruct (last_connect_status t); reflexivity.
Qed.

Lemma loops_flag p lines :
  (forall s : WState,
      let '(r, s', t) := header_loop p lines s in
      super_user_rights_ (handler s')
      = flag_after (super_user_rights_ (handler s)) t)
  /\
  (forall s : WState,
      let '(r, s', t) := query_loop p lines s in
      super_user_rights_ (handler s')
      = flag_after (super_user_rights_ (handler s)) t).
Proof.
  induction lines as [|l rest [IHh IHq]]; split; intros s.
  - reflexivity.
  - rewrite query_loop_nil. destruct (disconnect_status s); reflexivity.
  - destruct (String.length l =? 0)%nat eqn:Hl.
    { rewrite header_loop_blank by assumption. apply IHh. }
    destruct (Text.compare_prefix_eq "USER"
                (user_keyword (with_tokens l s))) eqn:Hk.
    + rewrite header_loop_user by assumption.
      destruct (call_connect_spec
                  (with_super_user_rights true (with_tokens l s)))
        as (st & sid & e & _ & Hcc).
      rewrite Hcc. destruct st.
      * match goal with
        | |- context [query_loop p rest ?x] =>
            specialize (IHq x); destruct (query_loop p rest x)
              as [[r s'] t]
        end.
        cbn [app]. rewrite flag_after_connect. exact IHq.
      * reflexivity.
    + rewrite header_loop_bad by assumption.
      specialize (IHh (with_tokens l s)).
      rewrite with_tokens_handler in IHh.
      destruct (header_loop p rest _) as [[r s'] t].
      rewrite flag_after_cons_other by reflexivity. exact IHh.
  - destruct (String.length l =? 0)%nat eqn:Hl.
    { rewrite query_loop_blank by assumption. apply IHq. }
    destruct (String.eqb l "}") eqn:Hb.
    + rewrite query_loop_brace by assumption.
      destruct (disconnect_status s); [|reflexivity].
      specialize (IHh (block_ended s)).
      destruct (header_loop p rest _) as [[r s'] t].
      rewrite flag_after_cons_other by reflexivity. exact IHh.
    + rewrite query_loop_statement by assumption.
      destruct (call_sql_execute_spec l s) as (st & e & Hcc).
      rewrite Hcc. destruct st.
      * specialize (IHq (set_engine e s)).
        destruct (query_loop p rest _) as [[r s'] t].
        cbn [app]. rewrite flag_after_cons_other by reflexivity.
        exact IHq.
      * reflexivity.
Qed.

Lemma flag_after_app_quiet before t1 t2 :
  Forall (fun e => is_connect e = false) t2 ->
  flag_after before (t1 ++ t2) = flag_after before t1.
Proof.
  intros H. unfold flag_after.
  rewrite last_connect_status_app, (last_connect_status_none _ H).
  reflexivity.
Qed.

(** X2. The handler a warm-up run returns is elevated exactly as the last
    connect of the run left it: without a connect the flag is as before
    the run, after a last connect that returned it is cleared, after a
    last connect that threw it is still set. *)
Theorem elevation_after_warmup
        fs (h : MapDHandler E) (base_path p : string) :
  super_user_rights_ (snd (fst (run_warmup_queries fs h base_path p)))
  = flag_after (super_user_rights_ h)
               (snd (run_warmup_queries fs h base_path p)).
Proof.
  destruct (String.length p =? 0)%nat eqn:Hp.
  { unfold run_warmup_queries. rewrite Hp. reflexivity. }
  rewrite (run_warmup_queries_eq fs h base_path p Hp), warmup_body_eq.
  pose proof (proj1 (loops_flag p (stream_lines fs p)) (initial_state h))
    as Hl.
  destruct (header_loop p (stream_lines fs p) (initial_state h))
    as [[rb sb] tb].
  cbn [initial_state handler] in Hl.
  rewrite releaseWarmupSession_eq.
  destruct (String.eqb (sessionId sb) invalid);
    [|destruct (disconnect_status sb)];
    cbn [fst snd disconnected set_engine handler super_user_rights_];
    rewrite Hl; cbn [app];
    rewrite (flag_after_cons_other (EvLog INFO _)) by reflexivity;
    rewrite (flag_after_cons_other (EvFileOpen p)) by reflexivity;
    symmetry; apply flag_after_app_quiet;
    try (apply Forall_app; split);
    try (destruct rb); repeat constructor.
Qed.

(** *** Throws *)

Lemma loops_throw p lines :
  (forall s : WState,
      let '(r, s', t) := header_loop p lines s in
      match r with
      | Normal _ => Forall (fun e => is_throw e = false) t
      | Raised =>
          exists t0 e, t = t0 ++ [e] /\ is_throw e = true /\
                       Forall (fun e => is_throw e = false) t0
      end)
  /\
  (forall s : WState,
      let '(r, s', t) := query_loop p lines s in
      match r with
      | Normal _ => Forall (fun e => is_throw e = false) t
      | Raised =>
          exists t0 e, t = t0 ++ [e] /\ is_throw e = true /\
                       Forall (fun e => is_throw e = false) t0
      end).
Proof.
  assert (Hcons : forall (r : outcome unit) x t,
             is_throw x = false ->
             match r with
             | Normal _ => Forall (fun e => is_throw e = false) t
             | Raised =>
                 exists t0 e, t = t0 ++ [e] /\ is_throw e = true /\
                              Forall (fun e => is_throw e = false) t0
             end ->
             match r with
             | Normal _ => Forall (fun e => is_throw e = false) (x :: t)
             | Raised =>
                 exists t0 e, x :: t = t0 ++ [e] /\ is_throw e = true /\
                              Forall (fun e => is_throw e = false) t0
             end).
  { intros r x t Hx H. destruct r.
    - constructor; assumption.
    - destruct H as (t0 & e & -> & He & H0).
      exists (x :: t0), e. repeat split; try assumption.
      constructor; assumption. }
  induction lines as [|l rest [IHh IHq]]; split; intros s.
  - constructor.
  - rewrite query_loop_nil.
    destruct (disconnect_status s); [repeat constructor|].
    eexists [], _. repeat split. constructor.
  - destruct (String.length l =? 0)%nat eqn:Hl.
    { rewrite header_loop_blank by assumption. apply IHh. }
    destruct (Text.compare_prefix_eq "USER"
                (user_keyword (with_tokens l s))) eqn:Hk.
    + rewrite header_loop_user by assumption.
      destruct (call_connect_spec
                  (with_super_user_rights true (with_tokens l s)))
        as (st & sid & e & _ & Hcc).
      rewrite Hcc. destruct st.
      * match goal with
        | |- context [query_loop p rest ?x] =>
            specialize (IHq x); destruct (query_loop p rest x)
              as [[r s'] t]
        end.
        cbn [app]. apply Hcons; [reflexivity|exact IHq].
      * eexists [], _. repeat split. constructor.
    + rewrite header_loop_bad by assumption.
      specialize (IHh (with_tokens l s)).
      destruct (header_loop p rest _) as [[r s'] t].
      apply Hcons; [reflexivity|exact IHh].
  - destruct (String.length l =? 0)%nat eqn:Hl.
    { rewrite query_loop_blank by assumption. apply IHq. }
    destruct (String.eqb l "}") eqn:Hb.
    + rewrite query_loop_brace by assumption.
      destruct (disconnect_status s);
        [|eexists [], _; repeat split; constructor].
      specialize (IHh (block_ended s)).
      destruct (header_loop p rest _) as [[r s'] t].
      apply Hcons; [reflexivity|exact IHh].
    + rewrite query_loop_statement by assumption.
      destruct (call_sql_execute_spec l s) as (st & e & Hcc).
      rewrite Hcc. destruct st.
      * specialize (IHq (set_engine e s)).
        destruct (query_loop p rest _) as [[r s'] t].
        cbn [app]. apply Hcons; [reflexivity|exact IHq].
      * eexists [], _. repeat split. constructor.
Qed.

Lemma quiet_after_throw_app t0 t :
  Forall (fun e => is_throw e = false) t0 ->
  quiet_after_throw (t0 ++ t) = quiet_after_throw t.
Proof.
  induction 1 as [|e t0 He _ IH]; cbn [app quiet_after_throw];
    [reflexivity|].
  rewrite He. exact IH.
Qed.

Lemma quiet_after_throw_none t :
  Forall (fun e => is_throw e = false) t -> quiet_after_throw t = true.
Proof.
  intros H. rewrite <- (app_nil_r t), quiet_after_throw_app by assumption.
  reflexivity.
Qed.

(** X3. The replay stops at the first handler call that throws: in the
    trace of any run, no connect and no statement execution comes after
    a call that threw. *)
Theorem replay_stops_at_first_throw
        fs (h : MapDHandler E) (base_path p : string) :
  quiet_after_throw (snd (run_warmup_queries fs h base_path p)) = true.
Proof.
  destruct (String.length p =? 0)%nat eqn:Hp.
  { unfold run_warmup_queries. rewrite Hp. reflexivity. }
  rewrite (run_warmup_queries_eq fs h base_path p Hp), warmup_body_eq.
  pose proof (proj1 (loops_throw p (stream_lines fs p)) (initial_state h))
    as Hl.
  destruct (header_loop p (stream_lines fs p) (initial_state h))
    as [[rb sb] tb].
  rewrite releaseWarmupSession_eq.
  destruct rb.
  - destruct (String.eqb (sessionId sb) invalid);
      [|destruct (disconnect_status sb)];
      cbn [snd app]; cbn [quiet_after_throw is_throw];
      rewrite quiet_after_throw_app by exact Hl; reflexivity.
  - destruct Hl as (t0 & e & -> & He & H0).
    destruct (String.eqb (sessionId sb) invalid);
      [|destruct (disconnect_status sb)];
      cbn [snd app]; cbn [quiet_after_throw is_throw];
      rewrite <- app_assoc, quiet_after_throw_app by assumption;
      cbn [app quiet_after_throw]; rewrite He; reflexivity.
Qed.

Lemma syntax_warning_not_incomplete p l :
  syntax_warning p l <> incomplete_warning.
Proof.
  intros H.
  apply (f_equal (fun s => match s with
                           | String c _ => nat_of_ascii c
                           | EmptyString => 0
                           end)) in H.
  vm_compute in H. discriminate H.
Qed.

Lemma existsb_none (f : event -> bool) t :
  Forall (fun e => f e = false) t -> existsb f t = false.
Proof.
  induction 1 as [|e t He _ IH]; [reflexivity|].
  cbn [existsb]. rewrite He, IH. reflexivity.
Qed.

(** X4. The warning that the warm-up may be incomplete is in the log of a
    run exactly when a handler call of that run threw and the routine
    returned all the same, that is, when the catch-all was reached. *)
Theorem incomplete_warning_iff_throw
        fs (h : MapDHandler E) (base_path p : string) :
  In (EvLog WARNING incomplete_warning)
     (snd (run_warmup_queries fs h base_path p))
  <-> (existsb is_throw (snd (run_warmup_queries fs h base_path p)) = true
       /\ fst (fst (run_warmup_queries fs h base_path p)) = Normal tt).
Proof.
  destruct (String.length p =? 0)%nat eqn:Hp.
  { unfold run_warmup_queries. rewrite Hp. cbn. split;
      [intros []|intros [H _]; discriminate H]. }
  pose proof (run_warmup_queries_cases fs h base_path p Hp) as Hc.
  rewrite warmup_body_eq in Hc.
  pose proof (proj1 (loops_throw p (stream_lines fs p)) (initial_state h))
    as Hl.
  pose proof (proj1 (loops_forall
                       (fun e => e <> EvLog WARNING incomplete_warning) p
                       ltac:(discriminate) ltac:(discriminate)
                       ltac:(discriminate) ltac:(discriminate)
                       ltac:(intros l H;
                             exact (syntax_warning_not_incomplete p l
                                      (f_equal
                                         (fun e => match e with
                                                   | EvLog _ m => m
                                                   | _ => EmptyString
                                                   end) H)))
                       (stream_lines fs p)) (initial_state h)) as Hw.
  destruct (header_loop p (stream_lines fs p) (initial_state h))
    as [[rb sb] tb].
  cbn [snd] in Hl, Hw.
  assert (Hnot : ~ In (EvLog WARNING incomplete_warning) tb).
  { intros Hin. rewrite Forall_forall in Hw. exact (Hw _ Hin eq_refl). }
  destruct Hc as [(Hn & tg & Htg & Ht)|(Hr & _ & Ht)]; rewrite Ht.
  - rewrite Hn. destruct rb.
    + split.
      * intros Hin. exfalso. cbn [app In] in Hin.
        rewrite app_nil_r in Hin.
        destruct Hin as [Hin|[Hin|Hin]]; try discriminate Hin.
        apply in_app_or in Hin as [Hin|Hin]; [exact (Hnot Hin)|].
        destruct Htg as [-> | ->]; cbn in Hin;
          repeat (destruct Hin as [Hin|Hin]; [discriminate Hin|]);
          exact Hin.
      * intros [Hx _]. exfalso. cbn [app existsb is_throw orb] in Hx.
        rewrite app_nil_r, existsb_app, (existsb_none _ _ Hl) in Hx.
        destruct Htg as [-> | ->]; discriminate Hx.
    + split.
      * intros _. split; [|reflexivity].
        destruct Hl as (t0 & e & -> & He & _).
        cbn [app existsb is_throw orb].
        rewrite !existsb_app. cbn [existsb]. rewrite He.
        rewrite orb_true_r. reflexivity.
      * intros _. cbn [app]. right. right.
        rewrite !in_app_iff. right. right. left. reflexivity.
  - rewrite Hr. split; [|intros [_ H]; discriminate H].
    intros Hin. exfalso. cbn [app In] in Hin.
    destruct Hin as [Hin|[Hin|Hin]]; try discriminate Hin.
    apply in_app_or in Hin as [Hin|Hin]; [exact (Hnot Hin)|].
    cbn in Hin.
    repeat (destruct Hin as [Hin|Hin]; [discriminate Hin|]); exact Hin.
Qed.

(** *** Statements and their session *)

Lemma loops_in_session p lines :
  (forall (s : WState) cur,
      in_session cur (snd (header_loop p lines s)) = true)
  /\
  (forall s : WState,
      in_session (Some (sessionId s)) (snd (query_loop p lines s)) = true).
Proof.
  induction lines as [|l rest [IHh IHq]]; split.
  - reflexivity.
  - intros s. rewrite query_loop_nil.
    destruct (disconnect_status s); reflexivity.
  - intros s cur.
    destruct (String.length l =? 0)%nat eqn:Hl.
    { rewrite header_loop_blank by assumption. apply IHh. }
    destruct (Text.compare_prefix_eq "USER"
                (user_keyword (with_tokens l s))) eqn:Hk.
    + rewrite header_loop_user by assumption.
      destruct (call_connect_spec
                  (with_super_user_rights true (with_tokens l s)))
        as (st & sid & e & _ & Hcc).
      rewrite Hcc. destruct st.
      * match goal with
        | |- context [query_loop p rest ?x] =>
            specialize (IHq x); destruct (query_loop p rest x)
              as [[r s'] t]
        end.
        cbn [snd app in_session] in *. exact IHq.
      * reflexivity.
    + rewrite header_loop_bad by assumption.
      specialize (IHh (with_tokens l s) cur).
      destruct (header_loop p rest _) as [[r s'] t].
      cbn [snd in_session] in *. exact IHh.
  - intros s.
    destruct (String.length l =? 0)%nat eqn:Hl.
    { rewrite query_loop_blank by assumption. apply IHq. }
    destruct (String.eqb l "}") eqn:Hb.
    + rewrite query_loop_brace by assumption.
      destruct (disconnect_status s); [|reflexivity].
      specialize (IHh (block_ended s) None).
      destruct (header_loop p rest _) as [[r s'] t].
      cbn [snd in_session] in *. exact IHh.
    + rewrite query_loop_statement by assumption.
      destruct (call_sql_execute_spec l s) as (st & e & Hcc).
      rewrite Hcc. destruct st.
      * specialize (IHq (set_engine e s)).
        destruct (query_loop p rest _) as [[r s'] t].
        cbn [snd app in_session sessionId set_engine] in *.
        rewrite String.eqb_refl. exact IHq.
      * cbn [snd in_session]. rewrite String.eqb_refl. reflexivity.
Qed.

Lemma in_session_app t1 : forall cur t2,
  in_session cur t1 = true ->
  Forall (fun e => is_sql_execute e = false) t2 ->
  in_session cur (t1 ++ t2) = true.
Proof.
  induction t1 as [|e t1 IH]; intros cur t2 H1 H2.
  - cbn [app]. clear H1. revert cur. induction H2 as [|x t2 Hx _ IH2]; intros cur;
      [reflexivity|].
    destruct x; try discriminate Hx; cbn [in_session]; try apply IH2.
    destruct st; apply IH2.
  - destruct e; cbn [app in_session] in *; try (apply IH; assumption).
    + destruct st; apply IH; assumption.
    + destruct cur as [c|]; [|discriminate H1].
      apply andb_prop in H1 as [Ha Hb]. rewrite Ha. cbn [andb].
      apply IH; assumption.
Qed.

(** X5. In any run every statement is executed on the session the most
    recent connect delivered, that connect returned normally, and the
    session has not been disconnected in between. *)
Theorem statements_run_in_open_session
        fs (h : MapDHandler E) (base_path p : string) :
  in_session None (snd (run_warmup_queries fs h base_path p)) = true.
Proof.
  destruct (String.length p =? 0)%nat eqn:Hp.
  { unfold run_warmup_queries. rewrite Hp. reflexivity. }
  rewrite (run_warmup_queries_eq fs h base_path p Hp), warmup_body_eq.
  pose proof (proj1 (loops_in_session p (stream_lines fs p))
                    (initial_state h) None) as Hl.
  destruct (header_loop p (stream_lines fs p) (initial_state h))
    as [[rb sb] tb].
  rewrite releaseWarmupSession_eq.
  destruct (String.eqb (sessionId sb) invalid);
    [|destruct (disconnect_status sb)];
    cbn [snd app in_session] in *;
    (apply in_session_app; [exact Hl|]);
    try (destruct rb); repeat constructor.
Qed.

(** *** Scripts without any word *)

Lemma header_loop_empty_lines p lines (s : WState) :
  Forall (fun l => l = EmptyString) lines ->
  header_loop p lines s = (Normal tt, s, []).
Proof.
  induction 1 as [|l rest -> _ IH]; [reflexivity|].
  rewrite header_loop_blank by reflexivity. exact IH.
Qed.

(** X6. When the script cannot be opened, is empty, or holds empty lines
    only, the run opens and closes the file and does nothing else: no
    handler call, no warning, and the handler is returned as it was. *)
Theorem empty_script_is_inert
        fs (h : MapDHandler E) (base_path p : string) :
  p <> EmptyString ->
  Forall (fun l => l = EmptyString) (stream_lines fs p) ->
  run_warmup_queries fs h base_path p =
  (Normal tt, h,
   [EvLog INFO ("Running DB warmup with queries from " ++ p);
    EvFileOpen p; EvFileClose]).
Proof.
  intros Hp Hl. apply nonempty_length in Hp.
  rewrite (run_warmup_queries_eq fs h base_path p Hp), warmup_body_eq.
  rewrite (header_loop_empty_lines p _ _ Hl).
  rewrite releaseWarmupSession_eq.
  cbn [initial_state sessionId]. rewrite String.eqb_refl. reflexivity.
Qed.

(** *** The header test *)

Lemma compare_prefix_eq_iff lit s :
  Text.compare_prefix_eq lit s = true <-> exists r, s = (lit ++ r)%string.
Proof.
  unfold Text.compare_prefix_eq. rewrite String.eqb_eq.
  revert s. induction lit as [|c lit IH]; intros s.
  - cbn. split; [intros _; exists s; reflexivity|].
    intros _. destruct s; reflexivity.
  - destruct s as [|d s]; cbn [String.length substring append].
    + split; [discriminate|]. intros [r Hr]. discriminate Hr.
    + split.
      * intros H. injection H as -> H. apply IH in H as [r ->].
        exists r. reflexivity.
      * intros [r Hr]. injection Hr as -> ->. f_equal.
        apply IH. exists r. reflexivity.
Qed.

Lemma first_event_accepted p l rest (s : WState) :
  (String.length l =? 0)%nat = false ->
  Text.compare_prefix_eq "USER" (user_keyword (with_tokens l s)) = true ->
  exists st sid,
    hd_error (snd (header_loop p (l :: rest) s)) =
    Some (EvConnect true (user_name (with_tokens l s)) EmptyString
                    (db_name (with_tokens l s)) st sid).
Proof.
  intros Hl Hk. rewrite header_loop_user by assumption.
  destruct (call_connect_spec
              (with_super_user_rights true (with_tokens l s)))
    as (st & sid & e & _ & Hcc).
  rewrite Hcc. exists st, sid. destruct st; [|reflexivity].
  destruct (query_loop p rest _) as [[r s'] t]. reflexivity.
Qed.

Lemma first_event_rejected p l rest (s : WState) :
  (String.length l =? 0)%nat = false ->
  Text.compare_prefix_eq "USER" (user_keyword (with_tokens l s)) = false ->
  hd_error (snd (header_loop p (l :: rest) s)) =
  Some (EvLog WARNING (syntax_warning p l)).
Proof.
  intros Hl Hk. rewrite header_loop_bad by assumption.
  destruct (header_loop p rest _) as [[r s'] t]. reflexivity.
Qed.

(** X7. A line read in header position whose first word is [tok] is
    answered by a connect exactly when [tok] begins with the characters
    USER, in upper case; any other first word is answered by the syntax
    warning. *)
Theorem header_accepted_iff_prefix
        p l rest (s : WState) (tok r : string) :
  Text.extract l = Some (tok, r) ->
  ((exists x, tok = ("USER" ++ x)%string) <->
   exists su u pw d st sid,
     hd_error (snd (header_loop p (l :: rest) s)) =
     Some (EvConnect su u pw d st sid))
  /\
  ((~ exists x, tok = ("USER" ++ x)%string) <->
   hd_error (snd (header_loop p (l :: rest) s)) =
   Some (EvLog WARNING (syntax_warning p l))).
Proof.
  intros Hx.
  pose proof (TextFacts.extract_nonempty _ _ _ Hx) as Hl.
  pose proof (with_tokens_keyword l s tok r Hx) as Hk.
  rewrite <- compare_prefix_eq_iff.
  destruct (Text.compare_prefix_eq "USER" tok) eqn:Hp.
  - destruct (first_event_accepted p l rest s Hl) as (st & sid & He);
      [rewrite Hk; exact Hp|].
    split; split.
    + intros _. do 6 eexists. exact He.
    + reflexivity.
    + intros H. exfalso. apply H. reflexivity.
    + rewrite He. discriminate.
  - pose proof (first_event_rejected p l rest s Hl) as He.
    rewrite Hk in He. specialize (He Hp).
    split; split.
    + discriminate.
    + intros (su & u & pw & d & st & sid & H). rewrite He in H.
      discriminate H.
    + intros _. exact He.
    + intros _. discriminate.
Qed.

(** *** Words missing from a header *)

Lemma with_tokens_no_word l (s : WState) :
  Text.extract l = None -> with_tokens l s = s.
Proof.
  intros H. unfold with_tokens, Text.extract3. rewrite H.
  destruct s. reflexivity.
Qed.

Lemma with_tokens_one_word l (s : WState) k r :
  Text.extract l = Some (k, r) -> Text.extract r = None ->
  with_tokens l s =
  mkWState (handler s) k (user_name s) (db_name s) (sessionId s).
Proof.
  intros H1 H2. unfold with_tokens, Text.extract3. rewrite H1, H2.
  reflexivity.
Qed.

Lemma with_tokens_two_words l (s : WState) k r u r' :
  Text.extract l = Some (k, r) -> Text.extract r = Some (u, r') ->
  Text.extract r' = None ->
  with_tokens l s = mkWState (handler s) k u (db_name s) (sessionId s).
Proof.
  intros H1 H2 H3. unfold with_tokens, Text.extract3.
  rewrite H1, H2, H3. reflexivity.
Qed.

(** X8. Words missing from a header line are taken from the header
    before.  A non-empty line without any word (white space only) is a
    header once more if the last keyword was one, and connects the same
    user to the same database; a line that is the keyword alone connects
    the user and the database of the header before. *)
Theorem missing_words_are_reused p l rest (s : WState) :
  (String.length l =? 0)%nat = false ->
  (Text.extract l = None ->
   Text.compare_prefix_eq "USER" (user_keyword s) = true ->
   exists st sid,
     hd_error (snd (header_loop p (l :: rest) s)) =
     Some (EvConnect true (user_name s) EmptyString (db_name s) st sid))
  /\
  (forall k r,
      Text.extract l = Some (k, r) -> Text.extract r = None ->
      Text.compare_prefix_eq "USER" k = true ->
      exists st sid,
        hd_error (snd (header_loop p (l :: rest) s)) =
        Some (EvConnect true (user_name s) EmptyString (db_name s) st sid)).
Proof.
  intros Hl. split.
  - intros Hx Hk.
    destruct (first_event_accepted p l rest s Hl) as (st & sid & He).
    + rewrite (with_tokens_no_word l s Hx). exact Hk.
    + rewrite (with_tokens_no_word l s Hx) in He. eauto.
  - intros k r H1 H2 Hk.
    destruct (first_event_accepted p l rest s Hl) as (st & sid & He).
    + rewrite (with_tokens_one_word l s k r H1 H2). exact Hk.
    + rewrite (with_tokens_one_word l s k r H1 H2) in He. eauto.
Qed.

End WithEngine.

(** *** Lines of a file *)

Lemma file_lines_line l s :
  no_line_feed l = true ->
  Text.file_lines (l ++ String Text.LF s) = l :: Text.file_lines s.
Proof.
  induction l as [|c l IH]; intros H.
  - reflexivity.
  - cbn [no_line_feed] in H. apply andb_prop in H as [Hc Hl].
    apply negb_true_iff in Hc.
    cbn [append Text.file_lines]. rewrite Hc, (IH Hl). reflexivity.
Qed.

Lemma file_lines_last l :
  no_line_feed l = true -> l <> EmptyString ->
  Text.file_lines l = [l].
Proof.
  induction l as [|c l IH]; intros H Hne; [congruence|].
  cbn [no_line_feed] in H. apply andb_prop in H as [Hc Hl].
  apply negb_true_iff in Hc. cbn [Text.file_lines]. rewrite Hc.
  destruct l as [|d l]; [reflexivity|].
  rewrite (IH Hl) by discriminate. reflexivity.
Qed.

(** X9. The loop over [getline] sees a file as it was written: a file
    made of lines without line feed, each followed by a line feed, is
    read back as exactly these lines, and a last line that is not empty
    is read as well when its line feed is missing. *)
Theorem file_lines_unlines (ls : list string) (last : string) :
  forallb no_line_feed ls = true ->
  no_line_feed last = true ->
  Text.file_lines (unlines ls) = ls /\
  (last <> EmptyString ->
   Text.file_lines (unlines ls ++ last) = ls ++ [last]).
Proof.
  intros Hls Hlast. induction ls as [|l ls IH].
  - split; [reflexivity|]. intros Hne. cbn [unlines append app].
    apply file_lines_last; assumption.
  - cbn [forallb] in Hls. apply andb_prop in Hls as [Hl Hls].
    destruct (IH Hls) as [IH1 IH2]. cbn [unlines]. split.
    + rewrite (file_lines_line l _ Hl), IH1. reflexivity.
    + intros Hne.
      assert (Ha : forall a b c : string,
                 ((a ++ b) ++ c)%string = (a ++ (b ++ c))%string).
      { clear. intros a b c. induction a as [|x a IHa]; cbn;
          [reflexivity|]. rewrite IHa. reflexivity. }
      rewrite Ha. cbn [append].
      rewrite (file_lines_line l _ Hl), (IH2 Hne). reflexivity.
Qed.

End WarmupMore.

(** ** More runs of the counting engine *)

Module WarmupMoreRuns.

Import Warmup Obs Checks Fixture.

Lemma empty_script_is_inert_witness :
  replay (String Text.LF (String Text.LF EmptyString)) =
  (Normal tt, handler0,
   [EvLog INFO "Running DB warmup with queries from warmup.sql";
    EvFileOpen "warmup.sql"; EvFileClose]).
Proof.
  apply WarmupMore.empty_script_is_inert.
  - discriminate.
  - repeat constructor.
Defined.

Lemma header_accepted_iff_prefix_witness :
  hd_error (snd (header_loop script_path ["user a db"%string]
                             (initial_state handler0))) =
  Some (EvLog WARNING (syntax_warning script_path "user a db")).
Proof.
  apply (proj2 (WarmupMore.header_accepted_iff_prefix
                  script_path "user a db" [] (initial_state handler0)
                  "user" " a db" eq_refl)).
  intros [x H]. discriminate H.
Defined.

Lemma missing_words_are_reused_witness :
  exists st sid,
    hd_error (snd (header_loop script_path ["USER"%string]
                     (mkWState handler0 "USER" "a" "db" EmptyString))) =
    Some (EvConnect true "a" EmptyString "db" st sid).
Proof.
  apply (proj2 (WarmupMore.missing_words_are_reused
                  script_path "USER" []
                  (mkWState handler0 "USER" "a" "db" EmptyString) eq_refl)
               "USER"%string EmptyString eq_refl eq_refl eq_refl).
Defined.

Lemma file_lines_unlines_witness :
  Text.file_lines (unlines ["USER a db"; "SELECT 1;"]%string ++ "}")
  = ["USER a db"; "SELECT 1;"; "}"]%string.
Proof.
  apply (proj2 (WarmupMore.file_lines_unlines
                  ["USER a db"; "SELECT 1;"]%string "}" eq_refl eq_refl)).
  discriminate.
Defined.

End WarmupMoreRuns.

(** ** More on the cluster roles *)

Module ClusterMore.

Import Cluster.

Lemma filter_role_length (l : list LeafHostInfo) :
  length (filter (fun x => NodeRole_eqb (getRole x) DbLeaf) l)
  + length (filter (fun x => NodeRole_eqb (getRole x) String_) l)
  + length (filter (fun x => NodeRole_eqb (getRole x) Aggregator) l)
  = length l.
Proof.
  induction l as [|x l IH]; [reflexivity|].
  cbn [filter]. destruct (getRole x); cbn [NodeRole_eqb length]; lia.
Qed.

Lemma filter_filter_disjoint {A} (f g : A -> bool) (l : list A) :
  (forall x, g x = true -> f x = false) ->
  filter f (filter g l) = [].
Proof.
  intros H. induction l as [|x l IH]; [reflexivity|].
  cbn [filter]. destruct (g x) eqn:Hg; [|exact IH].
  cbn [filter]. rewrite (H x Hg). exact IH.
Qed.

(** X10. The two filters split a configuration without loss or overlap:
    the data leaves, the string leaves and the aggregators together are
    as many as the descriptors; neither filter finds anything in the
    output of the other; and each keeps the order of the input, being
    compatible with concatenation. *)
Theorem leaf_filters_split (l1 l2 : list LeafHostInfo) :
  length (only_db_leaves l1) + length (only_string_leaves l1)
  + length (filter (fun x => NodeRole_eqb (getRole x) Aggregator) l1)
  = length l1
  /\ only_db_leaves (only_string_leaves l1) = []
  /\ only_string_leaves (only_db_leaves l1) = []
  /\ only_db_leaves (l1 ++ l2) = only_db_leaves l1 ++ only_db_leaves l2
  /\ only_string_leaves (l1 ++ l2)
     = only_string_leaves l1 ++ only_string_leaves l2.
Proof.
  unfold only_db_leaves, only_string_leaves, copy_if.
  split; [apply filter_role_length|].
  split; [apply filter_filter_disjoint;
          intros x; destruct (getRole x); cbn; congruence|].
  split; [apply filter_filter_disjoint;
          intros x; destruct (getRole x); cbn; congruence|].
  split; apply filter_app.
Qed.

(** X11. The cluster block aborts exactly when both flags are present.
    Without any flag nothing is resolved and clustering stays off; with
    the string-servers flag alone no data leaf is kept but all string
    leaves are. *)
Theorem cluster_flags_cases
        (cluster string_servers : bool) (all_nodes : list LeafHostInfo) :
  (resolve cluster string_servers all_nodes = None <->
   cluster = true /\ string_servers = true)
  /\ resolve false false all_nodes = Some no_topology
  /\ resolve false true all_nodes
     = Some (mkTopology [] (only_string_leaves all_nodes) true).
Proof.
  split; [|split; reflexivity].
  unfold resolve. destruct cluster, string_servers; cbn;
    split; try discriminate; try tauto; intros [H1 H2]; discriminate.
Qed.

End ClusterMore.

(** ** More on the endpoint threads *)

Module EndpointMore.

Import Endpoints Checks.

(** X12. An exception from a serve loop that is not derived from
    [std::exception] passes [start_server]: nothing is logged, the
    process is terminated, and no further action is possible, so that
    the main thread never leaves the joins. *)
Theorem foreign_exception_terminates (p : process) (e : endpoint) :
  terminated p = false ->
  thread p e = Running ->
  exists p',
    step (ServeEnds e ServeThrowsOther) p = Some p' /\
    terminated p' = true /\
    log p' = log p /\
    pc p' = pc p /\
    forall a, step a p' = None.
Proof.
  intros Ha Ht. exists (finish e p true []).
  split; [unfold step; rewrite Ha, Ht; reflexivity|].
  split; [destruct e; reflexivity|].
  split; [destruct e; cbn; apply app_nil_r|].
  split; [destruct e; reflexivity|].
  intros a. unfold step. destruct e; reflexivity.
Qed.

Lemma foreign_exception_terminates_witness :
  exists p',
    step (ServeEnds HttpEndpoint ServeThrowsOther) launched = Some p' /\
    terminated p' = true /\ run [JoinReturns] p' = None.
Proof.
  destruct (foreign_exception_terminates launched HttpEndpoint
              eq_refl eq_refl) as (p' & H1 & H2 & _ & _ & H3).
  exists p'. split; [exact H1|]. split; [exact H2|].
  cbn [run]. rewrite H3. reflexivity.
Defined.

(** X13. A live process can always come to the end of [main]: when the
    serve loops that still run return, the warm-up ends and the joins
    return, the main thread is past both joins, the process is alive
    and nothing was logged on the way. *)
Theorem shutdown_is_reachable (p : process) :
  terminated p = false ->
  exists q,
    run (shutdown_schedule p) p = Some q /\
    pc q = Returned /\ terminated q = false /\ log q = log p /\
    bufThread q = Finished /\ httpThread q = Finished.
Proof.
  destruct p as [b h c t l]. cbn [terminated]. intros ->.
  destruct b, h, c; eexists; (split; [reflexivity|]);
    cbn; rewrite ?app_nil_r; repeat split; reflexivity.
Qed.

Lemma shutdown_is_reachable_witness :
  exists q, run (shutdown_schedule launched) launched = Some q /\
            pc q = Returned.
Proof.
  destruct (shutdown_is_reachable launched eq_refl) as (q & H1 & H2 & _).
  exists q. split; assumption.
Defined.

Lemma step_log_bound a p p' :
  step a p = Some p' ->
  length (log p) <= finished_threads p ->
  length (log p') <= finished_threads p'.
Proof.
  unfold step. destruct (terminated p); [discriminate|].
  destruct a as [e o| |].
  - destruct (thread p e) eqn:He; [|discriminate].
    destruct o; cbn [start_server]; intros H; injection H as <-;
      destruct e; cbn in He |- *; unfold finished_threads in *;
      cbn [bufThread httpThread]; rewrite ?He, ?length_app;
      cbn [length]; destruct (bufThread p), (httpThread p);
      try discriminate He; cbn in *; lia.
  - destruct (pc p); try discriminate. intros H; injection H as <-.
    exact (fun x => x).
  - destruct (pc p), (bufThread p) eqn:Hb, (httpThread p) eqn:Hh;
      try discriminate; intros H; injection H as <-;
      unfold finished_threads; cbn; rewrite Hb, Hh; exact (fun x => x).
Qed.

(** X14. From the launch on, the log of the endpoint threads holds at
    most one line per finished thread, hence at most two lines. *)
Theorem one_error_line_per_endpoint (acts : list action) (q : process) :
  run acts launched = Some q ->
  length (log q) <= finished_threads q /\ length (log q) <= 2.
Proof.
  intros Hrun.
  assert (H : forall p, run acts p = Some q ->
                        length (log p) <= finished_threads p ->
                        length (log q) <= finished_threads q).
  { clear Hrun. induction acts as [|a acts IH]; intros p; cbn [run].
    - intros H; injection H as <-. auto.
    - destruct (step a p) as [p1|] eqn:Hs; [|discriminate].
      intros Hr Hp. apply (IH p1 Hr).
      exact (step_log_bound a p p1 Hs Hp). }
  specialize (H launched Hrun (Nat.le_0_l _)).
  split; [exact H|].
  unfold finished_threads in H.
  destruct (bufThread q), (httpThread q); cbn in H; lia.
Qed.

Lemma one_error_line_per_endpoint_witness :
  length (log (finish BufEndpoint launched false
                 [EvLog ERROR
                    ("Exception: TTransportException"
                     ++ String Text.LF EmptyString)])) <= 2.
Proof.
  exact (proj2 (one_error_line_per_endpoint
                  [ServeEnds BufEndpoint
                     (ServeThrowsStd "TTransportException")]
                  (finish BufEndpoint launched false
                     [EvLog ERROR
                        ("Exception: TTransportException"
                         ++ String Text.LF EmptyString)])
                  eq_refl)).
Defined.

End EndpointMore.

(** ** Conversions from the wire format *)

Module ThriftFacts.

Import Thrift.

Section WithFloat.

Variable Double Float : Type.
Variable narrow : Double -> Float.

Local Notation range_of := (range_from_thrift (Float := Float) narrow).
Local Notation ranges_of :=
  (column_ranges_from_thrift (Float := Float) narrow).

Lemma range_from_thrift_none (r : TColumnRange Double) :
  range_of r = None <-> exists n, type r = Unlisted n.
Proof.
  unfold range_from_thrift. destruct (type r); split;
    try discriminate; try (intros [n H]; discriminate H).
  - intros _. eexists. reflexivity.
  - reflexivity.
Qed.

(** X15. The conversion of column ranges aborts exactly when some
    element carries a type outside the four the [switch] names;
    otherwise it makes one [setColRange] call per element, in the order
    of the input, keyed by the column and table of the element, with an
    integer range of the integer bounds and the bucket, a float range
    of the narrowed floating-point bounds, a double range of the
    floating-point bounds as they are, or the invalid range, as the
    type of the element says. *)
Theorem column_ranges_abort_iff (rs : list (TColumnRange Double)) :
  (ranges_of rs = None <->
   exists r n, In r rs /\ type r = Unlisted n)
  /\
  (forall calls,
      ranges_of rs = Some calls ->
      Forall2
        (fun r c =>
           fst c = mkPhysicalInput (col_id r) (table_id r) /\
           (type r = INTEGER ->
            snd c = makeIntRange Double Float (int_min r) (int_max r)
                                 (bucket r) (has_nulls r)) /\
           (type r = FLOAT ->
            snd c = makeFloatRange Double (narrow (fp_min r))
                                   (narrow (fp_max r)) (has_nulls r)) /\
           (type r = DOUBLE ->
            snd c = makeDoubleRange Float (fp_min r) (fp_max r)
                                    (has_nulls r)) /\
           (type r = INVALID -> snd c = makeInvalidRange Double Float) /\
           (forall n, type r <> Unlisted n))
        rs calls).
Proof.
  induction rs as [|r rs [IH1 IH2]].
  - split.
    + split; [discriminate|]. intros (r & n & [] & _).
    + intros calls H. injection H as <-. constructor.
  - cbn [column_ranges_from_thrift].
    destruct (range_of r) as [er|] eqn:Hr.
    + destruct (ranges_of rs) as [calls|].
      * split.
        -- split; [discriminate|].
           intros (r' & n & [->|Hin] & Ht).
           ++ assert (Hn : range_of r' = None)
                by (apply range_from_thrift_none; eauto).
              congruence.
           ++ assert (Hx : Some calls = None) by (apply IH1; eauto).
              discriminate Hx.
        -- intros calls' H. injection H as <-.
           constructor; [|exact (IH2 calls eq_refl)].
           cbn [fst snd]. unfold range_from_thrift in Hr.
           split; [reflexivity|].
           destruct (type r); try discriminate Hr;
             injection Hr as <-;
             repeat split; try discriminate; reflexivity.
      * split; [|discriminate].
        split; [|reflexivity]. intros _.
        destruct (proj1 IH1 eq_refl) as (r' & n & Hin & Ht).
        exists r', n. split; [right; exact Hin|exact Ht].
    + split; [|discriminate].
      split; [|reflexivity]. intros _.
      apply range_from_thrift_none in Hr as [n Hn].
      exists r, n. split; [left; reflexivity|exact Hn].
Qed.

End WithFloat.

Lemma static_cast_size_t_cases (x : Z) :
  is_int64 x ->
  (0 <= static_cast_size_t x < 2 ^ 64)%Z /\
  static_cast_size_t x = (if (x <? 0)%Z then x + 2 ^ 64 else x)%Z.
Proof.
  unfold is_int64, static_cast_size_t, SIZE_T_MODULUS. intros Hx.
  split; [apply Z.mod_pos_bound; lia|].
  destruct (x <? 0)%Z eqn:Hneg.
  - apply Z.ltb_lt in Hneg.
    rewrite <- (Z.mod_add x 1 (2 ^ 64)) by lia.
    rewrite Z.mul_1_l. apply Z.mod_small. lia.
  - apply Z.ltb_ge in Hneg. apply Z.mod_small. lia.
Qed.

(** X16. The conversion of table generations makes one call per
    element, in order, under the table id of the element.  A count that
    is not negative is passed as it is; a negative one, the row id -1
    for instance, arrives as that number plus two to the 64, the large
    unsigned value of the cast. *)
Theorem table_generation_counts (gens : list TTableGeneration) :
  Forall (fun g => is_int64 (tg_tuple_count g)
                   /\ is_int64 (tg_start_rowid g)) gens ->
  map fst (table_generations_from_thrift gens) = map tg_table_id gens /\
  Forall2 (fun g c =>
             let cast x := (if (x <? 0)%Z then x + 2 ^ 64 else x)%Z in
             tuple_count (snd c) = cast (tg_tuple_count g) /\
             start_rowid (snd c) = cast (tg_start_rowid g) /\
             (0 <= tuple_count (snd c) < 2 ^ 64)%Z /\
             (0 <= start_rowid (snd c) < 2 ^ 64)%Z)
          gens (table_generations_from_thrift gens).
Proof.
  intros H. unfold table_generations_from_thrift. split.
  - rewrite map_map. reflexivity.
  - induction H as [|g gens [H1 H2] _ IH]; cbn [map]; constructor;
      [|exact IH].
    cbn [snd tuple_count start_rowid].
    destruct (static_cast_size_t_cases _ H1) as [Ha Hb].
    destruct (static_cast_size_t_cases _ H2) as [Hc Hd].
    rewrite Hb in Ha |- *. rewrite Hd in Hc |- *. repeat split; lia.
Qed.

Lemma table_generation_counts_witness :
  table_generations_from_thrift [mkTTableGeneration 7 10 (-1)]
  = [(7%Z, mkTableGeneration 10 (2 ^ 64 - 1))].
Proof.
  pose proof (table_generation_counts [mkTTableGeneration 7 10 (-1)]) as H.
  destruct H as [_ H].
  - repeat constructor; cbn; unfold is_int64; lia.
  - reflexivity.
Defined.

End ThriftFacts.

(** ** More on the start-up *)

Module StartupMore.

Import Text Startup Obs Checks StartupFacts.

Section Main.

Context {E : Type} {Eng : Engine E}.
Variable MAPD_SYSTEM_DB MAPD_RELEASE : string.
Variable env : Env E.
Variable o : Options.

Local Notation cf := (trim_if quote_chars (cluster_file o)).
Local Notation any_cluster_flag :=
  (count_cluster o || count_string_servers o).
Local Notation cluster_events :=
  (if any_cluster_flag then [EvParseClusterConfig cf] else []).
Local Notation nodes := (parseClusterConfig env cf).
Local Notation lf := (lock_file o).
Local Notation the_main := (main MAPD_SYSTEM_DB MAPD_RELEASE env o).
Local Notation system_db_file :=
  (path_append (path_append (data_dir o) "mapd_catalogs") "mapd").
Local Notation data_path := (path_append (data_dir o) "mapd_data").
Local Notation db_file :=
  (path_append (path_append (data_dir o) "mapd_catalogs") MAPD_SYSTEM_DB).
Local Notation lock_events :=
  [EvSysOpen lf [O_RDWR; O_CREAT] MODE_0644;
   EvSysLockf lf F_TLOCK 0;
   EvSysFtruncate lf 0;
   EvSysWrite lf (to_string (getpid env))].

(** *** [main] block by block *)

Lemma main_eq :
  the_main =
  match options_block MAPD_RELEASE env o with
  | (Stop r, t1) => (r, t1)
  | (Continue topo, t1) =>
      match precondition_checks MAPD_SYSTEM_DB env o with
      | (Stop r, t2) => (r, t1 ++ t2)
      | (Continue _, t2) =>
          match acquire_instance_lock env o with
          | (Stop r, t3) => (r, t1 ++ t2 ++ t3)
          | (Continue _, t3) =>
              match logging_and_ha o with
              | (Stop r, t4) => (r, t1 ++ t2 ++ t3 ++ t4)
              | (Continue _, t4) =>
                  let h := new_MapDHandler env (Cluster.db_leaves topo)
                                           (Cluster.string_leaves topo) in
                  let made :=
                    [EvRegisterSignalHandler;
                     EvNewHandler (Cluster.db_leaves topo)
                                  (Cluster.string_leaves topo)] in
                  if String.eqb (ha_group_id o) EmptyString then
                    (after_warmup
                       (fst (fst (Warmup.run_warmup_queries
                                    (ifstream_contents env) h (data_dir o)
                                    (query_file o)))),
                     t1 ++ t2 ++ t3 ++ t4 ++ made
                     ++ EvThreadStart BufEndpoint
                     :: EvThreadStart HttpEndpoint
                     :: snd (Warmup.run_warmup_queries
                               (ifstream_contents env) h (data_dir o)
                               (query_file o)))
                  else
                    (Abort,
                     t1 ++ t2 ++ t3 ++ t4 ++ made
                     ++ [EvLog FATAL
                           "No High Availabilty module avilable, please contact MapD support"])
              end
          end
      end
  end.
Proof.
  unfold main, main_proc.
  destruct (options_block MAPD_RELEASE env o) as [[topo|r] t1];
    cbn [pbind]; [|reflexivity].
  destruct (precondition_checks MAPD_SYSTEM_DB env o) as [[[]|r] t2];
    cbn [pbind]; [|reflexivity].
  destruct (acquire_instance_lock env o) as [[[]|r] t3];
    cbn [pbind]; [|reflexivity].
  destruct (logging_and_ha o) as [[[]|r] t4];
    cbn [pbind]; [|reflexivity].
  cbn [pemit pbind].
  destruct (String.eqb (ha_group_id o) EmptyString).
  - rewrite serve_eq. reflexivity.
  - reflexivity.
Qed.

Lemma options_block_shape :
  match options_block MAPD_RELEASE env o with
  | (Continue topo, t) =>
      parse_error o = None /\
      Cluster.resolve (count_cluster o) (count_string_servers o) nodes
      = Some topo /\
      count_help o || count_help_advanced o || count_version o = false /\
      t = cluster_events
  | (Stop r, t) =>
      (exists what, parse_error o = Some what /\ r = Exit 1 /\
                    t = [EvCerr ("Usage Error: " ++ what ++ endl)])
      \/ (parse_error o = None /\
          Cluster.resolve (count_cluster o) (count_string_servers o) nodes
          = None /\ r = Abort /\ t = [])
      \/ (parse_error o = None /\
          count_help o || count_help_advanced o || count_version o = true /\
          r = Exit 0 /\
          exists topo msg,
            Cluster.resolve (count_cluster o) (count_string_servers o) nodes
            = Some topo /\
            t = cluster_events ++ [EvCout msg])
  end.
Proof.
  unfold options_block.
  destruct (parse_error o) as [what|].
  { cbn. left. exists what. auto. }
  destruct (Cluster.resolve _ _ _) as [topo|].
  2:{ cbn. right. left. auto. }
  destruct (count_help o), (count_help_advanced o), (count_version o),
    any_cluster_flag;
    cbn [when pbind pemit stop pret orb app];
    try (right; right; repeat split; try reflexivity;
         exists topo; eexists; split; reflexivity);
    repeat split.
Qed.

Lemma precondition_checks_continue :
  fst (precondition_checks MAPD_SYSTEM_DB env o) = Continue tt ->
  ((0 <? String.length (query_file o))%nat
   && negb (fs_exists env (query_file o)) = false) /\
  ((0 <? String.length (convert_dir o))%nat
   && negb (fs_exists env (convert_dir o)) = false) /\
  fs_exists env (data_dir o) = true /\
  fs_exists env system_db_file = true /\
  fs_exists env data_path = true /\
  fs_exists env db_file = true.
Proof.
  unfold precondition_checks.
  destruct ((0 <? String.length (query_file o))%nat
            && negb (fs_exists env (query_file o))) eqn:H1;
    cbn [when pbind pemit stop pret app fst]; [discriminate|].
  destruct ((0 <? String.length (convert_dir o))%nat
            && negb (fs_exists env (convert_dir o))) eqn:H2;
    cbn [when pbind pemit stop pret app fst]; [discriminate|].
  destruct (fs_exists env (data_dir o)) eqn:H3;
    cbn [negb when pbind pemit stop pret app fst]; [|discriminate].
  destruct (fs_exists env system_db_file) eqn:H4;
    cbn [negb when pbind pemit stop pret app fst]; [|discriminate].
  destruct (fs_exists env data_path) eqn:H5;
    cbn [negb when pbind pemit stop pret app fst]; [|discriminate].
  destruct (fs_exists env db_file) eqn:H6;
    cbn [negb when pbind pemit stop pret app fst]; [|discriminate].
  intros _. repeat split; reflexivity.
Qed.

Lemma logging_and_ha_shape :
  match logging_and_ha o with
  | (Continue _, t) =>
      Forall (fun e => is_banner e = true) t /\
      (ha_group_id o = EmptyString \/
       (ha_unique_server_id o <> EmptyString /\
        ha_brokers o <> EmptyString /\
        ha_shared_data o <> EmptyString))
  | (Stop r, t) =>
      ha_group_id o <> EmptyString /\
      r = (if String.eqb (ha_unique_server_id o) EmptyString then Exit 5
           else if String.eqb (ha_brokers o) EmptyString then Exit 6
                else Exit 7) /\
      (String.eqb (ha_unique_server_id o) EmptyString
       || String.eqb (ha_brokers o) EmptyString
       || String.eqb (ha_shared_data o) EmptyString = true) /\
      Forall (fun e => is_launch_or_warmup e = false
                       /\ is_lock_syscall e = false) t
  end.
Proof.
  unfold logging_and_ha.
  destruct (count_cluster o), (count_string_servers o),
    (String.eqb (ha_group_id o) EmptyString) eqn:Hg,
    (String.eqb (ha_unique_server_id o) EmptyString) eqn:Hu,
    (String.eqb (ha_brokers o) EmptyString) eqn:Hb,
    (String.eqb (ha_shared_data o) EmptyString) eqn:Hs;
    cbn [negb when pbind pemit stop pret app orb];
    rewrite ?String.eqb_eq, ?String.eqb_neq in *;
    repeat split; try assumption; try reflexivity;
    try (repeat constructor; fail);
    try (left; assumption);
    try (right; repeat split; assumption).
Qed.

(** *** Results *)

Lemma exists_or_empty p :
  (0 <? String.length p)%nat && negb (fs_exists env p) = false ->
  p = EmptyString \/ fs_exists env p = true.
Proof.
  destruct p; [left; reflexivity|]. cbn.
  destruct (fs_exists env _); [right; reflexivity|discriminate].
Qed.

Lemma existsb_cluster_events f :
  f (EvParseClusterConfig cf) = false -> existsb f cluster_events = false.
Proof.
  intros H. destruct any_cluster_flag; cbn; [rewrite H|]; reflexivity.
Qed.

(** X18. [main] makes a system call on the lock file only after the
    options were read without error and every existence check has
    passed: the data directory, the system catalog, the data
    sub-directory and the system database exist, and so do the query
    list and the conversion source when they are named. *)
Theorem lock_only_after_preconditions :
  existsb is_lock_syscall (snd the_main) = true ->
  parse_error o = None /\
  (query_file o = EmptyString \/ fs_exists env (query_file o) = true) /\
  (convert_dir o = EmptyString \/ fs_exists env (convert_dir o) = true) /\
  fs_exists env (data_dir o) = true /\
  fs_exists env system_db_file = true /\
  fs_exists env data_path = true /\
  fs_exists env db_file = true.
Proof.
  rewrite main_eq.
  pose proof options_block_shape as H1.
  destruct (options_block MAPD_RELEASE env o) as [[topo|r] t1].
  2:{ cbn [snd].
      destruct H1 as [(what & _ & _ & ->)|[(_ & _ & _ & ->)
                     |(_ & _ & _ & topo & msg & _ & ->)]];
        try discriminate.
      rewrite existsb_app, existsb_cluster_events by reflexivity.
      discriminate. }
  destruct H1 as (Hp & _ & _ & ->).
  pose proof (precondition_checks_continue) as H2.
  destruct (precondition_checks_cases MAPD_SYSTEM_DB env o)
    as [Hc | [msg Hc]]; rewrite Hc in *.
  2:{ cbn [snd]. rewrite existsb_app, existsb_cluster_events by reflexivity.
      discriminate. }
  intros _. destruct (H2 eq_refl) as (Ha & Hb & Hd & He & Hf & Hg).
  repeat split; try assumption; apply exists_or_empty; assumption.
Qed.

Lemma main_not_joining_in_ha :
  ha_group_id o <> EmptyString ->
  fst the_main <> Joining /\ fst the_main <> Terminate.
Proof.
  intros Hha. rewrite main_eq.
  pose proof options_block_shape as H1.
  destruct (options_block MAPD_RELEASE env o) as [[topo|r] t1].
  2:{ destruct H1 as [(what & _ & -> & _)|[(_ & _ & -> & _)
                                          |(_ & _ & -> & _)]];
        split; discriminate. }
  destruct (precondition_checks_cases MAPD_SYSTEM_DB env o)
    as [-> | [msg ->]]; [|split; discriminate].
  pose proof (acquire_instance_lock_cases env o) as H3.
  destruct (acquire_instance_lock env o) as [[[]|r] t3].
  2:{ destruct H3 as [-> _]. split; discriminate. }
  pose proof logging_and_ha_shape as H4.
  destruct (logging_and_ha o) as [[[]|r] t4].
  2:{ destruct H4 as (_ & -> & _).
      destruct (String.eqb (ha_unique_server_id o) EmptyString),
        (String.eqb (ha_brokers o) EmptyString); split; discriminate. }
  cbv zeta. destruct (String.eqb (ha_group_id o) EmptyString) eqn:Hg.
  - apply String.eqb_eq in Hg. contradiction.
  - split; discriminate.
Qed.

(** X19. With a high-availability group id [main] never starts an
    endpoint thread and never reaches the joins.  When the options, the
    existence checks and the instance lock went through, it returns 5
    if the unique server id is missing, else 6 if the broker list is
    missing, else 7 if the shared data path is missing, and aborts on
    the fatal log line if all three are set. *)
Theorem ha_mode_never_serves :
  ha_group_id o <> EmptyString ->
  fst the_main <> Joining /\
  existsb is_thread_start (snd the_main) = false /\
  (forall topo,
   fst (options_block MAPD_RELEASE env o) = Continue topo ->
   fst (precondition_checks MAPD_SYSTEM_DB env o) = Continue tt ->
   fst (acquire_instance_lock env o) = Continue tt ->
   fst the_main =
   if String.eqb (ha_unique_server_id o) EmptyString then Exit 5
   else if String.eqb (ha_brokers o) EmptyString then Exit 6
        else if String.eqb (ha_shared_data o) EmptyString then Exit 7
             else Abort).
Proof.
  intros Hha.
  pose proof (main_not_joining_in_ha Hha) as [Hnj Hnt].
  split; [exact Hnj|]. split.
  - apply not_true_iff_false. intros Hx.
    apply existsb_exists in Hx as (x & Hin & Hx).
    destruct x; try discriminate Hx.
    destruct (main_launch_joins MAPD_SYSTEM_DB MAPD_RELEASE env o e Hin)
      as [H|H]; [exact (Hnj H)|exact (Hnt H)].
  - intros topo0. rewrite main_eq.
    destruct (options_block MAPD_RELEASE env o) as [[topo|r] t1];
      [|discriminate].
    intros _.
    destruct (precondition_checks MAPD_SYSTEM_DB env o) as [[[]|r] t2];
      [|discriminate].
    destruct (acquire_instance_lock env o) as [[[]|r] t3];
      [|discriminate].
    intros _ _.
    pose proof logging_and_ha_shape as H4.
    destruct (logging_and_ha o) as [[[]|r] t4].
    + destruct H4 as [_ [Hg|(Hu & Hb & Hs)]]; [contradiction|].
      apply String.eqb_neq in Hu, Hb, Hs, Hha.
      cbv zeta. rewrite Hu, Hb, Hs, Hha. reflexivity.
    + destruct H4 as (_ & -> & Hany & _). cbn [fst].
      destruct (String.eqb (ha_unique_server_id o) EmptyString);
        [reflexivity|].
      destruct (String.eqb (ha_brokers o) EmptyString); [reflexivity|].
      cbn in Hany. rewrite Hany. reflexivity.
Qed.

Lemma warmup_no_sys_close fs (h : MapDHandler E) base_path p :
  existsb is_sys_close (snd (Warmup.run_warmup_queries fs h base_path p))
  = false.
Proof.
  apply not_true_iff_false. intros Hx.
  apply existsb_exists in Hx as (x & Hin & Hx).
  pose proof (WarmupMore.run_forall
                (fun e => is_sys_close e = false) fs h base_path p
                ltac:(reflexivity) ltac:(reflexivity) ltac:(reflexivity)
                ltac:(reflexivity) ltac:(reflexivity)
                eq_refl eq_refl eq_refl eq_refl) as H.
  rewrite Forall_forall in H. rewrite (H x Hin) in Hx. discriminate Hx.
Qed.

Lemma banner_no f (t : list event) :
  (forall e, is_banner e = true -> f e = false) ->
  Forall (fun e => is_banner e = true) t -> existsb f t = false.
Proof.
  intros Hf. induction 1 as [|e t He _ IH]; cbn; [reflexivity|].
  rewrite (Hf e He). exact IH.
Qed.

(** X20. On a start that reaches the joins [main] has issued no close
    on the descriptor of the lock file: the acquisition leaves the
    descriptor open, and neither the banner, nor the start of the
    threads, nor the warm-up closes it before the joins. *)
Theorem lock_descriptor_stays_open :
  fst the_main = Joining ->
  existsb is_sys_close (snd the_main) = false.
Proof.
  intros Hj.
  destruct (main_joining MAPD_SYSTEM_DB MAPD_RELEASE env o Hj)
    as (topo & banner & _ & Hb & ->).
  rewrite !existsb_app, warmup_no_sys_close.
  rewrite existsb_cluster_events by reflexivity.
  rewrite (banner_no is_sys_close banner); [reflexivity| |exact Hb].
  intros e He. destruct e; try reflexivity; discriminate He.
Qed.

(** X21. A failed open of the lock file returns 1 with nothing to close;
    every later failure of the acquisition (the lock request, the
    truncation, the write) returns 1 after closing the descriptor, which
    is the last thing the block does. *)
Theorem lock_failures_close :
  (open_succeeds env lf = false ->
   acquire_instance_lock env o =
   (Stop (Exit 1),
    [EvSysOpen lf [O_RDWR; O_CREAT] MODE_0644;
     EvCerr ("Failed to open PID file " ++ quoted_path lf ++ ". "
             ++ strerror_errno env ++ "." ++ endl)]))
  /\
  (open_succeeds env lf = true ->
   lockf_tlock env lf && ftruncate_succeeds env lf
   && write_succeeds env lf = false ->
   fst (acquire_instance_lock env o) = Stop (Exit 1) /\
   exists t0, snd (acquire_instance_lock env o) = t0 ++ [EvSysClose lf]).
Proof.
  unfold acquire_instance_lock. split.
  - intros ->. reflexivity.
  - intros ->.
    destruct (lockf_tlock env lf), (ftruncate_succeeds env lf),
      (write_succeeds env lf); cbn [andb]; try discriminate; intros _;
      cbn [negb when pbind pemit stop pret app fst snd];
      (split; [reflexivity|]).
    + exists [EvSysOpen lf [O_RDWR; O_CREAT] MODE_0644;
              EvSysLockf lf F_TLOCK 0; EvSysFtruncate lf 0;
              EvSysWrite lf (to_string (getpid env));
              EvCerr ("Failed to write PID file " ++ quoted_path lf
                      ++ ". " ++ strerror_errno env ++ "." ++ endl)].
      reflexivity.
    + exists [EvSysOpen lf [O_RDWR; O_CREAT] MODE_0644;
              EvSysLockf lf F_TLOCK 0; EvSysFtruncate lf 0;
              EvCerr ("Failed to truncate PID file " ++ quoted_path lf
                      ++ ". " ++ strerror_errno env ++ "." ++ endl)].
      reflexivity.
    + exists [EvSysOpen lf [O_RDWR; O_CREAT] MODE_0644;
              EvSysLockf lf F_TLOCK 0; EvSysFtruncate lf 0;
              EvCerr ("Failed to truncate PID file " ++ quoted_path lf
                      ++ ". " ++ strerror_errno env ++ "." ++ endl)].
      reflexivity.
    + exists [EvSysOpen lf [O_RDWR; O_CREAT] MODE_0644;
              EvSysLockf lf F_TLOCK 0;
              EvCerr ("Another MapD Server is using data directory "
                      ++ quoted_path (data_dir o) ++ "." ++ endl)].
      reflexivity.
    + exists [EvSysOpen lf [O_RDWR; O_CREAT] MODE_0644;
              EvSysLockf lf F_TLOCK 0;
              EvCerr ("Another MapD Server is using data directory "
                      ++ quoted_path (data_dir o) ++ "." ++ endl)].
      reflexivity.
    + exists [EvSysOpen lf [O_RDWR; O_CREAT] MODE_0644;
              EvSysLockf lf F_TLOCK 0;
              EvCerr ("Another MapD Server is using data directory "
                      ++ quoted_path (data_dir o) ++ "." ++ endl)].
      reflexivity.
    + exists [EvSysOpen lf [O_RDWR; O_CREAT] MODE_0644;
              EvSysLockf lf F_TLOCK 0;
              EvCerr ("Another MapD Server is using data directory "
                      ++ quoted_path (data_dir o) ++ "." ++ endl)].
      reflexivity.
Qed.

(** X22. With readable options and consistent cluster flags, any of the
    help, advanced-help and version flags makes [main] return 0 after
    one text on the output stream.  The cluster configuration, if one of
    its flags is present, has been parsed before; no path is checked and
    the lock file is not touched. *)
Theorem informational_flags_exit_early topo :
  parse_error o = None ->
  Cluster.resolve (count_cluster o) (count_string_servers o) nodes
  = Some topo ->
  count_help o || count_help_advanced o || count_version o = true ->
  exists msg,
    the_main = (Exit 0, cluster_events ++ [EvCout msg]) /\
    existsb is_lock_syscall (snd the_main) = false.
Proof.
  intros Hp Hr Hf. rewrite main_eq.
  pose proof options_block_shape as H1.
  destruct (options_block MAPD_RELEASE env o) as [[topo'|r] t1].
  - destruct H1 as (_ & _ & H1 & _). congruence.
  - destruct H1 as [(what & H1 & _)|[(_ & H1 & _)
                   |(_ & _ & -> & topo' & msg & _ & ->)]];
      [congruence|congruence|].
    exists msg. split; [reflexivity|]. cbn [snd].
    rewrite existsb_app, existsb_cluster_events by reflexivity.
    reflexivity.
Qed.

(** X23. On a start that reaches the joins without a query list, nothing
    is replayed: the trace holds no action of the warm-up and ends with
    the start of the two endpoint threads. *)
Theorem no_query_list_no_warmup :
  fst the_main = Joining ->
  query_file o = EmptyString ->
  existsb is_warmup (snd the_main) = false /\
  exists t0,
    snd the_main
    = t0 ++ [EvThreadStart BufEndpoint; EvThreadStart HttpEndpoint].
Proof.
  intros Hj Hq.
  destruct (main_joining MAPD_SYSTEM_DB MAPD_RELEASE env o Hj)
    as (topo & banner & _ & Hb & ->).
  rewrite Hq. unfold Warmup.run_warmup_queries at 1 2.
  cbn [String.length Nat.eqb snd]. split.
  - rewrite !existsb_app, existsb_cluster_events by reflexivity.
    rewrite (banner_no is_warmup banner); [reflexivity| |exact Hb].
    intros e He. destruct e; try reflexivity; discriminate He.
  - exists (cluster_events ++ lock_events ++ banner
            ++ [EvRegisterSignalHandler;
                EvNewHandler (Cluster.db_leaves topo)
                             (Cluster.string_leaves topo)]).
    rewrite <- !app_assoc. cbn [app]. reflexivity.
Qed.

(** X24. When the acquisition of the lock goes through, the text written
    to the lock file reads back, as a decimal number, as the id of the
    process. *)
Theorem lock_file_holds_pid :
  fst (acquire_instance_lock env o) = Continue tt ->
  exists data,
    In (EvSysWrite lf data) (snd (acquire_instance_lock env o)) /\
    option_map N.of_uint (NilEmpty.uint_of_string data)
    = Some (getpid env).
Proof.
  intros Hc. pose proof (acquire_instance_lock_cases env o) as H.
  destruct (acquire_instance_lock env o) as [[[]|r] t]; [|discriminate Hc].
  destruct H as (_ & _ & _ & _ & ->).
  exists (to_string (getpid env)). split.
  - cbn. auto.
  - unfold to_string. rewrite NilEmpty.usu. cbn [option_map].
    rewrite DecimalN.Unsigned.of_to. reflexivity.
Qed.

(** X25. On a start that reaches the joins the handler is built with the
    data leaves of the configuration if the cluster flag is present and
    with none otherwise, and with the string leaves if either flag is
    present and with none otherwise. *)
Theorem handler_receives_leaves :
  fst the_main = Joining ->
  In (EvNewHandler
        (if count_cluster o then Cluster.only_db_leaves nodes else [])
        (if any_cluster_flag then Cluster.only_string_leaves nodes
         else []))
     (snd the_main).
Proof.
  intros Hj.
  destruct (main_joining MAPD_SYSTEM_DB MAPD_RELEASE env o Hj)
    as (topo & banner & Hr & _ & ->).
  rewrite !in_app_iff. right. right. right. left. right. left.
  unfold Cluster.resolve in Hr.
  destruct (count_cluster o), (count_string_servers o); cbn in Hr;
    try discriminate; injection Hr as <-; reflexivity.
Qed.

End Main.

(** *** Concrete starts *)

Import Fixture MoreFixtures.

Lemma lock_only_after_preconditions_witness :
  fs_exists plain_env "data/mapd_catalogs/mapd" = true /\
  fs_exists plain_env "data/mapd_data" = true.
Proof.
  destruct (lock_only_after_preconditions
              "mapd" "3.0" plain_env plain_options eq_refl)
    as (_ & _ & _ & _ & H1 & H2 & _).
  split; [exact H1|exact H2].
Defined.

Lemma ha_mode_never_serves_witness :
  fst (main "mapd" "3.0" plain_env ha_options) = Exit 5 /\
  existsb is_thread_start (snd (main "mapd" "3.0" plain_env ha_options))
  = false.
Proof.
  destruct (ha_mode_never_serves "mapd" "3.0" plain_env ha_options)
    as (_ & H2 & H3); [discriminate|].
  split; [|exact H2].
  exact (H3 Cluster.no_topology eq_refl eq_refl eq_refl).
Defined.

Lemma lock_descriptor_stays_open_witness :
  existsb is_sys_close (snd (start good_blocks_script None false)) = false.
Proof.
  exact (lock_descriptor_stays_open
           "mapd" "3.0" (env good_blocks_script None) (options false)
           (f_equal fst start_without_cluster_flag)).
Defined.

Lemma lock_failures_close_witness :
  fst (acquire_instance_lock (env EmptyString (Some 5%N)) plain_options)
  = Stop (Exit 1) /\
  exists t0,
    snd (acquire_instance_lock (env EmptyString (Some 5%N)) plain_options)
    = t0 ++ [EvSysClose "data/mapd_server_pid.lck"].
Proof.
  exact (proj2 (lock_failures_close (env EmptyString (Some 5%N))
                                    plain_options) eq_refl eq_refl).
Defined.

Lemma informational_flags_exit_early_witness :
  exists msg,
    main "mapd" "3.0" plain_env version_options
    = (Exit 0, [EvParseClusterConfig "cluster.conf"; EvCout msg]) /\
    existsb is_lock_syscall
            (snd (main "mapd" "3.0" plain_env version_options)) = false.
Proof.
  exact (informational_flags_exit_early
           "mapd" "3.0" plain_env version_options
           (Cluster.mkTopology [] [leafS] true) eq_refl eq_refl eq_refl).
Defined.

Lemma no_query_list_no_warmup_witness :
  existsb is_warmup (snd (main "mapd" "3.0" plain_env plain_options))
  = false.
Proof.
  exact (proj1 (no_query_list_no_warmup
                  "mapd" "3.0" plain_env plain_options eq_refl eq_refl)).
Defined.

Lemma lock_file_holds_pid_witness :
  exists data,
    In (EvSysWrite "data/mapd_server_pid.lck" data)
       (snd (acquire_instance_lock plain_env plain_options)) /\
    option_map N.of_uint (NilEmpty.uint_of_string data) = Some 4711%N.
Proof.
  exact (lock_file_holds_pid plain_env plain_options eq_refl).
Defined.

Lemma handler_receives_leaves_witness :
  In (EvNewHandler [leafD] [leafS])
     (snd (start good_blocks_script None true)).
Proof.
  exact (handler_receives_leaves
           "mapd" "3.0" (env good_blocks_script None) (options true)
           eq_refl).
Defined.

End StartupMore.
